(** * Credit card statement parser: the extraction engine of [parser.py]

    A shallow embedding of [CreditCardParser] (issuer identification, the
    four field extractors, the transaction tokenizer and [parse]) together
    with the part of Python's [str] and [re] that those methods call.

    A statement text is a [string]: one [ascii] per code point, which covers
    the code points below 256.  The character tables ([str.lower],
    [str.isspace], the classes [\s] and [\d]) are Python's on that range. *)

From Stdlib Require Import String Ascii List Bool Arith Lia.
Import ListNotations.
Local Open Scope list_scope.
Local Open Scope string_scope.

(* ================================================================== *)
(** * Exceptions *)

Inductive exn : Type :=
| AttributeError (msg : string)
| TypeError (msg : string)
| ReError (msg : string)
| Exception (msg : string).

Inductive result (A : Type) : Type :=
| Ok (a : A)
| Raise (e : exn).

Arguments Ok {A} a.
Arguments Raise {A} e.

Definition bind {A B : Type} (r : result A) (k : A -> result B) : result B :=
  match r with
  | Ok a => k a
  | Raise e => Raise e
  end.

Notation "x <- e ;; k" := (bind e (fun x => k))
  (at level 61, e at next level, right associativity).

(* ================================================================== *)
(** * Python [str] *)

Module Str.

Definition code (a : ascii) : nat := nat_of_ascii a.

Definition between (lo hi n : nat) : bool := Nat.leb lo n && Nat.leb n hi.

(** [chr.lower()] for one code point: A-Z, and the Latin-1 capitals
    U+00C0..U+00DE except the multiplication sign U+00D7. *)
Definition lower_char (a : ascii) : ascii :=
  let n := code a in
  if between 65 90 n || between 192 214 n || between 216 222 n
  then ascii_of_nat (n + 32)
  else a.

(** [s.lower()] *)
Fixpoint lower (s : string) : string :=
  match s with
  | EmptyString => EmptyString
  | String a t => String (lower_char a) (lower t)
  end.

(** [chr.isspace()], which is also the class [\s] of a [str] pattern:
    TAB..CR, FS..US, SPACE, NEL and NBSP. *)
Definition isspace (a : ascii) : bool :=
  let n := code a in
  between 9 13 n || between 28 32 n || Nat.eqb n 133 || Nat.eqb n 160.

(** The class [\d] of a [str] pattern: the decimal digits, 0-9 on this
    range. *)
Definition isdecimal (a : ascii) : bool := between 48 57 (code a).

(** [s.startswith(p)] *)
Fixpoint startswith (p s : string) : bool :=
  match p with
  | EmptyString => true
  | String a p' =>
      match s with
      | EmptyString => false
      | String b s' => Ascii.eqb a b && startswith p' s'
      end
  end.

(** [needle in hay] *)
Fixpoint contains (needle hay : string) : bool :=
  startswith needle hay ||
  match hay with
  | EmptyString => false
  | String _ t => contains needle t
  end.

(** [s[:n]] *)
Fixpoint take (n : nat) (s : string) : string :=
  match n, s with
  | S k, String a t => String a (take k t)
  | _, _ => EmptyString
  end.

(** [s[n:]] *)
Fixpoint drop (n : nat) (s : string) : string :=
  match n, s with
  | S k, String _ t => drop k t
  | _, _ => s
  end.

(** [s.replace(old, new)] for a non-empty [old]: a left-to-right scan that
    replaces each occurrence and resumes after it; [skip] counts the
    characters of the occurrence still to be passed over. *)
Fixpoint replace_from (old new : string) (skip : nat) (s : string) : string :=
  match s with
  | EmptyString => EmptyString
  | String a t =>
      match skip with
      | S k => replace_from old new k t
      | O =>
          if startswith old s
          then new ++ replace_from old new (String.length old - 1) t
          else String a (replace_from old new 0 t)
      end
  end.

Fixpoint interleave (new s : string) : string :=
  match s with
  | EmptyString => EmptyString
  | String a t => String a (new ++ interleave new t)
  end.

(** [s.replace(old, new)]; with an empty [old] Python puts [new] before
    every character and at the end. *)
Definition replace (s old new : string) : string :=
  match old with
  | EmptyString => new ++ interleave new s
  | String _ _ => replace_from old new 0 s
  end.

(** [all(f(ch) for ch in s)] *)
Fixpoint all (f : ascii -> bool) (s : string) : bool :=
  match s with
  | EmptyString => true
  | String a t => f a && all f t
  end.

(** [hay] holds [needle] as a contiguous part. *)
Definition Substring (needle hay : string) : Prop :=
  exists before after : string, hay = before ++ needle ++ after.

(** [s.lstrip()], [s.rstrip()], [s.strip()] *)
Fixpoint lstrip (s : string) : string :=
  match s with
  | EmptyString => EmptyString
  | String a t => if isspace a then lstrip t else s
  end.

Fixpoint rstrip (s : string) : string :=
  match s with
  | EmptyString => EmptyString
  | String a t =>
      match rstrip t with
      | EmptyString => if isspace a then EmptyString else String a EmptyString
      | t' => String a t'
      end
  end.

Definition strip (s : string) : string := lstrip (rstrip s).

End Str.

(* ================================================================== *)
(** * Python [re]: patterns *)

Module Re.

Inductive category : Type :=
| CategoryDigit   (* \d *)
| CategorySpace.  (* \s *)

(** One member of a character set [[...]]. *)
Inductive item : Type :=
| Literal (c : ascii)
| Range (lo hi : ascii)
| Category (k : category).

(** The patterns of [parser.py] use literals, sets, the classes [\s] and
    [\d], concatenation, [|], the repetitions [*], [+], [?], [{m}], [{m,n}]
    (greedy, or lazy with a [?] suffix), and capturing [( )] and
    non-capturing [(?: )] groups. *)
Inductive regex : Type :=
| Empty
| Lit (c : ascii)
| In (items : list item)
| Seq (a b : regex)
| Alt (a b : regex)
| Rep (lo : nat) (hi : option nat) (greedy : bool) (a : regex)
| Group (n : nat) (a : regex).

(** ** Reading a pattern string *)

Definition is_alnum (a : ascii) : bool :=
  let n := Str.code a in
  Str.between 48 57 n || Str.between 65 90 n || Str.between 97 122 n.

(** A backslash escape [\e]: a class for [\s] and [\d], the character
    itself for punctuation.  The other alphanumeric escapes do not occur
    in [parser.py] and are not read. *)
Definition escape (e : ascii) : option item :=
  if Ascii.eqb e "s" then Some (Category CategorySpace)
  else if Ascii.eqb e "d" then Some (Category CategoryDigit)
  else if is_alnum e then None
  else Some (Literal e).

(** A decimal number, as in [{4,12}]. *)
Fixpoint p_nat (acc : nat) (seen : bool) (s : string) : option (nat * string) :=
  match s with
  | String a t =>
      if Str.isdecimal a then p_nat (10 * acc + (Str.code a - 48)) true t
      else if seen then Some (acc, s) else None
  | EmptyString => if seen then Some (acc, s) else None
  end.

(** One member of a set: a character, an escape, or a range [lo-hi].  A
    [-] between two characters makes a range; a [-] just before the closing
    bracket is a literal. *)
Definition p_member (s : string) : option (item * string) :=
  let single :=
    match s with
    | EmptyString => None
    | String a t =>
        if Ascii.eqb a "\" then
          match t with
          | EmptyString => None
          | String e t1 =>
              match escape e with
              | Some it => Some (it, t1)
              | None => None
              end
          end
        else Some (Literal a, t)
    end in
  match single with
  | None => None
  | Some (it, t) =>
      match t with
      | String d (String b t1) =>
          if Ascii.eqb d "-" && negb (Ascii.eqb b "]") then
            match it, (if Ascii.eqb b "\" then
                         match t1 with
                         | String e t2 =>
                             match escape e with
                             | Some (Literal hi) => Some (hi, t2)
                             | _ => None
                             end
                         | EmptyString => None
                         end
                       else Some (b, t1)) with
            | Literal lo, Some (hi, t2) =>
                if Nat.leb (Str.code lo) (Str.code hi)
                then Some (Range lo hi, t2) else None
            | _, _ => None
            end
          else Some (it, t)
      | _ => Some (it, t)
      end
  end.

(** The members of a set, up to the closing bracket. *)
Fixpoint p_set (fuel : nat) (acc : list item) (s : string)
  : option (list item * string) :=
  match fuel with
  | O => None
  | S f =>
      match s with
      | EmptyString => None
      | String a t =>
          if Ascii.eqb a "]" then
            match acc with
            | [] => None
            | _ => Some (rev acc, t)
            end
          else
            match p_member s with
            | Some (it, t1) => p_set f (it :: acc) t1
            | None => None
            end
      end
  end.

(** The repetition that follows an atom, if any: [None] when the text
    after the atom is no well-formed repetition. *)
Definition p_quant (a : regex) (s : string) : option (regex * string) :=
  let bounds : option (option (nat * option nat * string)) :=
    match s with
    | EmptyString => Some None
    | String q t =>
        if Ascii.eqb q "*" then Some (Some (0, None, t))
        else if Ascii.eqb q "+" then Some (Some (1, None, t))
        else if Ascii.eqb q "?" then Some (Some (0, Some 1, t))
        else if Ascii.eqb q "{" then
          match p_nat 0 false t with
          | Some (lo, String d t1) =>
              if Ascii.eqb d "}" then Some (Some (lo, Some lo, t1))
              else if Ascii.eqb d "," then
                match p_nat 0 false t1 with
                | Some (hi, String e t2) =>
                    if Ascii.eqb e "}" && Nat.leb lo hi
                    then Some (Some (lo, Some hi, t2)) else None
                | _ =>
                    match t1 with
                    | String e t2 =>
                        if Ascii.eqb e "}" then Some (Some (lo, None, t2))
                        else None
                    | EmptyString => None
                    end
                end
              else None
          | _ => None
          end
        else Some None
    end in
  match bounds with
  | None => None
  | Some None => Some (a, s)
  | Some (Some (lo, hi, t)) =>
      match t with
      | String l t1 =>
          if Ascii.eqb l "?" then Some (Rep lo hi false a, t1)
          else Some (Rep lo hi true a, t)
      | EmptyString => Some (Rep lo hi true a, t)
      end
  end.

Definition seq_of (a b : regex) : regex :=
  match b with
  | Empty => a
  | _ => Seq a b
  end.

(** Alternation, concatenation and atoms.  [n] is the number of the next
    capturing group: groups are numbered by their opening parenthesis,
    from 1. *)
Fixpoint p_alt (fuel : nat) (s : string) (n : nat)
  : option (regex * string * nat) :=
  match fuel with
  | O => None
  | S f =>
      match p_seq f s n with
      | Some (a, s1, n1) =>
          match s1 with
          | String c t =>
              if Ascii.eqb c "|" then
                match p_alt f t n1 with
                | Some (b, s2, n2) => Some (Alt a b, s2, n2)
                | None => None
                end
              else Some (a, s1, n1)
          | EmptyString => Some (a, s1, n1)
          end
      | None => None
      end
  end
with p_seq (fuel : nat) (s : string) (n : nat)
  : option (regex * string * nat) :=
  match fuel with
  | O => None
  | S f =>
      match s with
      | EmptyString => Some (Empty, s, n)
      | String c _ =>
          if Ascii.eqb c "|" || Ascii.eqb c ")" then Some (Empty, s, n)
          else
            match p_atom f s n with
            | Some (a, s1, n1) =>
                match p_quant a s1 with
                | Some (q, s2) =>
                    match p_seq f s2 n1 with
                    | Some (b, s3, n3) => Some (seq_of q b, s3, n3)
                    | None => None
                    end
                | None => None
                end
            | None => None
            end
      end
  end
with p_atom (fuel : nat) (s : string) (n : nat)
  : option (regex * string * nat) :=
  match fuel with
  | O => None
  | S f =>
      match s with
      | EmptyString => None
      | String c t =>
          if Ascii.eqb c "(" then
            if Str.startswith "?:" t then
              match p_alt f (Str.drop 2 t) n with
              | Some (a, String d t1, n1) =>
                  if Ascii.eqb d ")" then Some (a, t1, n1) else None
              | _ => None
              end
            else if Str.startswith "?" t then None
            else
              match p_alt f t (S n) with
              | Some (a, String d t1, n1) =>
                  if Ascii.eqb d ")" then Some (Group n a, t1, n1) else None
              | _ => None
              end
          else if Ascii.eqb c "[" then
            if Str.startswith "^" t then None
            else
              match p_set (String.length t) [] t with
              | Some (items, t1) => Some (In items, t1, n)
              | None => None
              end
          else if Ascii.eqb c "\" then
            match t with
            | EmptyString => None
            | String e t1 =>
                match escape e with
                | Some (Literal x) => Some (Lit x, t1, n)
                | Some it => Some (In [it], t1, n)
                | None => None
                end
            end
          else if Str.contains (String c EmptyString) ".^$*+?{|)" then None
          else Some (Lit c, t, n)
      end
  end.

(** The syntax tree of a pattern; [None] stands for a pattern outside the
    syntax above. *)
Definition parse (pattern : string) : option regex :=
  match p_alt (3 * String.length pattern + 3) pattern 1 with
  | Some (r, EmptyString, _) => Some r
  | _ => None
  end.

(** ** Matching *)

Definition category_test (k : category) (a : ascii) : bool :=
  match k with
  | CategoryDigit => Str.isdecimal a
  | CategorySpace => Str.isspace a
  end.

(** Does [a] belong to a set member?  With IGNORECASE ([ic]) the member is
    lower-cased when the pattern is compiled (every character of a range
    is) and the text character is lower-cased before the test. *)
Definition item_test (ic : bool) (it : item) (a : ascii) : bool :=
  match it with
  | Literal c =>
      if ic then Ascii.eqb (Str.lower_char c) (Str.lower_char a)
      else Ascii.eqb c a
  | Range lo hi =>
      if ic then
        existsb
          (fun n => Ascii.eqb (Str.lower_char (ascii_of_nat n)) (Str.lower_char a))
          (seq (Str.code lo) (S (Str.code hi) - Str.code lo))
      else Str.between (Str.code lo) (Str.code hi) (Str.code a)
  | Category k => category_test k a
  end.

(** The marks of a match: the text captured by each group that took part
    in it, most recent first. *)
Definition marks : Type := list (nat * string).

Fixpoint lookup (n : nat) (c : marks) : option string :=
  match c with
  | [] => None
  | (i, w) :: c' => if Nat.eqb i n then Some w else lookup n c'
  end.

(** What remains to be matched after a sub-pattern: it receives the rest
    of the text and the marks, and fails ([None]) to make the sub-pattern
    backtrack. *)
Definition cont : Type := string -> marks -> option (string * marks).

Definition below (count : nat) (hi : option nat) : bool :=
  match hi with
  | Some h => Nat.ltb count h
  | None => true
  end.

(** A repetition of [body], [count] iterations done.  Greedy: one more
    iteration first, then the rest of the pattern; lazy: the rest of the
    pattern first, then one more iteration. *)
Fixpoint rep_loop (body : string -> marks -> cont -> option (string * marks))
    (lo : nat) (hi : option nat) (greedy : bool) (k : cont)
    (fuel count : nat) (s : string) (c : marks) {struct fuel}
  : option (string * marks) :=
  if greedy then
    match
      match fuel with
      | O => None
      | S f =>
          if below count hi
          then body s c (fun s' c' => rep_loop body lo hi greedy k f (S count) s' c')
          else None
      end
    with
    | Some r => Some r
    | None => if Nat.leb lo count then k s c else None
    end
  else
    match (if Nat.leb lo count then k s c else None) with
    | Some r => Some r
    | None =>
        match fuel with
        | O => None
        | S f =>
            if below count hi
            then body s c (fun s' c' => rep_loop body lo hi greedy k f (S count) s' c')
            else None
        end
    end.

(** The backtracking matcher: match [r] at the start of [s], then the
    continuation; alternatives are tried left to right and the first
    complete success is the match. *)
Fixpoint run (ic : bool) (r : regex) (s : string) (c : marks) (k : cont)
    {struct r} : option (string * marks) :=
  match r with
  | Empty => k s c
  | Lit x =>
      match s with
      | String a t => if item_test ic (Literal x) a then k t c else None
      | EmptyString => None
      end
  | In items =>
      match s with
      | String a t =>
          if existsb (fun it => item_test ic it a) items then k t c else None
      | EmptyString => None
      end
  | Seq a b => run ic a s c (fun s' c' => run ic b s' c' k)
  | Alt a b =>
      match run ic a s c k with
      | Some res => Some res
      | None => run ic b s c k
      end
  | Rep lo hi greedy a =>
      rep_loop (run ic a) lo hi greedy k
        (match hi with Some h => h | None => String.length s end) 0 s c
  | Group n a =>
      run ic a s c
        (fun s' c' =>
           k s' ((n, Str.take (String.length s - String.length s') s) :: c'))
  end.

(** A match object: where the match starts and ends in the text, and its
    marks. *)
Record Match : Type := mkMatch {
  m_start : nat;
  m_end : nat;
  m_marks : marks
}.

(** [m.group(n)] for [n >= 1]: [None] when group [n] took no part. *)
Definition group (m : Match) (n : nat) : option string := lookup n (m_marks m).

(** The leftmost match in [s], the text from position [pos] on.  With
    [must_advance] an empty match at [pos] itself is refused (the scanner
    sets it after an empty match). *)
Fixpoint search_from (ic : bool) (r : regex) (must_advance : bool)
    (pos : nat) (s : string) {struct s} : option Match :=
  match
    run ic r s []
      (fun s' c =>
         if must_advance && Nat.eqb (String.length s') (String.length s)
         then None else Some (s', c))
  with
  | Some (s', c) =>
      Some (mkMatch pos (pos + (String.length s - String.length s')) c)
  | None =>
      match s with
      | EmptyString => None
      | String _ t => search_from ic r false (S pos) t
      end
  end.

(** The successive non-overlapping matches, left to right: each search
    resumes where the previous match ended. *)
Fixpoint scan (ic : bool) (r : regex) (fuel : nat) (must_advance : bool)
    (pos : nat) (s : string) {struct fuel} : list Match :=
  match fuel with
  | O => []
  | S f =>
      match search_from ic r must_advance pos s with
      | None => []
      | Some m =>
          m :: scan ic r f (Nat.eqb (m_end m) (m_start m)) (m_end m)
                 (Str.drop (m_end m - pos) s)
      end
  end.

(** ** What a match is

    The matcher above is an algorithm; the relation below says what it
    may return.  [Matches ic r w c c'] holds when [r] can consume exactly
    the text [w], turning the marks [c] into [c']. *)

Fixpoint iter (P : string -> marks -> marks -> Prop) (n : nat) (w : string)
    (c c' : marks) : Prop :=
  match n with
  | O => w = "" /\ c' = c
  | S k => exists w1 w2 cm, w = w1 ++ w2 /\ P w1 c cm /\ iter P k w2 cm c'
  end.

Fixpoint Matches (ic : bool) (r : regex) (w : string) (c c' : marks) : Prop :=
  match r with
  | Empty => w = "" /\ c' = c
  | Lit x =>
      exists a, w = String a "" /\ item_test ic (Literal x) a = true /\ c' = c
  | In items =>
      exists a, w = String a ""
                /\ existsb (fun it => item_test ic it a) items = true /\ c' = c
  | Seq a b =>
      exists w1 w2 cm, w = w1 ++ w2 /\ Matches ic a w1 c cm /\ Matches ic b w2 cm c'
  | Alt a b => Matches ic a w c c' \/ Matches ic b w c c'
  | Rep lo hi _ a =>
      exists n, lo <= n /\ match hi with Some h => n <= h | None => True end
                /\ iter (Matches ic a) n w c c'
  | Group n a => exists cm, Matches ic a w c cm /\ c' = (n, w) :: cm
  end.

(** The groups that take part in every match of [r]. *)
Fixpoint mandatory (r : regex) : list nat :=
  match r with
  | Group n a => n :: mandatory a
  | Seq a b => (mandatory a ++ mandatory b)%list
  | _ => []
  end.

(** The capturing groups of [r], each with its sub-pattern. *)
Fixpoint groups_of (r : regex) : list (nat * regex) :=
  match r with
  | Group n a => (n, a) :: groups_of a
  | Seq a b | Alt a b => (groups_of a ++ groups_of b)%list
  | Rep _ _ _ a => groups_of a
  | _ => []
  end.

(** A lower bound on the length of the text consumed by [r]. *)
Fixpoint min_len (r : regex) : nat :=
  match r with
  | Empty => 0
  | Lit _ | In _ => 1
  | Seq a b => min_len a + min_len b
  | Alt a b => Nat.min (min_len a) (min_len b)
  | Rep lo _ _ a => lo * min_len a
  | Group _ a => min_len a
  end.

(** Every repeated sub-pattern consumes at least one character, so that a
    repetition without upper bound makes at most as many iterations as
    there are characters left. *)
Fixpoint productive (r : regex) : bool :=
  match r with
  | Empty | Lit _ | In _ => true
  | Seq a b | Alt a b => productive a && productive b
  | Rep _ _ _ a => Nat.ltb 0 (min_len a) && productive a
  | Group _ a => productive a
  end.

(** The matches of a scan come in text order and do not overlap: each one
    starts at or after position [p], is not empty, and the next one starts
    at or after its end. *)
Fixpoint in_text_order (p : nat) (ms : list Match) : Prop :=
  match ms with
  | [] => True
  | m :: rest =>
      p <= m_start m /\ m_start m < m_end m /\ in_text_order (m_end m) rest
  end.

(** ** The module interface used by [parser.py] *)

Inductive flag : Type := IGNORECASE | MULTILINE.

Definition flag_eqb (a b : flag) : bool :=
  match a, b with
  | IGNORECASE, IGNORECASE | MULTILINE, MULTILINE => true
  | _, _ => false
  end.

Definition ignorecase (flags : list flag) : bool :=
  existsb (flag_eqb IGNORECASE) flags.

Definition compile (pattern : string) : result regex :=
  match parse pattern with
  | Some r => Ok r
  | None => Raise (ReError pattern)
  end.

(** [re.search(pattern, text, flags)].  MULTILINE changes the anchors
    only, and no pattern here has one. *)
Definition search (pattern text : string) (flags : list flag)
  : result (option Match) :=
  r <- compile pattern ;;
  Ok (search_from (ignorecase flags) r false 0 text).

(** [re.finditer(pattern, text, flags)], as the list of its matches. *)
Definition finditer (pattern text : string) (flags : list flag)
  : result (list Match) :=
  r <- compile pattern ;;
  Ok (scan (ignorecase flags) r (2 * String.length text + 2) false 0 text).

End Re.

(* ================================================================== *)
(** * The dictionaries returned by the parser *)

Module Data.

(** The value of the key ["billing_cycle"].  Both entries are what
    [match.group] returns, which is [None] for a group that took no part
    in the match. *)
Record BillingCycle : Type := mkBillingCycle {
  start_date : option string;
  end_date : option string
}.

(** One element of the list under ["transactions"]. *)
Record Transaction : Type := mkTransaction {
  date : option string;
  description : string;
  amount : string
}.

(** The dictionary built by [parse]. *)
Record ParseResult : Type := mkParseResult {
  issuer : string;
  card_last_four : option string;
  billing_cycle : option BillingCycle;
  payment_due_date : option string;
  total_amount_due : option string;
  transactions : list Transaction
}.

End Data.

(* ================================================================== *)
(** * Control flow *)

(** The outcome of one iteration of a [for] loop whose body may
    [return]. *)
Inductive step (R : Type) : Type :=
| Return (v : R)
| Next.

Arguments Return {R} v.
Arguments Next {R}.

(** [for p in items: body] followed by [after]; a [return] in the body
    leaves the function at once. *)
Fixpoint for_each {P R : Type} (items : list P) (body : P -> result (step R))
    (after : result R) : result R :=
  match items with
  | [] => after
  | p :: rest =>
      s <- body p ;;
      match s with
      | Return v => Ok v
      | Next => for_each rest body after
      end
  end.

(** A method call [o.name(...)] on a value that may be [None]. *)
Definition method {A : Type} (name : string) (o : option string)
    (f : string -> A) : result A :=
  match o with
  | Some s => Ok (f s)
  | None =>
      Raise (AttributeError
               ("'NoneType' object has no attribute '" ++ name ++ "'"))
  end.

(* ================================================================== *)
(** * [class CreditCardParser] *)

Module CreditCardParser.

(** The instance attributes. *)
Record t : Type := mk {
  pdf_path : string;
  text_content : string;
  issuer : option string
}.

Definition SUPPORTED_ISSUERS : list string :=
  ["American Express"; "Chase"; "Citibank"; "HDFC Bank"; "ICICI Bank"].

Definition __init__ (pdf_path : string) : t := mk pdf_path "" None.

Definition message (e : exn) : string :=
  match e with
  | AttributeError m | TypeError m | ReError m | Exception m => m
  end.

Section Methods.

(** The PDF library: for a path, the text [page.extract_text()] of every
    page ([None] for a page without text), or the exception raised while
    the file is opened or read. *)
Variable pdfplumber_open : string -> result (list (option string)).

(** The loop [text += page.extract_text() + "\n"]. *)
Fixpoint join_pages (text : string) (pages : list (option string))
  : result string :=
  match pages with
  | [] => Ok text
  | Some page :: rest => join_pages (text ++ page ++ String "010" "") rest
  | None :: _ =>
      Raise (TypeError "unsupported operand type(s) for +: 'NoneType' and 'str'")
  end.

Definition extract_text (self : t) : result (t * string) :=
  match (pages <- pdfplumber_open (pdf_path self) ;; join_pages "" pages) with
  | Ok text => Ok (mk (pdf_path self) text (issuer self), text)
  | Raise e =>
      Raise (Exception ("Error extracting text from PDF: " ++ message e))
  end.

Definition identify_issuer (self : t) : t * string :=
  let text_lower := Str.lower (text_content self) in
  let issuer :=
    if Str.contains "american express" text_lower
       || Str.contains "amex" text_lower
    then "American Express"
    else if Str.contains "chase" text_lower
            && (Str.contains "credit card" text_lower
                || Str.contains "visa" text_lower
                || Str.contains "mastercard" text_lower)
    then "Chase"
    else if Str.contains "citibank" text_lower
            || Str.contains "citi" text_lower
    then "Citibank"
    else if Str.contains "hdfc" text_lower then "HDFC Bank"
    else if Str.contains "icici" text_lower then "ICICI Bank"
    else "Unknown" in
  (mk (pdf_path self) (text_content self) (Some issuer), issuer).

(** The list [patterns] of each extractor. *)
Definition card_last_four_patterns : list string :=
  [ "(?:card|account)[\s#:]*(?:ending|number)?[\s#:]*[xX*]{4,12}(\d{4})";
    "[xX*]{4,12}[\s-]?(\d{4})";
    "(\d{4})[\s]*(?:card|account)";
    "account[\s]+number[\s:]*[xX*]+(\d{4})" ].

Definition billing_cycle_patterns : list string :=
  [ "(?:billing|statement)[\s]+(?:period|cycle|date)[\s:]*(\d{1,2}[/-]\d{1,2}[/-]\d{2,4})[\s]*(?:to|-|through)[\s]*(\d{1,2}[/-]\d{1,2}[/-]\d{2,4})";
    "statement[\s]+from[\s:]*(\d{1,2}[/-]\d{1,2}[/-]\d{2,4})[\s]*(?:to|-|through)[\s]*(\d{1,2}[/-]\d{1,2}[/-]\d{2,4})";
    "(\d{1,2}[/-]\d{1,2}[/-]\d{2,4})[\s]*(?:to|-|through)[\s]*(\d{1,2}[/-]\d{1,2}[/-]\d{2,4})" ].

Definition payment_due_date_patterns : list string :=
  [ "(?:payment|pay)[\s]+due[\s]+(?:date|by)[\s:]*(\d{1,2}[/-]\d{1,2}[/-]\d{2,4})";
    "due[\s]+date[\s:]*(\d{1,2}[/-]\d{1,2}[/-]\d{2,4})";
    "please[\s]+pay[\s]+by[\s:]*(\d{1,2}[/-]\d{1,2}[/-]\d{2,4})" ].

Definition total_amount_due_patterns : list string :=
  [ "(?:total|new|amount)[\s]+(?:balance|due|amount due)[\s:]*(?:Rs\.?|INR|USD|\$)?[\s]*([0-9,]+\.?\d*)";
    "(?:amount|payment)[\s]+due[\s:]*(?:Rs\.?|INR|USD|\$)?[\s]*([0-9,]+\.?\d*)";
    "(?:minimum|total)[\s]+(?:payment|amount)[\s]+due[\s:]*(?:Rs\.?|INR|USD|\$)?[\s]*([0-9,]+\.?\d*)";
    "new[\s]+balance[\s:]*(?:Rs\.?|INR|USD|\$)?[\s]*([0-9,]+\.?\d*)" ].

(** The pattern of a transaction line: date, description, amount. *)
Definition transaction_pattern : string :=
  "(\d{1,2}[/-]\d{1,2}[/-]\d{2,4})[\s]+([A-Za-z\s\*&\-\.]+?)[\s]+(?:Rs\.?|INR|USD|\$)?[\s]*([0-9,]+\.?\d{2})".

Definition extract_card_last_four (self : t) : result (option string) :=
  let patterns := card_last_four_patterns in
  for_each patterns
    (fun pattern =>
       found <- Re.search pattern (text_content self) [Re.IGNORECASE] ;;
       match found with
       | Some m => Ok (Return (Re.group m 1))
       | None => Ok Next
       end)
    (Ok None).

Definition extract_billing_cycle (self : t)
  : result (option Data.BillingCycle) :=
  let patterns := billing_cycle_patterns in
  for_each patterns
    (fun pattern =>
       found <- Re.search pattern (text_content self) [Re.IGNORECASE] ;;
       match found with
       | Some m =>
           Ok (Return (Some (Data.mkBillingCycle (Re.group m 1) (Re.group m 2))))
       | None => Ok Next
       end)
    (Ok None).

Definition extract_payment_due_date (self : t) : result (option string) :=
  let patterns := payment_due_date_patterns in
  for_each patterns
    (fun pattern =>
       found <- Re.search pattern (text_content self) [Re.IGNORECASE] ;;
       match found with
       | Some m => Ok (Return (Re.group m 1))
       | None => Ok Next
       end)
    (Ok None).

Definition extract_total_amount_due (self : t) : result (option string) :=
  let patterns := total_amount_due_patterns in
  for_each patterns
    (fun pattern =>
       found <- Re.search pattern (text_content self) [Re.IGNORECASE] ;;
       match found with
       | Some m =>
           amount <- method "replace" (Re.group m 1)
                       (fun s => Str.replace s "," "") ;;
           Ok (Return (Some amount))
       | None => Ok Next
       end)
    (Ok None).

(** The loop of [extract_transactions] over the matches: append a record,
    and [break] once the list holds 10. *)
Fixpoint collect (matches : list Re.Match) (transactions : list Data.Transaction)
  : result (list Data.Transaction) :=
  match matches with
  | [] => Ok transactions
  | m :: rest =>
      description <- method "strip" (Re.group m 2) Str.strip ;;
      amount <- method "replace" (Re.group m 3)
                  (fun s => Str.replace s "," "") ;;
      let transaction := Data.mkTransaction (Re.group m 1) description amount in
      let transactions := (transactions ++ [transaction])%list in
      if Nat.leb 10 (List.length transactions) then Ok transactions
      else collect rest transactions
  end.

Definition extract_transactions (self : t) : result (list Data.Transaction) :=
  let transactions := [] in
  let pattern := transaction_pattern in
  matches <- Re.finditer pattern (text_content self) [Re.MULTILINE] ;;
  collect matches transactions.

(** The body of [parse] after [self.extract_text()]. *)
Definition parse_text (self : t) : result (t * Data.ParseResult) :=
  let (self, issuer) := identify_issuer self in
  card_last_four <- extract_card_last_four self ;;
  billing_cycle <- extract_billing_cycle self ;;
  payment_due_date <- extract_payment_due_date self ;;
  total_amount_due <- extract_total_amount_due self ;;
  transactions <- extract_transactions self ;;
  Ok (self,
      Data.mkParseResult issuer card_last_four billing_cycle payment_due_date
        total_amount_due transactions).

Definition parse (self : t) : result (t * Data.ParseResult) :=
  st <- extract_text self ;;
  parse_text (fst st).

End Methods.

End CreditCardParser.

(** [parse_statement(pdf_path)] *)
Definition parse_statement
    (pdfplumber_open : string -> result (list (option string)))
    (pdf_path : string) : result Data.ParseResult :=
  let parser := CreditCardParser.__init__ pdf_path in
  st <- CreditCardParser.parse pdfplumber_open parser ;;
  Ok (snd st).

(* ================================================================== *)
(** * Vocabulary of the properties *)

(** One of the five supported names, or the fallback. *)
Definition known_issuer (name : string) : Prop :=
  In name CreditCardParser.SUPPORTED_ISSUERS \/ name = "Unknown".

(** The conditions of the cascade of [identify_issuer], on the
    lower-cased text. *)
Definition amex_condition (low : string) : Prop :=
  Str.Substring "american express" low \/ Str.Substring "amex" low.

Definition chase_condition (low : string) : Prop :=
  Str.Substring "chase" low
  /\ (Str.Substring "credit card" low \/ Str.Substring "visa" low
      \/ Str.Substring "mastercard" low).

Definition citibank_condition (low : string) : Prop :=
  Str.Substring "citibank" low \/ Str.Substring "citi" low.

Definition hdfc_condition (low : string) : Prop := Str.Substring "hdfc" low.

Definition icici_condition (low : string) : Prop := Str.Substring "icici" low.

(** [p] is the first pattern of the list that matches the text, and [m]
    is its match: the patterns before it do not match; nothing is asked of
    the patterns after it. *)
Definition first_match (patterns : list string) (text p : string)
    (m : Re.Match) : Prop :=
  exists before after,
    patterns = (before ++ p :: after)%list
    /\ (forall q, In q before -> Re.search q text [Re.IGNORECASE] = Ok None)
    /\ Re.search p text [Re.IGNORECASE] = Ok (Some m).

Definition no_match (patterns : list string) (text : string) : Prop :=
  forall q, In q patterns -> Re.search q text [Re.IGNORECASE] = Ok None.

(** The transaction record made from one match of the transaction
    pattern. *)
Definition record_of (m : Re.Match) (t : Data.Transaction) : Prop :=
  exists d w a,
    Re.group m 1 = Some d /\ Re.group m 2 = Some w /\ Re.group m 3 = Some a
    /\ t = Data.mkTransaction (Some d) (Str.strip w) (Str.replace a "," "").

(** Digits, a decimal point, two digits. *)
Definition two_decimal_places (s : string) : Prop :=
  exists ds d1 d2,
    s = ds ++ "." ++ String d1 (String d2 "")
    /\ Str.all Str.isdecimal ds = true
    /\ Str.isdecimal d1 = true /\ Str.isdecimal d2 = true.

(** Digits, possibly a decimal point, two digits. *)
Definition optional_point_two_digits (s : string) : Prop :=
  exists ds p d1 d2,
    s = ds ++ p ++ String d1 (String d2 "")
    /\ Str.all Str.isdecimal ds = true
    /\ (p = "" \/ p = ".")
    /\ Str.isdecimal d1 = true /\ Str.isdecimal d2 = true.

(** The body shared by the loops of the four field extractors: search
    the pattern, and on a match return what [F] makes of it. *)
Definition try_pattern {R : Type} (text : string) (F : Re.Match -> result R)
    (pattern : string) : result (step R) :=
  found <- Re.search pattern text [Re.IGNORECASE] ;;
  match found with
  | Some m => v <- F m ;; Ok (Return v)
  | None => Ok Next
  end.

(** The syntax tree of the transaction pattern, and of its third group
    [[0-9,]+\.?\d{2}]. *)
Definition transaction_regex : Re.regex :=
  Eval vm_compute in
    match Re.parse CreditCardParser.transaction_pattern with
    | Some r => r
    | None => Re.Empty
    end.

Definition amount_regex : Re.regex :=
  Eval vm_compute in
    match Re.parse "[0-9,]+\.?\d{2}" with
    | Some r => r
    | None => Re.Empty
    end.

(** The text of the worked example. *)
Definition example_text : string :=
  "American Express ... Card ending XXXXXXXXXX1234 ... Statement period 01/01/2024 to 31/01/2024 ... Payment due date 15/02/2024 ... Total amount due Rs. 12,345.67 ... 05/01/2024 COFFEE SHOP 450.00".

(** A parser object whose text is [text]. *)
Definition with_text (text : string) : CreditCardParser.t :=
  CreditCardParser.mk "statement.pdf" text None.

(* ================================================================== *)
(** * More of [re]: the whole match and [re.sub] *)

Module ReMore.

(** [m.group(0)]: the part of the text between the start and the end of
    the match. *)
Definition group0 (text : string) (m : Re.Match) : string :=
  Str.take (Re.m_end m - Re.m_start m) (Str.drop (Re.m_start m) text).

(** The text with [repl] in place of each match of the list: what lies
    before the first match, [repl], and so on from the end of the match.
    [s] is the text from position [pos] on. *)
Fixpoint stitch (repl : string) (ms : list Re.Match) (pos : nat) (s : string)
  : string :=
  match ms with
  | [] => s
  | m :: rest =>
      Str.take (Re.m_start m - pos) s ++ repl
      ++ stitch repl rest (Re.m_end m) (Str.drop (Re.m_end m - pos) s)
  end.

(** [re.sub(pattern, repl, text)] for a replacement without backslash,
    which Python takes literally: every match of the scan of [finditer] is
    replaced. *)
Definition sub (pattern repl text : string) : result string :=
  r <- Re.compile pattern ;;
  Ok (stitch repl (Re.scan false r (2 * String.length text + 2) false 0 text)
        0 text).

End ReMore.

(* ================================================================== *)
(** * [utils.py] *)

Module Utils.

(** [s[-n:]] for [n > 0]: the last [n] characters, or all of [s] when it
    is shorter. *)
Definition last (n : nat) (s : string) : string :=
  Str.drop (String.length s - n) s.

(** [mask_card_number]; the argument may be [None]. *)
Definition mask_card_number (card_number : option string) : string :=
  match card_number with
  | None => "****"
  | Some s =>
      if Nat.eqb (String.length s) 0 || Nat.ltb (String.length s) 4
      then "****"
      else "****" ++ last 4 s
  end.

(** The pattern of [sanitize_filename]: a set of the characters that are
    removed, which are the angle brackets, the colon, the double quote
    (written by its code 34), the slash, the backslash (escaped in the
    set), the bar, the question mark and the star. *)
Definition invalid_characters : string :=
  "[<>:" ++ String "034" "/\\|?*]".

Definition sanitize_filename (filename : string) : result string :=
  sanitized <- ReMore.sub invalid_characters "" filename ;;
  let sanitized := Str.replace sanitized " " "_" in
  Ok sanitized.

Definition phone_patterns : list string :=
  [ "\+?\d{1,3}[-.\s]?\(?\d{3}\)?[-.\s]?\d{3}[-.\s]?\d{4}";
    "\d{10}";
    "\d{3}[-.\s]?\d{3}[-.\s]?\d{4}" ].

Definition extract_phone (text : string) : result (option string) :=
  for_each phone_patterns
    (fun pattern =>
       found <- Re.search pattern text [] ;;
       match found with
       | Some m => Ok (Return (Some (ReMore.group0 text m)))
       | None => Ok Next
       end)
    (Ok None).

End Utils.

(* ================================================================== *)
(** * [app.py]: the values shown for a result *)

Module App.

(** How an f-string shows a value that may be [None]. *)
Definition shown (o : option string) : string :=
  match o with
  | Some s => s
  | None => "None"
  end.

(** [x != s] for a value [x] that may be [None]. *)
Definition differs (o : option string) (s : string) : bool :=
  match o with
  | Some x => negb (String.eqb x s)
  | None => true
  end.

(** The value of the metric "Card Last 4 Digits".  The key
    ['card_last_four'] is in every result, so that [result.get] returns
    its value and not the default. *)
Definition card_metric (result : Data.ParseResult) : string :=
  let card_last_four := Data.card_last_four result in
  if differs card_last_four "Not Found"
  then "****" ++ shown card_last_four
  else "Not Found".

(** [cycle_text], the value of the metric "Billing Cycle". *)
Definition cycle_text (result : Data.ParseResult) : string :=
  let billing_cycle := Data.billing_cycle result in
  match billing_cycle with
  | Some cycle =>
      shown (Data.start_date cycle) ++ " to " ++ shown (Data.end_date cycle)
  | None => "Not Found"
  end.

End App.

(* ================================================================== *)
(** * More vocabulary *)

(** The shape of the date group [\d{1,2}[/-]\d{1,2}[/-]\d{2,4}]: one or
    two digits, a slash or dash, one or two digits, a slash or dash, two
    to four digits. *)
Definition date_token (s : string) : Prop :=
  exists d1 m1 y1 : string, exists s1 s2 : ascii,
    s = d1 ++ String s1 (m1 ++ String s2 y1)
    /\ Str.all Str.isdecimal d1 = true
    /\ 1 <= String.length d1 <= 2
    /\ (s1 = "/"%char \/ s1 = "-"%char)
    /\ Str.all Str.isdecimal m1 = true
    /\ 1 <= String.length m1 <= 2
    /\ (s2 = "/"%char \/ s2 = "-"%char)
    /\ Str.all Str.isdecimal y1 = true
    /\ 2 <= String.length y1 <= 4.

(** Digits, possibly a decimal point, digits: the shape of a total
    amount. *)
Definition digits_point_digits (s : string) : Prop :=
  exists ds p fs,
    s = ds ++ p ++ fs
    /\ Str.all Str.isdecimal ds = true
    /\ (p = "" \/ p = ".")
    /\ Str.all Str.isdecimal fs = true.

(** A character of the description of a transaction: the set
    [[A-Za-z\s\*&\-\.]]. *)
Definition description_char (a : ascii) : bool :=
  Str.between 65 90 (Str.code a) || Str.between 97 122 (Str.code a)
  || Str.isspace a
  || Ascii.eqb "*" a || Ascii.eqb "&" a || Ascii.eqb "-" a || Ascii.eqb "." a.

(** The number of decimal digits of a text. *)
Fixpoint count_digits (s : string) : nat :=
  match s with
  | EmptyString => 0
  | String a t => (if Str.isdecimal a then 1 else 0) + count_digits t
  end.

(** The sub-patterns of the captured groups. *)
Definition date_regex : Re.regex :=
  Eval vm_compute in
    match Re.parse "\d{1,2}[/-]\d{1,2}[/-]\d{2,4}" with
    | Some r => r
    | None => Re.Empty
    end.

Definition four_digits_regex : Re.regex :=
  Eval vm_compute in
    match Re.parse "\d{4}" with
    | Some r => r
    | None => Re.Empty
    end.

Definition total_regex : Re.regex :=
  Eval vm_compute in
    match Re.parse "[0-9,]+\.?\d*" with
    | Some r => r
    | None => Re.Empty
    end.

Definition description_regex : Re.regex :=
  Eval vm_compute in
    match Re.parse "[A-Za-z\s\*&\-\.]+?" with
    | Some r => r
    | None => Re.Empty
    end.

(** A lower bound on the number of decimal digits of a text matched by
    [r]: one for each [\d] that must be matched. *)
Fixpoint min_digits (r : Re.regex) : nat :=
  match r with
  | Re.In [Re.Category Re.CategoryDigit] => 1
  | Re.Empty | Re.Lit _ | Re.In _ => 0
  | Re.Seq a b => min_digits a + min_digits b
  | Re.Alt a b => Nat.min (min_digits a) (min_digits b)
  | Re.Rep lo _ _ a => lo * min_digits a
  | Re.Group _ a => min_digits a
  end.

(** The characters that [sanitize_filename] removes. *)
Definition invalid_character (a : ascii) : bool :=
  existsb (Ascii.eqb a) ["<"; ">"; ":"; "034"; "/"; "\"; "|"; "?"; "*"]%char.

(** A file name character by character: the invalid characters dropped,
    each space turned into an underscore. *)
Fixpoint sanitized (s : string) : string :=
  match s with
  | EmptyString => EmptyString
  | String a t =>
      if invalid_character a then sanitized t
      else String (if Ascii.eqb a " " then "_"%char else a) (sanitized t)
  end.

(** The text of a document made of the given pages, as [extract_text]
    builds it. *)
Fixpoint document (pages : list string) : string :=
  match pages with
  | [] => ""
  | page :: rest => page ++ String "010" (document rest)
  end.

(* ================================================================== *)
(** * Strings *)

Lemma append_nil_r (s : string) : s ++ "" = s.
Proof. induction s as [|a s IH]; simpl; [reflexivity | now rewrite IH]. Qed.

Lemma append_assoc (a b c : string) : (a ++ b) ++ c = a ++ (b ++ c).
Proof. induction a as [|x a IH]; simpl; [reflexivity | now rewrite IH]. Qed.

Lemma length_append (a b : string) :
  String.length (a ++ b) = String.length a + String.length b.
Proof. induction a as [|x a IH]; simpl; [reflexivity | now rewrite IH]. Qed.

Lemma take_append (w s : string) : Str.take (String.length w) (w ++ s) = w.
Proof.
  induction w as [|x w IH]; simpl.
  - destruct s; reflexivity.
  - now rewrite IH.
Qed.

Lemma drop_append (w s : string) : Str.drop (String.length w) (w ++ s) = s.
Proof. induction w as [|x w IH]; simpl; [reflexivity | exact IH]. Qed.

Lemma length_drop (n : nat) (s : string) :
  String.length (Str.drop n s) = String.length s - n.
Proof.
  revert s; induction n as [|n IH]; intros s; simpl.
  - lia.
  - destruct s as [|a s]; simpl; [reflexivity | apply IH].
Qed.

Lemma startswith_iff (p s : string) :
  Str.startswith p s = true <-> exists t, s = p ++ t.
Proof.
  revert s; induction p as [|a p IH]; intros s; simpl.
  - split; [intros _; now exists s | reflexivity].
  - destruct s as [|b s].
    + split; [discriminate | intros [t Ht]; discriminate].
    + rewrite andb_true_iff, Ascii.eqb_eq, IH. split.
      * intros [-> [t ->]]. now exists t.
      * intros [t Ht]. injection Ht as -> ->. split; [reflexivity | now exists t].
Qed.

(** The operator [in] decides the substring relation. *)
Lemma contains_iff (needle hay : string) :
  Str.contains needle hay = true <-> Str.Substring needle hay.
Proof.
  unfold Str.Substring. induction hay as [|b hay IH].
  - simpl. rewrite orb_false_r, startswith_iff. split.
    + intros [t Ht]. now exists "", t.
    + intros [pre [post H]]. destruct pre; [now exists post | discriminate].
  - cbn [Str.contains]. rewrite orb_true_iff, IH, startswith_iff. split.
    + intros [[t Ht] | [pre [post H]]].
      * now exists "", t.
      * exists (String b pre), post. simpl. now rewrite H.
    + intros [pre [post H]]. destruct pre as [|x pre].
      * left. now exists post.
      * right. simpl in H. injection H as _ H. now exists pre, post.
Qed.

Lemma contains_false_iff (needle hay : string) :
  Str.contains needle hay = false <-> ~ Str.Substring needle hay.
Proof.
  rewrite <- contains_iff. destruct (Str.contains needle hay); split;
    congruence.
Qed.

Lemma Substring_trans (a b c : string) :
  Str.Substring a b -> Str.Substring b c -> Str.Substring a c.
Proof.
  intros [p1 [q1 ->]] [p2 [q2 ->]].
  exists (p2 ++ p1), (q1 ++ q2). now rewrite !append_assoc.
Qed.

Lemma lower_append (a b : string) :
  Str.lower (a ++ b) = Str.lower a ++ Str.lower b.
Proof. induction a as [|x a IH]; simpl; [reflexivity | now rewrite IH]. Qed.

(** Lower-casing keeps substrings. *)
Lemma Substring_lower (a b : string) :
  Str.Substring a b -> Str.Substring (Str.lower a) (Str.lower b).
Proof.
  intros [p [q ->]]. exists (Str.lower p), (Str.lower q).
  now rewrite !lower_append.
Qed.

(* ================================================================== *)
(** * Issuer identification *)

Ltac to_contains :=
  unfold amex_condition, chase_condition, citibank_condition, hdfc_condition,
    icici_condition;
  rewrite <- ?contains_iff.

Lemma identify_issuer_attributes (self : CreditCardParser.t) :
  let self' := fst (CreditCardParser.identify_issuer self) in
  CreditCardParser.issuer self' = Some (snd (CreditCardParser.identify_issuer self))
  /\ CreditCardParser.text_content self' = CreditCardParser.text_content self
  /\ CreditCardParser.pdf_path self' = CreditCardParser.pdf_path self.
Proof. repeat split. Qed.

Lemma identify_issuer_known (self : CreditCardParser.t) :
  known_issuer (snd (CreditCardParser.identify_issuer self)).
Proof.
  unfold known_issuer, CreditCardParser.identify_issuer,
    CreditCardParser.SUPPORTED_ISSUERS.
  cbn [snd].
  repeat match goal with
         | |- context [if ?b then _ else _] => destruct b
         end; simpl; tauto.
Qed.

(** The cascade of [identify_issuer], condition by condition. *)
Lemma identify_issuer_spec (self : CreditCardParser.t) :
  let low := Str.lower (CreditCardParser.text_content self) in
  let name := snd (CreditCardParser.identify_issuer self) in
  known_issuer name
  /\ (name = "American Express" <-> amex_condition low)
  /\ (name = "Chase" <-> ~ amex_condition low /\ chase_condition low)
  /\ (name = "Citibank" <->
      ~ amex_condition low /\ ~ chase_condition low /\ citibank_condition low)
  /\ (name = "HDFC Bank" <->
      ~ amex_condition low /\ ~ chase_condition low
      /\ ~ citibank_condition low /\ hdfc_condition low)
  /\ (name = "ICICI Bank" <->
      ~ amex_condition low /\ ~ chase_condition low
      /\ ~ citibank_condition low /\ ~ hdfc_condition low
      /\ icici_condition low)
  /\ (name = "Unknown" <->
      ~ amex_condition low /\ ~ chase_condition low
      /\ ~ citibank_condition low /\ ~ hdfc_condition low
      /\ ~ icici_condition low)
  /\ (Str.Substring "chase" low ->
      ~ Str.Substring "credit card" low -> ~ Str.Substring "visa" low ->
      ~ Str.Substring "mastercard" low -> name <> "Chase").
Proof.
  intros low name. split; [apply identify_issuer_known|].
  subst name. unfold CreditCardParser.identify_issuer. cbn [snd].
  fold low. to_contains.
  destruct (Str.contains "american express" low);
    destruct (Str.contains "amex" low);
    cbn [orb andb];
    try (repeat split; intros; try discriminate; intuition congruence).
  destruct (Str.contains "chase" low);
    destruct (Str.contains "credit card" low);
    destruct (Str.contains "visa" low);
    destruct (Str.contains "mastercard" low);
    cbn [orb andb];
    try (repeat split; intros; try discriminate; intuition congruence);
    destruct (Str.contains "citibank" low);
    destruct (Str.contains "citi" low);
    cbn [orb andb];
    try (repeat split; intros; try discriminate; intuition congruence);
    destruct (Str.contains "hdfc" low);
    try (repeat split; intros; try discriminate; intuition congruence);
    destruct (Str.contains "icici" low);
    repeat split; intros; try discriminate; intuition congruence.
Qed.

(** C1. [identify_issuer] returns one of the five supported names or
    "Unknown", by a cascade on the lower-cased text in the order American
    Express, Chase, Citibank, HDFC Bank, ICICI Bank: a name is returned
    exactly when its condition holds and the condition of no earlier name
    does.  The Chase condition needs "chase" together with one of "credit
    card", "visa", "mastercard"; with "chase" and none of the three the
    result is not Chase. *)
Theorem identify_issuer_cascade (self : CreditCardParser.t) :
  let low := Str.lower (CreditCardParser.text_content self) in
  let name := snd (CreditCardParser.identify_issuer self) in
  known_issuer name
  /\ (name = "American Express" <-> amex_condition low)
  /\ (name = "Chase" <-> ~ amex_condition low /\ chase_condition low)
  /\ (name = "Citibank" <->
      ~ amex_condition low /\ ~ chase_condition low /\ citibank_condition low)
  /\ (name = "HDFC Bank" <->
      ~ amex_condition low /\ ~ chase_condition low
      /\ ~ citibank_condition low /\ hdfc_condition low)
  /\ (name = "ICICI Bank" <->
      ~ amex_condition low /\ ~ chase_condition low
      /\ ~ citibank_condition low /\ ~ hdfc_condition low
      /\ icici_condition low)
  /\ (name = "Unknown" <->
      ~ amex_condition low /\ ~ chase_condition low
      /\ ~ citibank_condition low /\ ~ hdfc_condition low
      /\ ~ icici_condition low)
  /\ (Str.Substring "chase" low ->
      ~ Str.Substring "credit card" low -> ~ Str.Substring "visa" low ->
      ~ Str.Substring "mastercard" low -> name <> "Chase").
Proof. exact (identify_issuer_spec self). Qed.

Lemma identify_issuer_cascade_witness :
  snd (CreditCardParser.identify_issuer (with_text "Chase the sun: a travel diary"))
  <> "Chase".
Proof.
  apply (identify_issuer_cascade (with_text "Chase the sun: a travel diary"));
    try (apply contains_false_iff; vm_compute; reflexivity).
  apply contains_iff. vm_compute. reflexivity.
Defined.

Lemma citizen_holds_citi : Str.Substring "citi" "citizen".
Proof. now exists "", "zen". Qed.

Lemma purchase_holds_chase : Str.Substring "chase" "purchase".
Proof. now exists "pur", "". Qed.

(** C10. The keywords are found as plain substrings of the lower-cased
    text, with no word boundary: a text with "citizen" and neither the
    American Express nor the Chase condition is identified as Citibank, and
    a text with "purchase" and "visa" and no American Express keyword as
    Chase; so there are texts naming no issuer that are not "Unknown". *)
Theorem identify_issuer_substring_false_positive :
  (forall self,
      let low := Str.lower (CreditCardParser.text_content self) in
      Str.Substring "citizen" low ->
      ~ amex_condition low -> ~ chase_condition low ->
      snd (CreditCardParser.identify_issuer self) = "Citibank")
  /\ (forall self,
         let low := Str.lower (CreditCardParser.text_content self) in
         Str.Substring "purchase" low -> Str.Substring "visa" low ->
         ~ amex_condition low ->
         snd (CreditCardParser.identify_issuer self) = "Chase")
  /\ snd (CreditCardParser.identify_issuer
            (with_text "Dear citizen, your water bill is ready"))
     = "Citibank"
  /\ snd (CreditCardParser.identify_issuer
            (with_text "Purchase protection covers visa application fees"))
     = "Chase".
Proof.
  split; [|split; [|split; reflexivity]].
  - intros self low Hc Ha Hch.
    apply (identify_issuer_spec self). fold low.
    repeat split; try assumption.
    right. exact (Substring_trans _ _ _ citizen_holds_citi Hc).
  - intros self low Hp Hv Ha.
    apply (identify_issuer_spec self). fold low.
    repeat split; try assumption.
    + exact (Substring_trans _ _ _ purchase_holds_chase Hp).
    + right. left. exact Hv.
Qed.

Lemma identify_issuer_substring_false_positive_witness :
  snd (CreditCardParser.identify_issuer
         (with_text "Senior Citizen discount on your next PURCHASE"))
  = "Citibank"
  /\ snd (CreditCardParser.identify_issuer
            (with_text "Your purchase of a travel VISA was approved"))
     = "Chase".
Proof.
  split.
  - apply (proj1 identify_issuer_substring_false_positive
             (with_text "Senior Citizen discount on your next PURCHASE")).
    + apply contains_iff. vm_compute. reflexivity.
    + to_contains. vm_compute. intros [H | H]; discriminate H.
    + to_contains. vm_compute. intros [_ [H | [H | H]]]; discriminate H.
  - apply (proj1 (proj2 identify_issuer_substring_false_positive)
             (with_text "Your purchase of a travel VISA was approved")).
    + apply contains_iff. vm_compute. reflexivity.
    + apply contains_iff. vm_compute. reflexivity.
    + to_contains. vm_compute. intros [H | H]; discriminate H.
Defined.

(* ================================================================== *)
(** * The matcher returns matches *)

Section RepLoop.

Variable body : string -> Re.marks -> Re.cont -> option (string * Re.marks).
Variable P : string -> Re.marks -> Re.marks -> Prop.

Hypothesis body_sound :
  forall s c k res,
    body s c k = Some res ->
    exists w s' c', s = w ++ s' /\ P w c c' /\ k s' c' = Some res.

Variables (lo : nat) (hi : option nat) (greedy : bool) (k : Re.cont).

Lemma rep_loop_eq (fuel count : nat) (s : string) (c : Re.marks) :
  Re.rep_loop body lo hi greedy k fuel count s c =
  if greedy then
    match
      match fuel with
      | O => None
      | S f =>
          if Re.below count hi
          then body s c
                 (fun s' c' => Re.rep_loop body lo hi greedy k f (S count) s' c')
          else None
      end
    with
    | Some r => Some r
    | None => if Nat.leb lo count then k s c else None
    end
  else
    match (if Nat.leb lo count then k s c else None) with
    | Some r => Some r
    | None =>
        match fuel with
        | O => None
        | S f =>
            if Re.below count hi
            then body s c
                   (fun s' c' => Re.rep_loop body lo hi greedy k f (S count) s' c')
            else None
        end
    end.
Proof. destruct fuel; reflexivity. Qed.

(** Leaving the loop after [count] iterations. *)
Lemma rep_leave (count : nat) (s : string) (c : Re.marks) res :
  match hi with Some h => count <= h | None => True end ->
  (if Nat.leb lo count then k s c else None) = Some res ->
  exists n w s' c',
    s = w ++ s' /\ Re.iter P n w c c' /\ lo <= count + n
    /\ match hi with Some h => count + n <= h | None => True end
    /\ k s' c' = Some res.
Proof.
  intros Hb H. destruct (Nat.leb lo count) eqn:Hlo; [|discriminate].
  apply Nat.leb_le in Hlo.
  exists 0, "", s, c. rewrite Nat.add_0_r. simpl. auto.
Qed.

Lemma rep_loop_sound :
  forall fuel count s c res,
    match hi with Some h => count <= h | None => True end ->
    Re.rep_loop body lo hi greedy k fuel count s c = Some res ->
    exists n w s' c',
      s = w ++ s' /\ Re.iter P n w c c' /\ lo <= count + n
      /\ match hi with Some h => count + n <= h | None => True end
      /\ k s' c' = Some res.
Proof.
  induction fuel as [|f IH]; intros count s c res Hb H;
    rewrite rep_loop_eq in H.
  - destruct greedy.
    + now apply rep_leave.
    + destruct (if Nat.leb lo count then k s c else None) eqn:E;
        [|discriminate].
      injection H as ->. now apply rep_leave.
  - assert (more :
      (if Re.below count hi
       then body s c
              (fun s' c' => Re.rep_loop body lo hi greedy k f (S count) s' c')
       else None) = Some res ->
      exists n w s' c',
        s = w ++ s' /\ Re.iter P n w c c' /\ lo <= count + n
        /\ match hi with Some h => count + n <= h | None => True end
        /\ k s' c' = Some res).
    { intros E. destruct (Re.below count hi) eqn:Hlt; [|discriminate].
      apply body_sound in E. destruct E as [w1 [s1 [c1 [-> [HP E]]]]].
      apply IH in E.
      - destruct E as [n [w2 [s2 [c2 [-> [Hit [Hlo [Hhi Hk]]]]]]]].
        exists (S n), (w1 ++ w2), s2, c2.
        rewrite append_assoc, Nat.add_succ_r.
        repeat split; try assumption.
        simpl. now exists w1, w2, c1.
      - destruct hi as [h|]; [|exact I].
        simpl in Hlt. apply Nat.ltb_lt in Hlt. lia. }
    destruct greedy.
    + destruct (if Re.below count hi then _ else None) eqn:E.
      * injection H as ->. now apply more.
      * now apply rep_leave.
    + destruct (if Nat.leb lo count then k s c else None) eqn:E.
      * injection H as ->. now apply rep_leave.
      * now apply more.
Qed.

End RepLoop.

(** Whatever [run] returns comes from the continuation, called on the
    rest of the text after a part that [r] matches. *)
Lemma run_sound (ic : bool) (r : Re.regex) :
  forall s c k res,
    Re.run ic r s c k = Some res ->
    exists w s' c', s = w ++ s' /\ Re.Matches ic r w c c' /\ k s' c' = Some res.
Proof.
  induction r as [|x|items|a IHa b IHb|a IHa b IHb|lo hi g a IHa|n a IHa];
    intros s c k res H; cbn [Re.run] in H.
  - exists "", s, c. simpl. auto.
  - destruct s as [|y t]; [discriminate|].
    destruct (Re.item_test ic (Re.Literal x) y) eqn:E; [|discriminate].
    exists (String y ""), t, c. simpl. repeat split; try assumption.
    now exists y.
  - destruct s as [|y t]; [discriminate|].
    destruct (existsb _ items) eqn:E; [|discriminate].
    exists (String y ""), t, c. simpl. repeat split; try assumption.
    now exists y.
  - apply IHa in H. destruct H as [w1 [s1 [c1 [-> [Ha H]]]]].
    apply IHb in H. destruct H as [w2 [s2 [c2 [-> [Hb H]]]]].
    exists (w1 ++ w2), s2, c2. rewrite append_assoc.
    repeat split; try assumption. simpl. now exists w1, w2, c1.
  - destruct (Re.run ic a s c k) eqn:E.
    + injection H as ->. apply IHa in E.
      destruct E as [w [s' [c' [-> [Ha H]]]]].
      exists w, s', c'. simpl. auto.
    + apply IHb in H. destruct H as [w [s' [c' [-> [Hb H]]]]].
      exists w, s', c'. simpl. auto.
  - apply (rep_loop_sound _ _ IHa) in H.
    + destruct H as [n [w [s' [c' [-> [Hit [Hlo [Hhi H]]]]]]]].
      exists w, s', c'. repeat split; try assumption.
      simpl. exists n. auto.
    + destruct hi; [lia | exact I].
  - apply IHa in H. destruct H as [w [s' [c' [-> [Ha H]]]]].
    exists w, s', ((n, w) :: c'). repeat split.
    + simpl. now exists c'.
    + rewrite length_append, Nat.add_sub, take_append in H. exact H.
Qed.

(* ================================================================== *)
(** * What a match consumes and marks *)

Lemma iter_closure (P : string -> Re.marks -> Re.marks -> Prop)
    (R : Re.marks -> Re.marks -> Prop) :
  (forall c, R c c) ->
  (forall c1 c2 c3, R c1 c2 -> R c2 c3 -> R c1 c3) ->
  (forall w c c', P w c c' -> R c c') ->
  forall n w c c', Re.iter P n w c c' -> R c c'.
Proof.
  intros Hrefl Htrans HP. induction n as [|n IH]; intros w c c' H; simpl in H.
  - destruct H as [_ ->]. apply Hrefl.
  - destruct H as [w1 [w2 [cm [_ [H1 H2]]]]].
    eapply Htrans; [eapply HP, H1 | eapply IH, H2].
Qed.

Lemma iter_length (P : string -> Re.marks -> Re.marks -> Prop) (len : nat) :
  (forall w c c', P w c c' -> len <= String.length w) ->
  forall n w c c', Re.iter P n w c c' -> n * len <= String.length w.
Proof.
  intros HP. induction n as [|n IH]; intros w c c' H; simpl in H.
  - simpl. lia.
  - destruct H as [w1 [w2 [cm [-> [H1 H2]]]]].
    apply HP in H1. apply IH in H2. rewrite length_append. simpl. lia.
Qed.

(** A match of [r] is at least [min_len r] characters long. *)
Lemma Matches_min_len (ic : bool) (r : Re.regex) :
  forall w c c', Re.Matches ic r w c c' -> Re.min_len r <= String.length w.
Proof.
  induction r as [|x|items|a IHa b IHb|a IHa b IHb|lo hi g a IHa|n a IHa];
    intros w c c' H; simpl in H; simpl.
  - lia.
  - destruct H as [y [-> _]]. simpl. lia.
  - destruct H as [y [-> _]]. simpl. lia.
  - destruct H as [w1 [w2 [cm [-> [H1 H2]]]]].
    apply IHa in H1. apply IHb in H2. rewrite length_append. lia.
  - destruct H as [H | H]; [apply IHa in H | apply IHb in H]; lia.
  - destruct H as [n [Hlo [_ H]]].
    apply (iter_length _ _ IHa) in H.
    assert (lo * Re.min_len a <= n * Re.min_len a)
      by (apply Nat.mul_le_mono_r; exact Hlo).
    lia.
  - destruct H as [cm [H _]]. now apply IHa in H.
Qed.

(** A mark, once set, stays set. *)
Lemma Matches_keeps (ic : bool) (r : Re.regex) (n : nat) :
  forall w c c',
    Re.Matches ic r w c c' -> Re.lookup n c <> None -> Re.lookup n c' <> None.
Proof.
  induction r as [|x|items|a IHa b IHb|a IHa b IHb|lo hi g a IHa|i a IHa];
    intros w c c' H; simpl in H.
  - destruct H as [_ ->]. auto.
  - destruct H as [y [_ [_ ->]]]. auto.
  - destruct H as [y [_ [_ ->]]]. auto.
  - destruct H as [w1 [w2 [cm [_ [H1 H2]]]]]. eauto.
  - destruct H as [H | H]; eauto.
  - destruct H as [k [_ [_ H]]]. revert H.
    apply (iter_closure (Re.Matches ic a)
             (fun c c' => Re.lookup n c <> None -> Re.lookup n c' <> None));
      auto.
  - destruct H as [cm [H ->]]. intros Hc. simpl.
    destruct (Nat.eqb i n); [discriminate | eauto].
Qed.

(** Every mandatory group of [r] is marked by a match of [r]. *)
Lemma Matches_mandatory (ic : bool) (r : Re.regex) (n : nat) :
  forall w c c',
    Re.Matches ic r w c c' -> In n (Re.mandatory r) -> Re.lookup n c' <> None.
Proof.
  induction r as [|x|items|a IHa b IHb|a IHa b IHb|lo hi g a IHa|i a IHa];
    intros w c c' H Hin; simpl in Hin; try contradiction; simpl in H.
  - destruct H as [w1 [w2 [cm [_ [H1 H2]]]]].
    apply in_app_or in Hin. destruct Hin as [Hin | Hin].
    + eapply Matches_keeps; [exact H2 | eapply IHa; eassumption].
    + eapply IHb; eassumption.
  - destruct H as [cm [H ->]]. simpl.
    destruct (Nat.eqb i n) eqn:E; [discriminate|].
    destruct Hin as [-> | Hin]; [now rewrite Nat.eqb_refl in E | eauto].
Qed.

(** The text under a mark was either there before, or is a match of the
    sub-pattern of a group with that number. *)
Lemma Matches_group_content (ic : bool) (r : Re.regex) (n : nat) :
  forall w c c' x,
    Re.Matches ic r w c c' ->
    Re.lookup n c' = Some x ->
    Re.lookup n c = Some x
    \/ exists a, In (n, a) (Re.groups_of r)
                 /\ exists c1 c2, Re.Matches ic a x c1 c2.
Proof.
  induction r as [|y|items|a IHa b IHb|a IHa b IHb|lo hi g a IHa|i a IHa];
    intros w c c' x H Hx; simpl in H.
  - destruct H as [_ ->]. auto.
  - destruct H as [z [_ [_ ->]]]. auto.
  - destruct H as [z [_ [_ ->]]]. auto.
  - destruct H as [w1 [w2 [cm [_ [H1 H2]]]]].
    destruct (IHb _ _ _ _ H2 Hx) as [Hm | [t [Hin Ht]]].
    + destruct (IHa _ _ _ _ H1 Hm) as [Hc | [t [Hin Ht]]]; [auto|].
      right. exists t. split; [|exact Ht]. simpl. apply in_or_app. auto.
    + right. exists t. split; [|exact Ht]. simpl. apply in_or_app. auto.
  - destruct H as [H | H].
    + destruct (IHa _ _ _ _ H Hx) as [Hc | [t [Hin Ht]]]; [auto|].
      right. exists t. split; [|exact Ht]. simpl. apply in_or_app. auto.
    + destruct (IHb _ _ _ _ H Hx) as [Hc | [t [Hin Ht]]]; [auto|].
      right. exists t. split; [|exact Ht]. simpl. apply in_or_app. auto.
  - destruct H as [k [_ [_ H]]]. revert x Hx. revert H. simpl.
    apply (iter_closure (Re.Matches ic a)
             (fun c c' =>
                forall x, Re.lookup n c' = Some x ->
                          Re.lookup n c = Some x
                          \/ exists t, In (n, t) (Re.groups_of a)
                                       /\ exists c1 c2, Re.Matches ic t x c1 c2)).
    + auto.
    + intros c1 c2 c3 H12 H23 x Hx.
      destruct (H23 x Hx) as [H2 | Hfound]; auto.
    + intros w0 c0 c0' H0 x Hx. eapply IHa; eassumption.
  - destruct H as [cm [H ->]]. simpl in Hx.
    destruct (Nat.eqb i n) eqn:E.
    + injection Hx as <-. apply Nat.eqb_eq in E. subst i.
      right. exists a. split; [simpl; auto | eauto].
    + destruct (IHa _ _ _ _ H Hx) as [Hc | [t [Hin Ht]]]; [auto|].
      right. exists t. split; [simpl; auto | exact Ht].
Qed.

(* ================================================================== *)
(** * The fuel of a repetition is enough *)

Section RepFuel.

Variable body : string -> Re.marks -> Re.cont -> option (string * Re.marks).
Variable ma : nat.

(** The body calls its continuation only after consuming [ma] characters
    or more. *)
Hypothesis body_ext :
  forall s c k1 k2,
    (forall s' c', String.length s' + ma <= String.length s ->
                   k1 s' c' = k2 s' c') ->
    body s c k1 = body s c k2.

Variables (lo : nat) (hi : option nat) (greedy : bool).

(** The loop calls the continuation of the repetition only after the
    iterations still due. *)
Lemma rep_loop_ext :
  forall fuel count s c k1 k2,
    (forall s' c',
        String.length s' + (lo - count) * ma <= String.length s ->
        k1 s' c' = k2 s' c') ->
    Re.rep_loop body lo hi greedy k1 fuel count s c
    = Re.rep_loop body lo hi greedy k2 fuel count s c.
Proof.
  induction fuel as [|f IH]; intros count s c k1 k2 Hk;
    rewrite !rep_loop_eq.
  - destruct (Nat.leb lo count) eqn:E; [|reflexivity].
    apply Nat.leb_le in E. rewrite (Hk s c); [reflexivity|].
    replace (lo - count) with 0 by lia. simpl. lia.
  - assert (Hmore :
      body s c (fun s' c' => Re.rep_loop body lo hi greedy k1 f (S count) s' c')
      = body s c (fun s' c' => Re.rep_loop body lo hi greedy k2 f (S count) s' c')).
    { apply body_ext. intros s' c' Hs'. apply IH. intros s'' c'' Hs''.
      apply Hk. destruct (Nat.le_gt_cases lo count) as [Hle | Hgt].
      - replace (lo - count) with 0 by lia.
        replace (lo - S count) with 0 in Hs'' by lia. simpl in *. lia.
      - replace (lo - count) with (S (lo - S count)) by lia. simpl. lia. }
    rewrite Hmore.
    destruct (Nat.leb lo count) eqn:E; [|reflexivity].
    apply Nat.leb_le in E. rewrite (Hk s c); [reflexivity|].
    replace (lo - count) with 0 by lia. simpl. lia.
Qed.

(** With an upper bound [h], fuel for the iterations up to [h] is
    enough. *)
Lemma rep_loop_fuel_bounded (h : nat) (k : Re.cont) :
  hi = Some h ->
  forall f1 f2 count s c,
    h <= count + f1 -> h <= count + f2 ->
    Re.rep_loop body lo hi greedy k f1 count s c
    = Re.rep_loop body lo hi greedy k f2 count s c.
Proof.
  intros Hhi. induction f1 as [|f1 IH]; intros f2 count s c H1 H2;
    rewrite !rep_loop_eq; subst hi.
  - assert (Hb : Re.below count (Some h) = false)
      by (apply Nat.ltb_ge; lia).
    rewrite Hb. destruct f2; reflexivity.
  - destruct f2 as [|f2].
    + assert (Hb : Re.below count (Some h) = false)
        by (apply Nat.ltb_ge; lia).
      rewrite Hb. reflexivity.
    + assert (Hmore :
        body s c (fun s' c' =>
                    Re.rep_loop body lo (Some h) greedy k f1 (S count) s' c')
        = body s c (fun s' c' =>
                      Re.rep_loop body lo (Some h) greedy k f2 (S count) s' c')).
      { apply body_ext. intros s' c' _. apply IH; lia. }
      rewrite Hmore. reflexivity.
Qed.

(** Without an upper bound, and with a body that consumes at least one
    character, fuel for one iteration per character left is enough. *)
Lemma rep_loop_fuel_unbounded (k : Re.cont) :
  0 < ma ->
  (forall s c k, String.length s < ma -> body s c k = None) ->
  forall f1 f2 count s c,
    String.length s <= f1 -> String.length s <= f2 ->
    Re.rep_loop body lo hi greedy k f1 count s c
    = Re.rep_loop body lo hi greedy k f2 count s c.
Proof.
  intros Hpos Hshort.
  induction f1 as [|f1 IH]; intros f2 count s c H1 H2; rewrite !rep_loop_eq.
  - destruct f2 as [|f2]; [reflexivity|].
    rewrite (Hshort s c) by lia. destruct (Re.below count hi); reflexivity.
  - destruct f2 as [|f2].
    + rewrite (Hshort s c) by lia. destruct (Re.below count hi); reflexivity.
    + assert (Hmore :
        body s c (fun s' c' =>
                    Re.rep_loop body lo hi greedy k f1 (S count) s' c')
        = body s c (fun s' c' =>
                      Re.rep_loop body lo hi greedy k f2 (S count) s' c')).
      { apply body_ext. intros s' c' Hs'. apply IH; lia. }
      rewrite Hmore. reflexivity.
Qed.

End RepFuel.

(** [run] calls its continuation only after consuming [min_len r]
    characters or more. *)
Lemma run_ext (ic : bool) (r : Re.regex) :
  forall s c k1 k2,
    (forall s' c', String.length s' + Re.min_len r <= String.length s ->
                   k1 s' c' = k2 s' c') ->
    Re.run ic r s c k1 = Re.run ic r s c k2.
Proof.
  induction r as [|x|items|a IHa b IHb|a IHa b IHb|lo hi g a IHa|n a IHa];
    intros s c k1 k2 Hk; cbn [Re.run Re.min_len] in *.
  - apply Hk. lia.
  - destruct s as [|y t]; [reflexivity|].
    destruct (Re.item_test ic (Re.Literal x) y); [|reflexivity].
    apply Hk. simpl. lia.
  - destruct s as [|y t]; [reflexivity|].
    destruct (existsb _ items); [|reflexivity].
    apply Hk. simpl. lia.
  - apply IHa. intros s' c' Hs'. apply IHb. intros s'' c'' Hs''.
    apply Hk. lia.
  - rewrite (IHa s c k1 k2), (IHb s c k1 k2); [reflexivity| |];
      intros s' c' Hs'; apply Hk; lia.
  - apply (rep_loop_ext _ (Re.min_len a) IHa). intros s' c' Hs'.
    apply Hk. now rewrite Nat.sub_0_r in Hs'.
  - apply IHa. intros s' c' Hs'. apply Hk. exact Hs'.
Qed.

Lemma run_short (ic : bool) (r : Re.regex) (s : string) (c : Re.marks)
    (k : Re.cont) :
  String.length s < Re.min_len r -> Re.run ic r s c k = None.
Proof.
  intros H. destruct (Re.run ic r s c k) as [res|] eqn:E; [|reflexivity].
  apply run_sound in E. destruct E as [w [s' [c' [-> [Hm _]]]]].
  apply Matches_min_len in Hm. rewrite length_append in H. lia.
Qed.

(** The fuel that [run] gives to a repetition is enough: with any amount
    more, the repetition returns the same. *)
Lemma run_rep_fuel (ic : bool) (lo : nat) (hi : option nat) (g : bool)
    (a : Re.regex) :
  Re.productive (Re.Rep lo hi g a) = true ->
  forall s c k extra,
    Re.rep_loop (Re.run ic a) lo hi g k
      (match hi with Some h => h | None => String.length s end + extra) 0 s c
    = Re.run ic (Re.Rep lo hi g a) s c k.
Proof.
  intros Hp s c k extra. cbn [Re.run]. cbn [Re.productive] in Hp.
  apply andb_true_iff in Hp. destruct Hp as [Hpos _].
  apply Nat.ltb_lt in Hpos.
  destruct hi as [h|].
  - apply (rep_loop_fuel_bounded _ (Re.min_len a) (run_ext ic a) _ _ _ h);
      [reflexivity | lia | lia].
  - apply (rep_loop_fuel_unbounded _ (Re.min_len a) (run_ext ic a));
      [exact Hpos | | lia | lia].
    intros s0 c0 k0. apply run_short.
Qed.

(* ================================================================== *)
(** * Searching and scanning *)

Lemma search_from_eq (ic : bool) (r : Re.regex) (ma : bool) (pos : nat)
    (s : string) :
  Re.search_from ic r ma pos s =
  match
    Re.run ic r s []
      (fun s' c =>
         if ma && Nat.eqb (String.length s') (String.length s)
         then None else Some (s', c))
  with
  | Some (s', c) =>
      Some (Re.mkMatch pos (pos + (String.length s - String.length s')) c)
  | None =>
      match s with
      | EmptyString => None
      | String _ t => Re.search_from ic r false (S pos) t
      end
  end.
Proof. destruct s; reflexivity. Qed.

(** A successful attempt at the first position. *)
Lemma search_hit (ic : bool) (r : Re.regex) (ma : bool) (pos : nat)
    (s s' : string) (c' : Re.marks) :
  Re.run ic r s []
    (fun s' c =>
       if ma && Nat.eqb (String.length s') (String.length s)
       then None else Some (s', c)) = Some (s', c') ->
  let m := Re.mkMatch pos (pos + (String.length s - String.length s')) c' in
  exists before w after,
    s = before ++ w ++ after
    /\ Re.m_start m = pos + String.length before
    /\ Re.m_end m = Re.m_start m + String.length w
    /\ Re.Matches ic r w [] (Re.m_marks m)
    /\ (ma = true -> pos < Re.m_end m).
Proof.
  intros E m. subst m. apply run_sound in E.
  destruct E as [w [s1 [c1 [-> [Hm Hk]]]]].
  rewrite length_append in *.
  destruct (ma && Nat.eqb (String.length s1)
                    (String.length w + String.length s1))
    eqn:Hadv; [discriminate|].
  injection Hk as <- <-.
  exists "", w, s1. cbn [Re.m_start Re.m_end Re.m_marks append String.length].
  repeat split; try lia; try assumption.
  intros ->. simpl in Hadv. apply Nat.eqb_neq in Hadv. lia.
Qed.

(** A match found by a search from position [pos] of the text [s]: it is
    a part [w] of [s] that the pattern matches from empty marks, and its
    positions are those of [w]. *)
Lemma search_from_sound (ic : bool) (r : Re.regex) :
  forall s ma pos m,
    Re.search_from ic r ma pos s = Some m ->
    exists before w after,
      s = before ++ w ++ after
      /\ Re.m_start m = pos + String.length before
      /\ Re.m_end m = Re.m_start m + String.length w
      /\ Re.Matches ic r w [] (Re.m_marks m)
      /\ (ma = true -> pos < Re.m_end m).
Proof.
  induction s as [|a s IH]; intros ma pos m H; rewrite search_from_eq in H.
  - destruct (Re.run ic r "" [] _) as [[s' c']|] eqn:E; [|discriminate].
    injection H as <-. exact (search_hit _ _ _ _ _ _ _ E).
  - destruct (Re.run ic r (String a s) [] _) as [[s' c']|] eqn:E.
    + injection H as <-. exact (search_hit _ _ _ _ _ _ _ E).
    + apply IH in H. destruct H as [pre [w [post [-> [Hst [He [Hm _]]]]]]].
      exists (String a pre), w, post. simpl.
      repeat split; try lia; assumption.
Qed.

Lemma search_from_bounds (ic : bool) (r : Re.regex) s ma pos m :
  Re.search_from ic r ma pos s = Some m ->
  pos <= Re.m_start m /\ Re.m_start m <= Re.m_end m
  /\ Re.m_end m <= pos + String.length s
  /\ (ma = true -> pos < Re.m_end m)
  /\ Re.m_start m + Re.min_len r <= Re.m_end m.
Proof.
  intros H. apply search_from_sound in H.
  destruct H as [pre [w [post [-> [Hst [He [Hm Hadv]]]]]]].
  apply Matches_min_len in Hm. rewrite !length_append. repeat split; try lia.
  exact Hadv.
Qed.

(** The matches of a scan are in text order, when the pattern matches no
    empty text. *)
Lemma scan_in_text_order (ic : bool) (r : Re.regex) :
  0 < Re.min_len r ->
  forall fuel ma pos s, Re.in_text_order pos (Re.scan ic r fuel ma pos s).
Proof.
  intros Hlen. induction fuel as [|f IH]; intros ma pos s; simpl; [exact I|].
  destruct (Re.search_from ic r ma pos s) as [m|] eqn:E; simpl; [|exact I].
  apply search_from_bounds in E. repeat split; try lia. apply IH.
Qed.

(** Every match of a scan is a match of the pattern from empty marks. *)
Lemma scan_matches (ic : bool) (r : Re.regex) :
  forall fuel ma pos s,
    Forall (fun m => exists w, Re.Matches ic r w [] (Re.m_marks m))
      (Re.scan ic r fuel ma pos s).
Proof.
  induction fuel as [|f IH]; intros ma pos s; simpl; [constructor|].
  destruct (Re.search_from ic r ma pos s) as [m|] eqn:E; [|constructor].
  constructor; [|apply IH].
  apply search_from_sound in E.
  destruct E as [pre [w [post [_ [_ [_ [Hm _]]]]]]]. now exists w.
Qed.

(** The fuel of [finditer] is enough: more fuel gives the same list. *)
Lemma scan_fuel (ic : bool) (r : Re.regex) :
  forall (f1 f2 : nat) (ma : bool) (pos : nat) (s : string),
    2 * String.length s + (if ma then 0 else 1) < f1 ->
    2 * String.length s + (if ma then 0 else 1) < f2 ->
    Re.scan ic r f1 ma pos s = Re.scan ic r f2 ma pos s.
Proof.
  induction f1 as [|f1 IH]; intros f2 ma pos s H1 H2; [lia|].
  destruct f2 as [|f2]; [lia|]. simpl.
  destruct (Re.search_from ic r ma pos s) as [m|] eqn:E; [|reflexivity].
  f_equal. apply search_from_bounds in E.
  destruct E as [Hs [He [Hle [Hadv _]]]].
  assert (Hd := length_drop (Re.m_end m - pos) s).
  destruct (Nat.eqb (Re.m_end m) (Re.m_start m)) eqn:Heq.
  - apply Nat.eqb_eq in Heq. destruct ma.
    + specialize (Hadv eq_refl). apply IH; lia.
    + apply IH; lia.
  - apply Nat.eqb_neq in Heq. apply IH; destruct ma; lia.
Qed.

(* ================================================================== *)
(** * The patterns of [parser.py] *)

Lemma search_eq (p text : string) (flags : list Re.flag) (r : Re.regex) :
  Re.compile p = Ok r ->
  Re.search p text flags
  = Ok (Re.search_from (Re.ignorecase flags) r false 0 text).
Proof. intros H. unfold Re.search. now rewrite H. Qed.

(** A group that is mandatory in the pattern is present in every match
    that a search returns. *)
Lemma search_group (p text : string) (flags : list Re.flag) (r : Re.regex)
    (m : Re.Match) (n : nat) :
  Re.compile p = Ok r ->
  Re.search p text flags = Ok (Some m) ->
  In n (Re.mandatory r) ->
  exists g, Re.group m n = Some g.
Proof.
  intros Hc Hs Hin. rewrite (search_eq _ _ _ _ Hc) in Hs.
  injection Hs as Hs. apply search_from_sound in Hs.
  destruct Hs as [pre [w [post [_ [_ [_ [Hm _]]]]]]].
  apply (Matches_mandatory _ _ n) in Hm; [|exact Hin].
  unfold Re.group. destruct (Re.lookup n (Re.m_marks m)) as [g|];
    [now exists g | contradiction].
Qed.

Ltac pattern_facts :=
  repeat (apply Forall_cons;
          [eexists; split; [vm_compute; reflexivity | simpl; tauto]|]);
  apply Forall_nil.

Lemma card_last_four_patterns_ok :
  Forall (fun p => exists r, Re.compile p = Ok r /\ In 1 (Re.mandatory r))
    CreditCardParser.card_last_four_patterns.
Proof. pattern_facts. Qed.

Lemma billing_cycle_patterns_ok :
  Forall (fun p => exists r, Re.compile p = Ok r
                             /\ In 1 (Re.mandatory r) /\ In 2 (Re.mandatory r))
    CreditCardParser.billing_cycle_patterns.
Proof. pattern_facts. Qed.

Lemma payment_due_date_patterns_ok :
  Forall (fun p => exists r, Re.compile p = Ok r /\ In 1 (Re.mandatory r))
    CreditCardParser.payment_due_date_patterns.
Proof. pattern_facts. Qed.

Lemma total_amount_due_patterns_ok :
  Forall (fun p => exists r, Re.compile p = Ok r /\ In 1 (Re.mandatory r))
    CreditCardParser.total_amount_due_patterns.
Proof. pattern_facts. Qed.

(** The syntax tree of the transaction pattern. *)
Lemma transaction_pattern_tree :
  let digit := Re.In [Re.Category Re.CategoryDigit] in
  let space := Re.In [Re.Category Re.CategorySpace] in
  let sep := Re.In [Re.Literal "/"; Re.Literal "-"] in
  let date :=
    Re.Seq (Re.Rep 1 (Some 2) true digit)
      (Re.Seq sep
         (Re.Seq (Re.Rep 1 (Some 2) true digit)
            (Re.Seq sep (Re.Rep 2 (Some 4) true digit)))) in
  let words :=
    Re.Rep 1 None false
      (Re.In [Re.Range "A" "Z"; Re.Range "a" "z"; Re.Category Re.CategorySpace;
              Re.Literal "*"; Re.Literal "&"; Re.Literal "-"; Re.Literal "."]) in
  let currency :=
    Re.Alt (Re.Seq (Re.Lit "R")
              (Re.Seq (Re.Lit "s") (Re.Rep 0 (Some 1) true (Re.Lit "."))))
      (Re.Alt (Re.Seq (Re.Lit "I") (Re.Seq (Re.Lit "N") (Re.Lit "R")))
         (Re.Alt (Re.Seq (Re.Lit "U") (Re.Seq (Re.Lit "S") (Re.Lit "D")))
            (Re.Lit "$"))) in
  let amount :=
    Re.Seq (Re.Rep 1 None true (Re.In [Re.Range "0" "9"; Re.Literal ","]))
      (Re.Seq (Re.Rep 0 (Some 1) true (Re.Lit "."))
         (Re.Rep 2 (Some 2) true digit)) in
  Re.parse CreditCardParser.transaction_pattern
  = Some
      (Re.Seq (Re.Group 1 date)
         (Re.Seq (Re.Rep 1 None true space)
            (Re.Seq (Re.Group 2 words)
               (Re.Seq (Re.Rep 1 None true space)
                  (Re.Seq (Re.Rep 0 (Some 1) true currency)
                     (Re.Seq (Re.Rep 0 None true space)
                        (Re.Group 3 amount)))))))
  /\ amount_regex = amount.
Proof. split; vm_compute; reflexivity. Qed.

Lemma transaction_pattern_ok :
  Re.compile CreditCardParser.transaction_pattern = Ok transaction_regex
  /\ Re.mandatory transaction_regex = [1; 2; 3]
  /\ Re.min_len transaction_regex = 12
  /\ Re.productive transaction_regex = true
  /\ (forall a, In (3, a) (Re.groups_of transaction_regex) -> a = amount_regex).
Proof.
  repeat split; try (vm_compute; reflexivity).
  intros a H. simpl in H.
  repeat (destruct H as [H | H]; [try discriminate H|]); try contradiction.
  now injection H as <-.
Qed.

(** Every repetition in every pattern consumes a character per iteration,
    which is what the fuel of an unbounded repetition relies on. *)
Lemma patterns_productive :
  Forall (fun p => exists r, Re.compile p = Ok r /\ Re.productive r = true)
    (CreditCardParser.card_last_four_patterns
     ++ CreditCardParser.billing_cycle_patterns
     ++ CreditCardParser.payment_due_date_patterns
     ++ CreditCardParser.total_amount_due_patterns
     ++ [CreditCardParser.transaction_pattern])%list.
Proof.
  repeat (apply Forall_cons;
          [eexists; split; vm_compute; reflexivity|]);
  apply Forall_nil.
Qed.

(* ================================================================== *)
(** * The pattern cascade *)

(** The loop returns at the first iteration that returns: the items after
    it play no part. *)
Lemma for_each_first {P R : Type} (body : P -> result (step R))
    (after : result R) (before later : list P) (p : P) (v : R) :
  (forall q, In q before -> body q = Ok Next) ->
  body p = Ok (Return v) ->
  for_each (before ++ p :: later) body after = Ok v.
Proof.
  intros Hb Hp. induction before as [|q before IH]; simpl.
  - now rewrite Hp.
  - rewrite (Hb q (or_introl eq_refl)). simpl. apply IH.
    intros q' Hq'. apply Hb. now right.
Qed.

Lemma for_each_raise {P R : Type} (body : P -> result (step R))
    (after : result R) (before later : list P) (p : P) (e : exn) :
  (forall q, In q before -> body q = Ok Next) ->
  body p = Raise e ->
  for_each (before ++ p :: later) body after = Raise e.
Proof.
  intros Hb Hp. induction before as [|q before IH]; simpl.
  - now rewrite Hp.
  - rewrite (Hb q (or_introl eq_refl)). simpl. apply IH.
    intros q' Hq'. apply Hb. now right.
Qed.

Lemma for_each_none {P R : Type} (body : P -> result (step R))
    (after : result R) (items : list P) :
  (forall q, In q items -> body q = Ok Next) ->
  for_each items body after = after.
Proof.
  intros Hb. induction items as [|q items IH]; simpl; [reflexivity|].
  rewrite (Hb q (or_introl eq_refl)). simpl. apply IH.
  intros q' Hq'. apply Hb. now right.
Qed.

Section Cascade.

Variable R : Type.
Variable text : string.
Variable F : Re.Match -> result R.
Variable after : result R.

Lemma try_pattern_hit (p : string) (m : Re.Match) :
  Re.search p text [Re.IGNORECASE] = Ok (Some m) ->
  try_pattern text F p = (v <- F m ;; Ok (Return v)).
Proof. intros H. unfold try_pattern. now rewrite H. Qed.

Lemma try_pattern_miss (p : string) :
  Re.search p text [Re.IGNORECASE] = Ok None ->
  try_pattern text F p = Ok Next.
Proof. intros H. unfold try_pattern. now rewrite H. Qed.

(** With a first matching pattern the cascade returns what [F] makes of
    its match. *)
Lemma cascade_first_match (patterns : list string) (p : string)
    (m : Re.Match) :
  first_match patterns text p m ->
  for_each patterns (try_pattern text F) after = F m.
Proof.
  intros [before [later [-> [Hb Hp]]]].
  destruct (F m) as [v|e] eqn:E.
  - apply for_each_first.
    + intros q Hq. apply try_pattern_miss. now apply Hb.
    + rewrite (try_pattern_hit _ _ Hp), E. reflexivity.
  - apply for_each_raise.
    + intros q Hq. apply try_pattern_miss. now apply Hb.
    + rewrite (try_pattern_hit _ _ Hp), E. reflexivity.
Qed.

(** With no matching pattern the cascade falls through. *)
Lemma cascade_no_match (patterns : list string) :
  no_match patterns text ->
  for_each patterns (try_pattern text F) after = after.
Proof.
  intros H. apply for_each_none. intros q Hq. apply try_pattern_miss.
  now apply H.
Qed.

End Cascade.

(** Every text is in one of the two cases. *)
Lemma cascade_cases (patterns : list string) (text : string) :
  Forall (fun p => exists r, Re.compile p = Ok r) patterns ->
  no_match patterns text
  \/ exists p m, first_match patterns text p m.
Proof.
  induction patterns as [|p patterns IH]; intros Hc.
  - left. intros q [].
  - inversion Hc as [|? ? [r Hr] Hc']; subst.
    destruct (Re.search_from true r false 0 text) as [m|] eqn:E.
    + right. exists p, m, [], patterns. repeat split.
      * intros q [].
      * rewrite (search_eq _ _ _ _ Hr). simpl. now rewrite E.
    + destruct (IH Hc') as [Hn | [q [m [before [later [-> [Hb Hq]]]]]]].
      * left. intros q [<- | Hq]; [|now apply Hn].
        rewrite (search_eq _ _ _ _ Hr). simpl. now rewrite E.
      * right. exists q, m, (p :: before), later. repeat split; [|exact Hq].
        intros q' [<- | Hq']; [|now apply Hb].
        rewrite (search_eq _ _ _ _ Hr). simpl. now rewrite E.
Qed.

Lemma first_match_in (patterns : list string) (text p : string) (m : Re.Match) :
  first_match patterns text p m ->
  In p patterns /\ Re.search p text [Re.IGNORECASE] = Ok (Some m).
Proof.
  intros [before [later [-> [_ H]]]]. split; [|exact H].
  apply in_or_app. right. now left.
Qed.

(** The two cases exclude each other, and the first match is unique. *)
Lemma first_match_unique (patterns : list string) (text p q : string)
    (m n : Re.Match) :
  first_match patterns text p m -> first_match patterns text q n ->
  Re.group m = Re.group n.
Proof.
  intros [b1 [l1 [E1 [Hb1 Hp]]]] [b2 [l2 [E2 [Hb2 Hq]]]].
  rewrite E1 in E2. clear E1. revert b2 E2 Hb2.
  induction b1 as [|x b1 IH]; intros [|y b2] E2 Hb2; simpl in E2;
    injection E2 as E2a E2b.
  - rewrite E2a, Hq in Hp. now injection Hp as ->.
  - rewrite E2a, (Hb2 y (or_introl eq_refl)) in Hp. discriminate.
  - rewrite <- E2a, (Hb1 x (or_introl eq_refl)) in Hq. discriminate.
  - apply (IH (fun z Hz => Hb1 z (or_intror Hz)) b2 E2b).
    intros z Hz. apply Hb2. now right.
Qed.

Lemma first_match_group (patterns : list string) (text p : string)
    (m : Re.Match) (n : nat) :
  Forall (fun p => exists r, Re.compile p = Ok r /\ In n (Re.mandatory r))
    patterns ->
  first_match patterns text p m ->
  exists g, Re.group m n = Some g.
Proof.
  intros Hok Hf. apply first_match_in in Hf. destruct Hf as [Hin Hs].
  rewrite Forall_forall in Hok. destruct (Hok p Hin) as [r [Hc Hm]].
  eapply search_group; eassumption.
Qed.

Lemma Forall_compiles (Q : Re.regex -> Prop) (patterns : list string) :
  Forall (fun p => exists r, Re.compile p = Ok r /\ Q r) patterns ->
  Forall (fun p => exists r, Re.compile p = Ok r) patterns.
Proof.
  apply Forall_impl. intros p [r [H _]]. now exists r.
Qed.

(** The four extractors are instances of the cascade. *)
Lemma extract_card_last_four_cascade (self : CreditCardParser.t) :
  CreditCardParser.extract_card_last_four self
  = for_each CreditCardParser.card_last_four_patterns
      (try_pattern (CreditCardParser.text_content self)
         (fun m => Ok (Re.group m 1)))
      (Ok None).
Proof. reflexivity. Qed.

Lemma extract_billing_cycle_cascade (self : CreditCardParser.t) :
  CreditCardParser.extract_billing_cycle self
  = for_each CreditCardParser.billing_cycle_patterns
      (try_pattern (CreditCardParser.text_content self)
         (fun m =>
            Ok (Some (Data.mkBillingCycle (Re.group m 1) (Re.group m 2)))))
      (Ok None).
Proof. reflexivity. Qed.

Lemma extract_payment_due_date_cascade (self : CreditCardParser.t) :
  CreditCardParser.extract_payment_due_date self
  = for_each CreditCardParser.payment_due_date_patterns
      (try_pattern (CreditCardParser.text_content self)
         (fun m => Ok (Re.group m 1)))
      (Ok None).
Proof. reflexivity. Qed.

Lemma for_each_ext {P R : Type} (body1 body2 : P -> result (step R))
    (after : result R) (items : list P) :
  (forall p, body1 p = body2 p) ->
  for_each items body1 after = for_each items body2 after.
Proof.
  intros H. induction items as [|p items IH]; simpl; [reflexivity|].
  rewrite H. destruct (body2 p) as [[v|]|e]; simpl; auto.
Qed.

Lemma extract_total_amount_due_cascade (self : CreditCardParser.t) :
  CreditCardParser.extract_total_amount_due self
  = for_each CreditCardParser.total_amount_due_patterns
      (try_pattern (CreditCardParser.text_content self)
         (fun m =>
            amount <- method "replace" (Re.group m 1)
                        (fun s => Str.replace s "," "") ;;
            Ok (Some amount)))
      (Ok None).
Proof.
  unfold CreditCardParser.extract_total_amount_due. apply for_each_ext.
  intros p. unfold try_pattern.
  destruct (Re.search p _ _) as [[m|]|e]; simpl; try reflexivity.
  destruct (Re.group m 1); reflexivity.
Qed.

(* ================================================================== *)
(** * The field extractors *)

Lemma extract_card_last_four_spec (self : CreditCardParser.t) :
  let text := CreditCardParser.text_content self in
  (no_match CreditCardParser.card_last_four_patterns text
   /\ CreditCardParser.extract_card_last_four self = Ok None)
  \/ (exists p m g,
         first_match CreditCardParser.card_last_four_patterns text p m
         /\ Re.group m 1 = Some g
         /\ CreditCardParser.extract_card_last_four self = Ok (Some g)).
Proof.
  intros text. rewrite extract_card_last_four_cascade. fold text.
  destruct (cascade_cases _ text
              (Forall_compiles _ _ card_last_four_patterns_ok))
    as [Hn | [p [m Hf]]].
  - left. split; [exact Hn | now apply cascade_no_match].
  - right. destruct (first_match_group _ _ _ _ 1 card_last_four_patterns_ok Hf)
      as [g Hg].
    exists p, m, g. repeat split; try assumption.
    rewrite (cascade_first_match _ _ _ _ _ _ _ Hf). now rewrite Hg.
Qed.

Lemma extract_billing_cycle_spec (self : CreditCardParser.t) :
  let text := CreditCardParser.text_content self in
  (no_match CreditCardParser.billing_cycle_patterns text
   /\ CreditCardParser.extract_billing_cycle self = Ok None)
  \/ (exists p m a b,
         first_match CreditCardParser.billing_cycle_patterns text p m
         /\ Re.group m 1 = Some a /\ Re.group m 2 = Some b
         /\ CreditCardParser.extract_billing_cycle self
            = Ok (Some (Data.mkBillingCycle (Some a) (Some b)))).
Proof.
  intros text. rewrite extract_billing_cycle_cascade. fold text.
  destruct (cascade_cases _ text
              (Forall_compiles _ _ billing_cycle_patterns_ok))
    as [Hn | [p [m Hf]]].
  - left. split; [exact Hn | now apply cascade_no_match].
  - right.
    assert (H1 : Forall (fun p => exists r, Re.compile p = Ok r
                                            /\ In 1 (Re.mandatory r))
                   CreditCardParser.billing_cycle_patterns).
    { eapply Forall_impl; [|exact billing_cycle_patterns_ok].
      intros q [r [Hc [Ha _]]]. now exists r. }
    assert (H2 : Forall (fun p => exists r, Re.compile p = Ok r
                                            /\ In 2 (Re.mandatory r))
                   CreditCardParser.billing_cycle_patterns).
    { eapply Forall_impl; [|exact billing_cycle_patterns_ok].
      intros q [r [Hc [_ Hb]]]. now exists r. }
    destruct (first_match_group _ _ _ _ 1 H1 Hf) as [a Ha].
    destruct (first_match_group _ _ _ _ 2 H2 Hf) as [b Hb].
    exists p, m, a, b. repeat split; try assumption.
    rewrite (cascade_first_match _ _ _ _ _ _ _ Hf). now rewrite Ha, Hb.
Qed.

Lemma extract_payment_due_date_spec (self : CreditCardParser.t) :
  let text := CreditCardParser.text_content self in
  (no_match CreditCardParser.payment_due_date_patterns text
   /\ CreditCardParser.extract_payment_due_date self = Ok None)
  \/ (exists p m g,
         first_match CreditCardParser.payment_due_date_patterns text p m
         /\ Re.group m 1 = Some g
         /\ CreditCardParser.extract_payment_due_date self = Ok (Some g)).
Proof.
  intros text. rewrite extract_payment_due_date_cascade. fold text.
  destruct (cascade_cases _ text
              (Forall_compiles _ _ payment_due_date_patterns_ok))
    as [Hn | [p [m Hf]]].
  - left. split; [exact Hn | now apply cascade_no_match].
  - right.
    destruct (first_match_group _ _ _ _ 1 payment_due_date_patterns_ok Hf)
      as [g Hg].
    exists p, m, g. repeat split; try assumption.
    rewrite (cascade_first_match _ _ _ _ _ _ _ Hf). now rewrite Hg.
Qed.

Lemma extract_total_amount_due_spec (self : CreditCardParser.t) :
  let text := CreditCardParser.text_content self in
  (no_match CreditCardParser.total_amount_due_patterns text
   /\ CreditCardParser.extract_total_amount_due self = Ok None)
  \/ (exists p m g,
         first_match CreditCardParser.total_amount_due_patterns text p m
         /\ Re.group m 1 = Some g
         /\ CreditCardParser.extract_total_amount_due self
            = Ok (Some (Str.replace g "," ""))).
Proof.
  intros text. rewrite extract_total_amount_due_cascade. fold text.
  destruct (cascade_cases _ text
              (Forall_compiles _ _ total_amount_due_patterns_ok))
    as [Hn | [p [m Hf]]].
  - left. split; [exact Hn | now apply cascade_no_match].
  - right.
    destruct (first_match_group _ _ _ _ 1 total_amount_due_patterns_ok Hf)
      as [g Hg].
    exists p, m, g. repeat split; try assumption.
    rewrite (cascade_first_match _ _ _ _ _ _ _ Hf). now rewrite Hg.
Qed.

(** A first match and no match exclude each other. *)
Lemma first_match_not_no_match (patterns : list string) (text p : string)
    (m : Re.Match) :
  first_match patterns text p m -> no_match patterns text -> False.
Proof.
  intros Hf Hn. apply first_match_in in Hf. destruct Hf as [Hin Hs].
  rewrite (Hn p Hin) in Hs. discriminate.
Qed.

(** C2. Each field extractor tries its patterns in order, case-insensitively,
    on the text as it is, and returns the capture of the first pattern that
    matches: the card digits, the two dates, the due date, the amount
    without its commas.  The patterns after the first match are not
    consulted (the loop returns whatever they would do); when no pattern
    matches, the extractor returns [None] without raising; and every text
    is in one of the two cases. *)
Theorem extractors_return_first_match (self : CreditCardParser.t) :
  let text := CreditCardParser.text_content self in
  (forall (P R : Type) (body : P -> result (step R)) (after : result R)
          (before later : list P) (p : P) (v : R),
      (forall q, In q before -> body q = Ok Next) ->
      body p = Ok (Return v) ->
      for_each (before ++ p :: later) body after = Ok v)
  /\ ((forall p m,
          first_match CreditCardParser.card_last_four_patterns text p m ->
          exists g, Re.group m 1 = Some g
                    /\ CreditCardParser.extract_card_last_four self = Ok (Some g))
      /\ (no_match CreditCardParser.card_last_four_patterns text ->
          CreditCardParser.extract_card_last_four self = Ok None)
      /\ (no_match CreditCardParser.card_last_four_patterns text
          \/ exists p m,
               first_match CreditCardParser.card_last_four_patterns text p m))
  /\ ((forall p m,
          first_match CreditCardParser.billing_cycle_patterns text p m ->
          exists a b,
            Re.group m 1 = Some a /\ Re.group m 2 = Some b
            /\ CreditCardParser.extract_billing_cycle self
               = Ok (Some (Data.mkBillingCycle (Some a) (Some b))))
      /\ (no_match CreditCardParser.billing_cycle_patterns text ->
          CreditCardParser.extract_billing_cycle self = Ok None)
      /\ (no_match CreditCardParser.billing_cycle_patterns text
          \/ exists p m,
               first_match CreditCardParser.billing_cycle_patterns text p m))
  /\ ((forall p m,
          first_match CreditCardParser.payment_due_date_patterns text p m ->
          exists g, Re.group m 1 = Some g
                    /\ CreditCardParser.extract_payment_due_date self
                       = Ok (Some g))
      /\ (no_match CreditCardParser.payment_due_date_patterns text ->
          CreditCardParser.extract_payment_due_date self = Ok None)
      /\ (no_match CreditCardParser.payment_due_date_patterns text
          \/ exists p m,
               first_match CreditCardParser.payment_due_date_patterns text p m))
  /\ ((forall p m,
          first_match CreditCardParser.total_amount_due_patterns text p m ->
          exists g, Re.group m 1 = Some g
                    /\ CreditCardParser.extract_total_amount_due self
                       = Ok (Some (Str.replace g "," "")))
      /\ (no_match CreditCardParser.total_amount_due_patterns text ->
          CreditCardParser.extract_total_amount_due self = Ok None)
      /\ (no_match CreditCardParser.total_amount_due_patterns text
          \/ exists p m,
               first_match CreditCardParser.total_amount_due_patterns text p m)).
Proof.
  intros text. subst text. split; [intros; now apply for_each_first|].
  split; [|split; [|split]].
  - destruct (extract_card_last_four_spec self)
      as [[Hn E] | [p [m [g [Hf [Hg E]]]]]].
    + repeat split; auto.
      intros p m Hf. destruct (first_match_not_no_match _ _ _ _ Hf Hn).
    + repeat split; eauto.
      * intros q n Hq. exists g.
        rewrite <- (first_match_unique _ _ _ _ _ _ Hf Hq). auto.
      * intros Hn. destruct (first_match_not_no_match _ _ _ _ Hf Hn).
  - destruct (extract_billing_cycle_spec self)
      as [[Hn E] | [p [m [a [b [Hf [Ha [Hb E]]]]]]]].
    + repeat split; auto.
      intros p m Hf. destruct (first_match_not_no_match _ _ _ _ Hf Hn).
    + repeat split; eauto.
      * intros q n Hq. exists a, b.
        rewrite <- (first_match_unique _ _ _ _ _ _ Hf Hq). auto.
      * intros Hn. destruct (first_match_not_no_match _ _ _ _ Hf Hn).
  - destruct (extract_payment_due_date_spec self)
      as [[Hn E] | [p [m [g [Hf [Hg E]]]]]].
    + repeat split; auto.
      intros p m Hf. destruct (first_match_not_no_match _ _ _ _ Hf Hn).
    + repeat split; eauto.
      * intros q n Hq. exists g.
        rewrite <- (first_match_unique _ _ _ _ _ _ Hf Hq). auto.
      * intros Hn. destruct (first_match_not_no_match _ _ _ _ Hf Hn).
  - destruct (extract_total_amount_due_spec self)
      as [[Hn E] | [p [m [g [Hf [Hg E]]]]]].
    + repeat split; auto.
      intros p m Hf. destruct (first_match_not_no_match _ _ _ _ Hf Hn).
    + repeat split; eauto.
      * intros q n Hq. exists g.
        rewrite <- (first_match_unique _ _ _ _ _ _ Hf Hq). auto.
      * intros Hn. destruct (first_match_not_no_match _ _ _ _ Hf Hn).
Qed.

Lemma extractors_return_first_match_witness :
  (exists g,
      Re.group (Re.mkMatch 21 47 [(1, "1234")]) 1 = Some g
      /\ CreditCardParser.extract_card_last_four (with_text example_text)
         = Ok (Some g))
  /\ (exists g,
         Re.group (Re.mkMatch 130 160 [(1, "12,345.67")]) 1 = Some g
         /\ CreditCardParser.extract_total_amount_due (with_text example_text)
            = Ok (Some (Str.replace g "," "")))
  /\ CreditCardParser.extract_payment_due_date
       (with_text "Thank you for banking with us") = Ok None.
Proof.
  split; [|split].
  - apply (proj1 (proj1 (proj2
             (extractors_return_first_match (with_text example_text))))
             "(?:card|account)[\s#:]*(?:ending|number)?[\s#:]*[xX*]{4,12}(\d{4})").
    exists [], (List.tl CreditCardParser.card_last_four_patterns).
    split; [reflexivity|]. split; [intros q []|]. vm_compute. reflexivity.
  - apply (proj1 (proj2 (proj2 (proj2 (proj2
             (extractors_return_first_match (with_text example_text))))))
             "(?:total|new|amount)[\s]+(?:balance|due|amount due)[\s:]*(?:Rs\.?|INR|USD|\$)?[\s]*([0-9,]+\.?\d*)").
    exists [], (List.tl CreditCardParser.total_amount_due_patterns).
    split; [reflexivity|]. split; [intros q []|]. vm_compute. reflexivity.
  - apply (proj1 (proj2 (proj1 (proj2 (proj2 (proj2
             (extractors_return_first_match
                (with_text "Thank you for banking with us")))))))).
    intros q Hq. simpl in Hq.
    repeat (destruct Hq as [<- | Hq]; [vm_compute; reflexivity|]).
    destruct Hq.
Defined.

(** C4. The billing cycle is all or nothing: either no pattern matches and
    the extractor returns [None], or it returns a record whose start and
    end dates are both present, the two groups of one match of one
    pattern.  A text with a start date and no end date gives [None]. *)
Theorem billing_cycle_all_or_nothing (self : CreditCardParser.t) :
  let text := CreditCardParser.text_content self in
  ((no_match CreditCardParser.billing_cycle_patterns text
    /\ CreditCardParser.extract_billing_cycle self = Ok None)
   \/ (exists p m a b,
          first_match CreditCardParser.billing_cycle_patterns text p m
          /\ Re.group m 1 = Some a /\ Re.group m 2 = Some b
          /\ CreditCardParser.extract_billing_cycle self
             = Ok (Some (Data.mkBillingCycle (Some a) (Some b)))))
  /\ CreditCardParser.extract_billing_cycle
       (with_text "Statement period 01/01/2024 to be announced") = Ok None
  /\ CreditCardParser.extract_billing_cycle
       (with_text "Billing cycle: 01/01/2024 - ") = Ok None
  /\ CreditCardParser.extract_billing_cycle
       (with_text "Billing cycle: 01/01/2024 - 31/01/2024")
     = Ok (Some (Data.mkBillingCycle (Some "01/01/2024") (Some "31/01/2024"))).
Proof.
  intros text. split; [exact (extract_billing_cycle_spec self)|].
  repeat split; vm_compute; reflexivity.
Qed.

(* ================================================================== *)
(** * Stripping the commas *)

Lemma replace_comma_cons (a : ascii) (t : string) :
  Str.replace (String a t) "," ""
  = if Ascii.eqb "," a then Str.replace t "," ""
    else String a (Str.replace t "," "").
Proof.
  unfold Str.replace. cbn [Str.replace_from Str.startswith].
  rewrite andb_true_r. destruct (Ascii.eqb "," a); reflexivity.
Qed.

Lemma replace_comma_append (a b : string) :
  Str.replace (a ++ b) "," "" = Str.replace a "," "" ++ Str.replace b "," "".
Proof.
  induction a as [|x a IH]; [reflexivity|].
  cbn [append]. rewrite !replace_comma_cons, IH.
  destruct (Ascii.eqb "," x); reflexivity.
Qed.

(** No comma is left. *)
Lemma replace_comma_none (s : string) :
  Str.contains "," (Str.replace s "," "") = false.
Proof.
  induction s as [|a s IH]; [reflexivity|].
  rewrite replace_comma_cons. destruct (Ascii.eqb "," a) eqn:E; [exact IH|].
  cbn [Str.contains Str.startswith]. now rewrite E, IH.
Qed.

Lemma all_impl (f g : ascii -> bool) (s : string) :
  (forall a, f a = true -> g a = true) ->
  Str.all f s = true -> Str.all g s = true.
Proof.
  intros H. induction s as [|a s IH]; simpl; [reflexivity|].
  rewrite !andb_true_iff. intros [Ha Hs]. auto.
Qed.

Lemma all_append (f : ascii -> bool) (a b : string) :
  Str.all f (a ++ b) = Str.all f a && Str.all f b.
Proof.
  induction a as [|x a IH]; simpl; [reflexivity|].
  now rewrite IH, andb_assoc.
Qed.

(** A text without commas is left as it is. *)
Lemma replace_comma_id (s : string) :
  Str.all (fun a => negb (Ascii.eqb "," a)) s = true ->
  Str.replace s "," "" = s.
Proof.
  induction s as [|a s IH]; [reflexivity|].
  cbn [Str.all]. rewrite andb_true_iff. intros [Ha Hs].
  rewrite replace_comma_cons. apply negb_true_iff in Ha. rewrite Ha.
  now rewrite IH.
Qed.

(** Of digits and commas the digits are left. *)
Lemma replace_comma_digits (s : string) :
  Str.all (fun a => Str.isdecimal a || Ascii.eqb "," a) s = true ->
  Str.all Str.isdecimal (Str.replace s "," "") = true.
Proof.
  induction s as [|a s IH]; [reflexivity|].
  cbn [Str.all]. rewrite andb_true_iff. intros [Ha Hs].
  rewrite replace_comma_cons. destruct (Ascii.eqb "," a) eqn:E; [auto|].
  cbn [Str.all]. rewrite orb_false_r in Ha. now rewrite Ha, IH.
Qed.

Lemma isdecimal_not_comma (a : ascii) :
  Str.isdecimal a = true -> negb (Ascii.eqb "," a) = true.
Proof.
  intros H. destruct (Ascii.eqb "," a) eqn:E; [|reflexivity].
  apply Ascii.eqb_eq in E. subst a. discriminate H.
Qed.

(* ================================================================== *)
(** * The shape of a captured amount *)

(** A repetition of a one-character pattern consumes as many characters
    as it makes iterations, all of them accepted. *)
Lemma iter_chars (f : ascii -> bool) :
  forall n w c c',
    Re.iter (fun w c c' => exists a, w = String a "" /\ f a = true /\ c' = c)
      n w c c' ->
    String.length w = n /\ Str.all f w = true.
Proof.
  induction n as [|n IH]; intros w c c' H; simpl in H.
  - destruct H as [-> _]. split; reflexivity.
  - destruct H as [w1 [w2 [cm [-> [[a [-> [Ha ->]]] H]]]]].
    apply IH in H. destruct H as [Hl Hall].
    simpl. now rewrite Hl, Ha, Hall.
Qed.

(** A text matched by [[0-9,]+\.?\d{2}]: digits and commas, at most one
    point, two digits. *)
Lemma amount_regex_shape (x : string) (c c' : Re.marks) :
  Re.Matches false amount_regex x c c' ->
  exists w p d1 d2,
    x = w ++ p ++ String d1 (String d2 "")
    /\ Str.all (fun a => Str.isdecimal a || Ascii.eqb "," a) w = true
    /\ w <> ""
    /\ (p = "" \/ p = ".")
    /\ Str.isdecimal d1 = true /\ Str.isdecimal d2 = true.
Proof.
  intros H. cbn [amount_regex Re.Matches] in H.
  destruct H as [w [rest [c1 [-> [[n1 [Hn1 [_ H1]]] H]]]]].
  destruct H as [p [ds [c2 [-> [[n2 [_ [Hn2 H2]]] [n3 [Hn3 [Hn3' H3]]]]]]]].
  apply (iter_chars
           (fun a => existsb (fun it => Re.item_test false it a)
                       [Re.Range "0" "9"; Re.Literal ","])) in H1.
  apply (iter_chars (Re.item_test false (Re.Literal "."))) in H2.
  apply (iter_chars
           (fun a => existsb (fun it => Re.item_test false it a)
                       [Re.Category Re.CategoryDigit])) in H3.
  destruct H1 as [L1 A1], H2 as [L2 A2], H3 as [L3 A3].
  destruct ds as [|d1 [|d2 [|? ?]]]; simpl in L3; try lia.
  exists w, p, d1, d2. repeat split.
  - revert A1. apply all_impl. intros a. cbn. now rewrite orb_false_r.
  - intros ->. simpl in L1. lia.
  - destruct p as [|y [|? ?]]; simpl in L2; try lia; [now left|].
    right. cbn [Str.all Re.item_test] in A2. rewrite andb_true_r in A2.
    apply Ascii.eqb_eq in A2. now subst y.
  - cbn [Str.all existsb Re.item_test Re.category_test] in A3.
    rewrite !orb_false_r, !andb_true_iff in A3. tauto.
  - cbn [Str.all existsb Re.item_test Re.category_test] in A3.
    rewrite !orb_false_r, !andb_true_iff in A3. tauto.
Qed.

(** Without its commas such a text is digits, at most one point, two
    digits. *)
Lemma amount_without_commas (x : string) (c c' : Re.marks) :
  Re.Matches false amount_regex x c c' ->
  optional_point_two_digits (Str.replace x "," "").
Proof.
  intros H. apply amount_regex_shape in H.
  destruct H as [w [p [d1 [d2 [-> [Hw [_ [Hp [H1 H2]]]]]]]]].
  exists (Str.replace w "," ""), p, d1, d2.
  rewrite !replace_comma_append. repeat split; try assumption.
  - f_equal. f_equal.
    + destruct Hp as [-> | ->]; reflexivity.
    + apply replace_comma_id. cbn [Str.all].
      now rewrite (isdecimal_not_comma _ H1), (isdecimal_not_comma _ H2).
  - now apply replace_comma_digits.
Qed.

(* ================================================================== *)
(** * The transaction tokenizer *)

Lemma finditer_transactions (text : string) :
  Re.finditer CreditCardParser.transaction_pattern text [Re.MULTILINE]
  = Ok (Re.scan false transaction_regex (2 * String.length text + 2)
          false 0 text).
Proof.
  unfold Re.finditer. now rewrite (proj1 transaction_pattern_ok).
Qed.

(** The three groups of a match of the transaction pattern are present,
    and the third is a match of the amount pattern. *)
Lemma transaction_groups (m : Re.Match) :
  (exists w, Re.Matches false transaction_regex w [] (Re.m_marks m)) ->
  exists d w a,
    Re.group m 1 = Some d /\ Re.group m 2 = Some w /\ Re.group m 3 = Some a
    /\ exists c1 c2, Re.Matches false amount_regex a c1 c2.
Proof.
  intros [x Hm].
  destruct transaction_pattern_ok as [_ [Hman [_ [_ Hamt]]]].
  assert (Hg : forall n, In n [1; 2; 3] -> exists g, Re.group m n = Some g).
  { intros n Hn. rewrite <- Hman in Hn.
    apply (Matches_mandatory _ _ _ _ _ _ Hm) in Hn.
    unfold Re.group. destruct (Re.lookup n (Re.m_marks m)) as [g|];
      [now exists g | contradiction]. }
  destruct (Hg 1) as [d Hd]; [simpl; auto|].
  destruct (Hg 2) as [w Hw]; [simpl; auto|].
  destruct (Hg 3) as [a Ha]; [simpl; auto|].
  exists d, w, a. repeat split; try assumption.
  destruct (Matches_group_content _ _ 3 _ _ _ _ Hm Ha) as [H | [t [Hin Ht]]].
  - discriminate H.
  - now rewrite (Hamt t Hin) in Ht.
Qed.

(** The loop over the matches makes one record per match, in order, and
    stops when the list holds 10. *)
Lemma collect_spec :
  forall (ms : list Re.Match) (acc : list Data.Transaction),
    Forall (fun m => exists w, Re.Matches false transaction_regex w []
                                 (Re.m_marks m)) ms ->
    List.length acc < 10 ->
    exists ts,
      CreditCardParser.collect ms acc = Ok (acc ++ ts)%list
      /\ Forall2 record_of (firstn (10 - List.length acc) ms) ts.
Proof.
  induction ms as [|m ms IH]; intros acc HF Hlen.
  - exists []. rewrite app_nil_r, firstn_nil. split; [reflexivity|constructor].
  - inversion HF as [|? ? Hm HF']; subst.
    destruct (transaction_groups m Hm) as [d [w [a [Hd [Hw [Ha _]]]]]].
    cbn [CreditCardParser.collect]. rewrite Hd, Hw, Ha.
    cbn [method bind].
    set (t := Data.mkTransaction (Some d) (Str.strip w) (Str.replace a "," "")).
    assert (Ht : record_of m t) by (exists d, w, a; auto).
    assert (Hl : List.length (acc ++ [t]) = S (List.length acc))
      by (rewrite length_app; simpl; lia).
    destruct (10 - List.length acc) as [|k] eqn:Hk; [lia|].
    cbn [firstn].
    destruct (Nat.leb 10 (List.length (acc ++ [t]))) eqn:E.
    + apply Nat.leb_le in E. exists [t]. split; [reflexivity|].
      assert (k = 0) by lia. subst k. repeat constructor. exact Ht.
    + apply Nat.leb_gt in E.
      destruct (IH (acc ++ [t])%list HF' E) as [ts [Hc HF2]].
      exists (t :: ts). split.
      * rewrite Hc. now rewrite <- app_assoc.
      * constructor; [exact Ht|].
        replace k with (10 - List.length (acc ++ [t])) by lia. exact HF2.
Qed.

(** What [extract_transactions] returns: the records of the first 10
    matches of the scan. *)
Lemma extract_transactions_spec (self : CreditCardParser.t) :
  let text := CreditCardParser.text_content self in
  let ms := Re.scan false transaction_regex (2 * String.length text + 2)
              false 0 text in
  exists ts,
    CreditCardParser.extract_transactions self = Ok ts
    /\ Forall2 record_of (firstn 10 ms) ts.
Proof.
  intros text ms. unfold CreditCardParser.extract_transactions.
  fold text. rewrite finditer_transactions. cbn [bind]. fold ms.
  destruct (collect_spec ms [] (scan_matches _ _ _ _ _ _)) as [ts [Hc HF]];
    [simpl; lia|].
  exists ts. split; [exact Hc | exact HF].
Qed.

Lemma Forall2_length' {A B : Type} (Q : A -> B -> Prop) (l : list A)
    (l' : list B) :
  Forall2 Q l l' -> List.length l = List.length l'.
Proof. induction 1; simpl; congruence. Qed.

Lemma Forall2_in_right {A B : Type} (Q : A -> B -> Prop) (l : list A)
    (l' : list B) (b : B) :
  Forall2 Q l l' -> In b l' -> exists a, In a l /\ Q a b.
Proof.
  induction 1 as [|x y l l' Hxy HF IH]; intros Hin; [destruct Hin|].
  destruct Hin as [<- | Hin].
  - exists x. split; [now left | exact Hxy].
  - destruct (IH Hin) as [a [Ha Hq]]. exists a. split; [now right | exact Hq].
Qed.

Lemma in_firstn {A : Type} (n : nat) (l : list A) (x : A) :
  In x (firstn n l) -> In x l.
Proof.
  intros H. rewrite <- (firstn_skipn n l). apply in_or_app. now left.
Qed.

(** Every returned record comes from a match of the transaction pattern,
    whose third group is a match of the amount pattern. *)
Lemma extract_transactions_record (self : CreditCardParser.t)
    (ts : list Data.Transaction) (t : Data.Transaction) :
  CreditCardParser.extract_transactions self = Ok ts -> In t ts ->
  exists m a,
    record_of m t /\ Re.group m 3 = Some a
    /\ Data.amount t = Str.replace a "," ""
    /\ exists c1 c2, Re.Matches false amount_regex a c1 c2.
Proof.
  intros He Hin. destruct (extract_transactions_spec self) as [ts' [He' HF]].
  rewrite He in He'. injection He' as <-.
  destruct (Forall2_in_right _ _ _ _ HF Hin) as [m [Hm Hr]].
  apply in_firstn in Hm.
  assert (HM := scan_matches false transaction_regex
                  (2 * String.length (CreditCardParser.text_content self) + 2)
                  false 0 (CreditCardParser.text_content self)).
  rewrite Forall_forall in HM.
  destruct (transaction_groups m (HM m Hm)) as [d [w [a [Hd [Hw [Ha Hamt]]]]]].
  exists m, a. repeat split; try assumption.
  destruct Hr as [d' [w' [a' [_ [_ [Ha' ->]]]]]].
  rewrite Ha in Ha'. now injection Ha' as <-.
Qed.

(** C3. [extract_transactions] returns the records of the first 10 matches
    of the transaction pattern, one record per match and in the order of
    the matches, which is their order in the text (each match starts at or
    after the end of the one before); so it returns at most 10 records,
    and exactly 10 when there are more than 10 matches.  Nothing is
    deduplicated: a line that occurs twice gives two records. *)
Theorem transactions_first_ten_in_text_order (self : CreditCardParser.t) :
  let text := CreditCardParser.text_content self in
  (exists ms ts,
      Re.finditer CreditCardParser.transaction_pattern text [Re.MULTILINE]
      = Ok ms
      /\ (forall extra,
             Re.scan false transaction_regex
               (2 * String.length text + 2 + extra) false 0 text = ms)
      /\ Re.in_text_order 0 ms
      /\ CreditCardParser.extract_transactions self = Ok ts
      /\ Forall2 record_of (firstn 10 ms) ts
      /\ List.length ts = Nat.min 10 (List.length ms)
      /\ List.length ts <= 10)
  /\ CreditCardParser.extract_transactions
       (with_text "01/02/2024 TEA 1.00 01/02/2024 TEA 1.00")
     = Ok [Data.mkTransaction (Some "01/02/2024") "TEA" "1.00";
           Data.mkTransaction (Some "01/02/2024") "TEA" "1.00"]
  /\ CreditCardParser.extract_transactions
       (with_text "11/03/2024 K 11.00 10/03/2024 J 10.00 09/03/2024 I 9.00 08/03/2024 H 8.00 07/03/2024 G 7.00 06/03/2024 F 6.00 05/03/2024 E 5.00 04/03/2024 D 4.00 03/03/2024 C 3.00 02/03/2024 B 2.00 01/03/2024 A 1.00")
     = Ok [Data.mkTransaction (Some "11/03/2024") "K" "11.00";
           Data.mkTransaction (Some "10/03/2024") "J" "10.00";
           Data.mkTransaction (Some "09/03/2024") "I" "9.00";
           Data.mkTransaction (Some "08/03/2024") "H" "8.00";
           Data.mkTransaction (Some "07/03/2024") "G" "7.00";
           Data.mkTransaction (Some "06/03/2024") "F" "6.00";
           Data.mkTransaction (Some "05/03/2024") "E" "5.00";
           Data.mkTransaction (Some "04/03/2024") "D" "4.00";
           Data.mkTransaction (Some "03/03/2024") "C" "3.00";
           Data.mkTransaction (Some "02/03/2024") "B" "2.00"].
Proof.
  intros text. split; [|split; vm_compute; reflexivity].
  destruct (extract_transactions_spec self) as [ts [He HF]]. fold text in HF.
  exists (Re.scan false transaction_regex (2 * String.length text + 2)
            false 0 text), ts.
  split; [apply finditer_transactions|].
  split; [intros extra; apply scan_fuel; simpl; lia|].
  split.
  { apply scan_in_text_order.
    rewrite (proj1 (proj2 (proj2 transaction_pattern_ok))). lia. }
  split; [exact He|]. split; [exact HF|].
  apply Forall2_length' in HF. rewrite <- HF, length_firstn.
  split; [reflexivity | lia].
Qed.

(** C6, as first stated, fails.  The amount pattern makes the decimal
    point optional: the amount "450" of this line is returned as it is, and
    has no point. *)
Lemma amount_without_point_counterexample :
  CreditCardParser.extract_transactions (with_text "05/01/2024 COFFEE SHOP 450")
  = Ok [Data.mkTransaction (Some "05/01/2024") "COFFEE SHOP" "450"]
  /\ ~ two_decimal_places "450"
  /\ ~ (forall self ts t,
           CreditCardParser.extract_transactions self = Ok ts -> In t ts ->
           two_decimal_places (Data.amount t)).
Proof.
  assert (H450 : ~ two_decimal_places "450").
  { intros [ds [d1 [d2 [E _]]]].
    assert (Hs : Str.Substring "." "450")
      by (exists ds, (String d1 (String d2 "")); exact E).
    apply contains_iff in Hs. vm_compute in Hs. discriminate Hs. }
  split; [vm_compute; reflexivity|]. split; [exact H450|].
  intros H. apply H450.
  apply (H (with_text "05/01/2024 COFFEE SHOP 450")
           [Data.mkTransaction (Some "05/01/2024") "COFFEE SHOP" "450"]
           (Data.mkTransaction (Some "05/01/2024") "COFFEE SHOP" "450")).
  - vm_compute. reflexivity.
  - now left.
Qed.

(** C6, amended.  The amount of every returned record is, after the
    commas are stripped: digits (possibly none), then possibly a decimal
    point, then two digits.  The decimal point is optional; when there is
    one, exactly two digits follow it and end the amount. *)
Theorem transaction_amount_shape (self : CreditCardParser.t)
    (ts : list Data.Transaction) (t : Data.Transaction) :
  CreditCardParser.extract_transactions self = Ok ts -> In t ts ->
  optional_point_two_digits (Data.amount t).
Proof.
  intros He Hin.
  destruct (extract_transactions_record self ts t He Hin)
    as [m [a [_ [_ [-> [c1 [c2 Hm]]]]]]].
  exact (amount_without_commas _ _ _ Hm).
Qed.

Lemma transaction_amount_shape_witness :
  optional_point_two_digits "450" /\ optional_point_two_digits "12345.67".
Proof.
  split.
  - apply (transaction_amount_shape
             (with_text "05/01/2024 COFFEE SHOP 450")
             [Data.mkTransaction (Some "05/01/2024") "COFFEE SHOP" "450"]
             (Data.mkTransaction (Some "05/01/2024") "COFFEE SHOP" "450")).
    + vm_compute. reflexivity.
    + simpl. left. reflexivity.
  - apply (transaction_amount_shape
             (with_text "15/02/2024 RENT Rs. 12,345.67")
             [Data.mkTransaction (Some "15/02/2024") "RENT" "12345.67"]
             (Data.mkTransaction (Some "15/02/2024") "RENT" "12345.67")).
    + vm_compute. reflexivity.
    + simpl. left. reflexivity.
Defined.

(** C7. The amounts returned by [extract_total_amount_due] and by
    [extract_transactions] are the captured text with its commas removed:
    "1,234.56" becomes "1234.56", and no returned amount has a comma. *)
Theorem amounts_have_commas_stripped (self : CreditCardParser.t) :
  let text := CreditCardParser.text_content self in
  (forall amount,
      CreditCardParser.extract_total_amount_due self = Ok (Some amount) ->
      Str.contains "," amount = false
      /\ exists p m g,
           first_match CreditCardParser.total_amount_due_patterns text p m
           /\ Re.group m 1 = Some g /\ amount = Str.replace g "," "")
  /\ (forall ts t,
         CreditCardParser.extract_transactions self = Ok ts -> In t ts ->
         Str.contains "," (Data.amount t) = false
         /\ exists m g,
              record_of m t /\ Re.group m 3 = Some g
              /\ Data.amount t = Str.replace g "," "")
  /\ Str.replace "1,234.56" "," "" = "1234.56"
  /\ CreditCardParser.extract_total_amount_due
       (with_text "Total Amount Due: $1,234.56") = Ok (Some "1234.56")
  /\ CreditCardParser.extract_transactions
       (with_text "03/02/2024 GROCERY STORE 1,234.56")
     = Ok [Data.mkTransaction (Some "03/02/2024") "GROCERY STORE" "1234.56"].
Proof.
  intros text. split; [|split; [|repeat split; vm_compute; reflexivity]].
  - intros amount He.
    destruct (extract_total_amount_due_spec self)
      as [[_ E] | [p [m [g [Hf [Hg E]]]]]]; rewrite E in He;
      [discriminate|].
    injection He as <-. split; [apply replace_comma_none|].
    exists p, m, g. auto.
  - intros ts t He Hin.
    destruct (extract_transactions_record self ts t He Hin)
      as [m [a [Hr [Ha [E _]]]]].
    split; [rewrite E; apply replace_comma_none|].
    exists m, a. auto.
Qed.

Lemma amounts_have_commas_stripped_witness :
  Str.contains "," "12345.67" = false /\ Str.contains "," "450.00" = false.
Proof.
  split.
  - apply (proj1 (amounts_have_commas_stripped (with_text example_text))
             "12345.67").
    vm_compute. reflexivity.
  - apply (proj1 (proj2 (amounts_have_commas_stripped (with_text example_text)))
             [Data.mkTransaction (Some "15/02/2024") "... Total amount due"
                "12345.67";
              Data.mkTransaction (Some "05/01/2024") "COFFEE SHOP" "450.00"]
             (Data.mkTransaction (Some "05/01/2024") "COFFEE SHOP" "450.00")).
    + vm_compute. reflexivity.
    + simpl. right. left. reflexivity.
Defined.

(* ================================================================== *)
(** * The whole parse *)

(** The extractors read the text only. *)
Lemma extractors_read_text (self self' : CreditCardParser.t) :
  CreditCardParser.text_content self' = CreditCardParser.text_content self ->
  CreditCardParser.extract_card_last_four self'
  = CreditCardParser.extract_card_last_four self
  /\ CreditCardParser.extract_billing_cycle self'
     = CreditCardParser.extract_billing_cycle self
  /\ CreditCardParser.extract_payment_due_date self'
     = CreditCardParser.extract_payment_due_date self
  /\ CreditCardParser.extract_total_amount_due self'
     = CreditCardParser.extract_total_amount_due self
  /\ CreditCardParser.extract_transactions self'
     = CreditCardParser.extract_transactions self.
Proof.
  intros H.
  unfold CreditCardParser.extract_card_last_four,
    CreditCardParser.extract_billing_cycle,
    CreditCardParser.extract_payment_due_date,
    CreditCardParser.extract_total_amount_due,
    CreditCardParser.extract_transactions.
  rewrite H. repeat split.
Qed.

(** No extractor raises. *)
Lemma extractors_total (self : CreditCardParser.t) :
  exists card cycle due total ts,
    CreditCardParser.extract_card_last_four self = Ok card
    /\ CreditCardParser.extract_billing_cycle self = Ok cycle
    /\ CreditCardParser.extract_payment_due_date self = Ok due
    /\ CreditCardParser.extract_total_amount_due self = Ok total
    /\ CreditCardParser.extract_transactions self = Ok ts.
Proof.
  destruct (extract_card_last_four_spec self)
    as [[_ E1] | [? [? [? [_ [_ E1]]]]]];
    destruct (extract_billing_cycle_spec self)
      as [[_ E2] | [? [? [? [? [_ [_ [_ E2]]]]]]]];
    destruct (extract_payment_due_date_spec self)
      as [[_ E3] | [? [? [? [_ [_ E3]]]]]];
    destruct (extract_total_amount_due_spec self)
      as [[_ E4] | [? [? [? [_ [_ E4]]]]]];
    destruct (extract_transactions_spec self) as [ts [E5 _]];
    rewrite E1, E2, E3, E4, E5; repeat eexists.
Qed.

(** [parse_text] assembles the issuer and the five extractions. *)
Lemma parse_text_spec (self : CreditCardParser.t) :
  exists card cycle due total ts,
    CreditCardParser.extract_card_last_four self = Ok card
    /\ CreditCardParser.extract_billing_cycle self = Ok cycle
    /\ CreditCardParser.extract_payment_due_date self = Ok due
    /\ CreditCardParser.extract_total_amount_due self = Ok total
    /\ CreditCardParser.extract_transactions self = Ok ts
    /\ CreditCardParser.parse_text self
       = Ok (fst (CreditCardParser.identify_issuer self),
             Data.mkParseResult (snd (CreditCardParser.identify_issuer self))
               card cycle due total ts).
Proof.
  destruct (extractors_total self)
    as [card [cycle [due [total [ts [E1 [E2 [E3 [E4 E5]]]]]]]]].
  exists card, cycle, due, total, ts. repeat split; try assumption.
  unfold CreditCardParser.parse_text.
  destruct (identify_issuer_attributes self) as [_ [Ht _]].
  destruct (CreditCardParser.identify_issuer self) as [self' name].
  cbn [fst snd] in *.
  destruct (extractors_read_text self self' Ht) as [-> [-> [-> [-> ->]]]].
  now rewrite E1, E2, E3, E4, E5.
Qed.

(** [parse] raises exactly when the text extraction does. *)
Lemma parse_spec (pdf : string -> result (list (option string)))
    (self : CreditCardParser.t) :
  (exists e, CreditCardParser.extract_text pdf self = Raise e
             /\ CreditCardParser.parse pdf self = Raise e)
  \/ (exists st, CreditCardParser.extract_text pdf self = Ok st
                 /\ CreditCardParser.parse pdf self
                    = CreditCardParser.parse_text (fst st)).
Proof.
  unfold CreditCardParser.parse.
  destruct (CreditCardParser.extract_text pdf self) as [st|e].
  - right. now exists st.
  - left. now exists e.
Qed.

Lemma parse_issuer (pdf : string -> result (list (option string)))
    (self : CreditCardParser.t) (st : CreditCardParser.t * Data.ParseResult) :
  CreditCardParser.parse pdf self = Ok st ->
  known_issuer (Data.issuer (snd st))
  /\ CreditCardParser.issuer (fst st) = Some (Data.issuer (snd st)).
Proof.
  intros H. destruct (parse_spec pdf self) as [[e [_ E]] | [st0 [_ E]]];
    rewrite E in H; [discriminate|].
  destruct (parse_text_spec (fst st0))
    as [card [cycle [due [total [ts [_ [_ [_ [_ [_ E']]]]]]]]]].
  rewrite E' in H. injection H as <-. cbn [fst snd Data.issuer].
  split; [apply identify_issuer_known | apply identify_issuer_attributes].
Qed.

(** C5, as first stated, fails.  On the text of the worked example the
    tokenizer returns two records, not one: "15/02/2024 ... Total amount due Rs. 12,345.67" has the shape
    of a transaction line as well. *)
Lemma example_transactions_counterexample :
  exists st,
    CreditCardParser.parse_text (with_text example_text) = Ok st
    /\ Data.transactions (snd st)
       <> [Data.mkTransaction (Some "05/01/2024") "COFFEE SHOP" "450.00"]
    /\ List.length (Data.transactions (snd st)) = 2.
Proof.
  eexists. split; [vm_compute; reflexivity|].
  split; [discriminate | reflexivity].
Qed.

(** C5, amended.  Parsing the text of the worked example gives issuer
    "American Express", card_last_four "1234", billing cycle 01/01/2024 to
    31/01/2024, payment due date 15/02/2024, total amount due "12345.67",
    and two transactions, in text order: the due date, the words up to the
    total and the total, read as a transaction line (15/02/2024,
    "... Total amount due", "12345.67"), and then (05/01/2024,
    "COFFEE SHOP", "450.00").  The same holds when the text is the only
    page of the PDF. *)
Theorem example_statement_parse :
  CreditCardParser.parse_text (with_text example_text)
  = Ok (CreditCardParser.mk "statement.pdf" example_text
          (Some "American Express"),
        Data.mkParseResult "American Express" (Some "1234")
          (Some (Data.mkBillingCycle (Some "01/01/2024") (Some "31/01/2024")))
          (Some "15/02/2024") (Some "12345.67")
          [Data.mkTransaction (Some "15/02/2024") "... Total amount due"
             "12345.67";
           Data.mkTransaction (Some "05/01/2024") "COFFEE SHOP" "450.00"])
  /\ parse_statement (fun _ => Ok [Some example_text]) "statement.pdf"
     = Ok (Data.mkParseResult "American Express" (Some "1234")
             (Some (Data.mkBillingCycle (Some "01/01/2024") (Some "31/01/2024")))
             (Some "15/02/2024") (Some "12345.67")
             [Data.mkTransaction (Some "15/02/2024") "... Total amount due"
                "12345.67";
              Data.mkTransaction (Some "05/01/2024") "COFFEE SHOP" "450.00"]).
Proof. split; vm_compute; reflexivity. Qed.

(** C8. The pipeline after the text extraction never raises: for every
    text each of the five extractions returns a value, present or absent,
    and [parse_text] returns the dictionary made of them; [parse] raises
    only when the text extraction raises.  On the empty text the issuer is
    "Unknown", the four fields are absent and there is no transaction. *)
Theorem parse_is_fail_soft :
  (forall self,
      exists card cycle due total ts,
        CreditCardParser.extract_card_last_four self = Ok card
        /\ CreditCardParser.extract_billing_cycle self = Ok cycle
        /\ CreditCardParser.extract_payment_due_date self = Ok due
        /\ CreditCardParser.extract_total_amount_due self = Ok total
        /\ CreditCardParser.extract_transactions self = Ok ts
        /\ CreditCardParser.parse_text self
           = Ok (fst (CreditCardParser.identify_issuer self),
                 Data.mkParseResult
                   (snd (CreditCardParser.identify_issuer self))
                   card cycle due total ts))
  /\ (forall pdf self,
         (exists e, CreditCardParser.extract_text pdf self = Raise e
                    /\ CreditCardParser.parse pdf self = Raise e)
         \/ (exists st res, CreditCardParser.extract_text pdf self = Ok st
                            /\ CreditCardParser.parse pdf self = Ok res))
  /\ CreditCardParser.parse_text (with_text "")
     = Ok (CreditCardParser.mk "statement.pdf" "" (Some "Unknown"),
           Data.mkParseResult "Unknown" None None None None [])
  /\ parse_statement (fun _ => Ok []) "statement.pdf"
     = Ok (Data.mkParseResult "Unknown" None None None None []).
Proof.
  split; [exact parse_text_spec|].
  split; [|split; vm_compute; reflexivity].
  intros pdf self. destruct (parse_spec pdf self) as [H | [st [E1 E2]]];
    [left; exact H | right].
  destruct (parse_text_spec (fst st))
    as [card [cycle [due [total [ts [_ [_ [_ [_ [_ E]]]]]]]]]].
  rewrite E in E2. eauto.
Qed.

(** C9. The issuer of every parse result is one of the five supported
    names or "Unknown": [parse_text] always returns a result, whose
    issuer is the name returned by [identify_issuer], also stored in the
    parser object; and so does every result of [parse] and of
    [parse_statement]. *)
Theorem issuer_always_known :
  (forall self,
      exists st,
        CreditCardParser.parse_text self = Ok st
        /\ Data.issuer (snd st) = snd (CreditCardParser.identify_issuer self)
        /\ known_issuer (Data.issuer (snd st))
        /\ CreditCardParser.issuer (fst st) = Some (Data.issuer (snd st)))
  /\ (forall pdf self st,
         CreditCardParser.parse pdf self = Ok st ->
         known_issuer (Data.issuer (snd st)))
  /\ (forall pdf path r,
         parse_statement pdf path = Ok r -> known_issuer (Data.issuer r)).
Proof.
  split; [|split].
  - intros self. destruct (parse_text_spec self)
      as [card [cycle [due [total [ts [_ [_ [_ [_ [_ E]]]]]]]]]].
    eexists. split; [exact E|]. cbn [fst snd Data.issuer].
    split; [reflexivity|].
    split; [apply identify_issuer_known | apply identify_issuer_attributes].
  - intros pdf self st H. exact (proj1 (parse_issuer pdf self st H)).
  - intros pdf path r H. unfold parse_statement in H.
    destruct (CreditCardParser.parse pdf (CreditCardParser.__init__ path))
      as [st|e] eqn:E; [|discriminate].
    cbn [bind] in H. injection H as <-.
    exact (proj1 (parse_issuer _ _ _ E)).
Qed.

Lemma issuer_always_known_witness :
  known_issuer "American Express" /\ known_issuer "Unknown".
Proof.
  split.
  - apply (proj1 (proj2 issuer_always_known)
             (fun _ => Ok [Some example_text])
             (CreditCardParser.__init__ "statement.pdf")
             (CreditCardParser.mk "statement.pdf"
                (example_text ++ String "010" "") (Some "American Express"),
              Data.mkParseResult "American Express" (Some "1234")
                (Some (Data.mkBillingCycle (Some "01/01/2024")
                         (Some "31/01/2024")))
                (Some "15/02/2024") (Some "12345.67")
                [Data.mkTransaction (Some "15/02/2024")
                   "... Total amount due" "12345.67";
                 Data.mkTransaction (Some "05/01/2024") "COFFEE SHOP"
                   "450.00"])).
    vm_compute. reflexivity.
  - apply (proj2 (proj2 issuer_always_known)
             (fun _ => Ok []) "statement.pdf"
             (Data.mkParseResult "Unknown" None None None None [])).
    vm_compute. reflexivity.
Defined.

(* ================================================================== *)
(** * More on the issuer *)

Lemma lower_char_idempotent (a : ascii) :
  Str.lower_char (Str.lower_char a) = Str.lower_char a.
Proof.
  destruct a as [[] [] [] [] [] [] [] []]; reflexivity.
Qed.

Lemma lower_idempotent (s : string) : Str.lower (Str.lower s) = Str.lower s.
Proof.
  induction s as [|a s IH]; simpl; [reflexivity|].
  now rewrite lower_char_idempotent, IH.
Qed.

Lemma Substring_extend (a b before after : string) :
  Str.Substring a b -> Str.Substring a (before ++ b ++ after).
Proof.
  intros H. apply (Substring_trans a b); [exact H|]. now exists before, after.
Qed.

(** X1. The issuer depends on the text through its lower-cased form only:
    two texts that differ in the case of their letters have the same
    issuer, and so have a text and its lower-cased form. *)
Theorem identify_issuer_ignores_case :
  (forall self1 self2,
      Str.lower (CreditCardParser.text_content self1)
      = Str.lower (CreditCardParser.text_content self2) ->
      snd (CreditCardParser.identify_issuer self1)
      = snd (CreditCardParser.identify_issuer self2))
  /\ (forall self,
         snd (CreditCardParser.identify_issuer
                (with_text (Str.lower (CreditCardParser.text_content self))))
         = snd (CreditCardParser.identify_issuer self)).
Proof.
  assert (H : forall self1 self2,
             Str.lower (CreditCardParser.text_content self1)
             = Str.lower (CreditCardParser.text_content self2) ->
             snd (CreditCardParser.identify_issuer self1)
             = snd (CreditCardParser.identify_issuer self2)).
  { intros self1 self2 E. unfold CreditCardParser.identify_issuer.
    cbn [snd]. now rewrite E. }
  split; [exact H|]. intros self. apply H. cbn [with_text
    CreditCardParser.text_content]. apply lower_idempotent.
Qed.

Lemma identify_issuer_ignores_case_witness :
  snd (CreditCardParser.identify_issuer (with_text "HDFC BANK statement"))
  = snd (CreditCardParser.identify_issuer (with_text "hdfc bank STATEMENT")).
Proof.
  apply (proj1 identify_issuer_ignores_case). vm_compute. reflexivity.
Defined.

(** A condition of the cascade that holds on a text holds on every text
    that contains it. *)
Lemma conditions_extend (text before after : string) :
  let low := Str.lower text in
  let big := Str.lower (before ++ text ++ after) in
  (amex_condition low -> amex_condition big)
  /\ (chase_condition low -> chase_condition big)
  /\ (citibank_condition low -> citibank_condition big)
  /\ (hdfc_condition low -> hdfc_condition big)
  /\ (icici_condition low -> icici_condition big).
Proof.
  intros low big. subst low big. rewrite !lower_append.
  unfold amex_condition, chase_condition, citibank_condition, hdfc_condition,
    icici_condition.
  split; [|split; [|split; [|split]]].
  - intros [H | H]; [left | right]; now apply Substring_extend.
  - intros [H1 [H | [H | H]]];
      (split; [now apply Substring_extend|]);
      [left | right; left | right; right]; now apply Substring_extend.
  - intros [H | H]; [left | right]; now apply Substring_extend.
  - intros H. now apply Substring_extend.
  - intros H. now apply Substring_extend.
Qed.

(** The issuer under added text. *)
Lemma issuer_survives_context (self : CreditCardParser.t)
    (before after : string) :
  let whole :=
    with_text (before ++ CreditCardParser.text_content self ++ after) in
  (snd (CreditCardParser.identify_issuer self) = "American Express" ->
   snd (CreditCardParser.identify_issuer whole) = "American Express")
  /\ (snd (CreditCardParser.identify_issuer self) <> "Unknown" ->
      snd (CreditCardParser.identify_issuer whole) <> "Unknown").
Proof.
  intros whole.
  destruct (conditions_extend (CreditCardParser.text_content self) before after)
    as [Ha [Hc [Hi [Hh Hic]]]].
  destruct (identify_issuer_spec self)
    as [Hk [S1 [S2 [S3 [S4 [S5 [S6 _]]]]]]].
  destruct (identify_issuer_spec whole)
    as [_ [B1 [_ [_ [_ [_ [B6 _]]]]]]].
  cbn [with_text CreditCardParser.text_content] in B1, B6.
  split.
  - intros E. apply B1, Ha, S1, E.
  - intros Hne E. apply B6 in E.
    destruct E as [Na [Nc [Ni [Nh Nic]]]].
    destruct Hk as [Hin | Hu]; [|contradiction].
    simpl in Hin.
    destruct Hin as [E | [E | [E | [E | [E | []]]]]]; symmetry in E.
    + apply Na, Ha, S1, E.
    + apply S2 in E. apply Nc, Hc, E.
    + apply S3 in E. apply Ni, Hi, E.
    + apply S4 in E. apply Nh, Hh, E.
    + apply S5 in E. apply Nic, Hic, E.
Qed.

(** X2. Text added before or after (other pages, a header, a footer) never
    turns a recognised issuer into "Unknown", and never changes "American
    Express", the first of the cascade. *)
Theorem identify_issuer_survives_context (self : CreditCardParser.t)
    (before after : string) :
  let whole :=
    with_text (before ++ CreditCardParser.text_content self ++ after) in
  (snd (CreditCardParser.identify_issuer self) = "American Express" ->
   snd (CreditCardParser.identify_issuer whole) = "American Express")
  /\ (snd (CreditCardParser.identify_issuer self) <> "Unknown" ->
      snd (CreditCardParser.identify_issuer whole) <> "Unknown").
Proof. exact (issuer_survives_context self before after). Qed.

Lemma identify_issuer_survives_context_witness :
  snd (CreditCardParser.identify_issuer
         (with_text ("Page 1 of 3 " ++ "Your AMEX card" ++ " visit citibank.com")))
  = "American Express"
  /\ snd (CreditCardParser.identify_issuer
            (with_text ("Dear customer, " ++ "ICICI Bank" ++ " thanks you")))
     <> "Unknown".
Proof.
  split.
  - apply (proj1 (identify_issuer_survives_context (with_text "Your AMEX card")
                    "Page 1 of 3 " " visit citibank.com")).
    vm_compute. reflexivity.
  - apply (proj2 (identify_issuer_survives_context (with_text "ICICI Bank")
                    "Dear customer, " " thanks you")).
    vm_compute. discriminate.
Defined.

(* ================================================================== *)
(** * Text extraction and the whole parse *)

Lemma join_pages_document (text : string) (pages : list string) :
  CreditCardParser.join_pages text (map Some pages)
  = Ok (text ++ document pages).
Proof.
  revert text. induction pages as [|page pages IH]; intros text; simpl.
  - now rewrite append_nil_r.
  - rewrite IH. f_equal. rewrite !append_assoc. reflexivity.
Qed.

Lemma join_pages_none (text : string) (pages : list (option string)) :
  In None pages ->
  CreditCardParser.join_pages text pages
  = Raise (TypeError "unsupported operand type(s) for +: 'NoneType' and 'str'").
Proof.
  revert text. induction pages as [|[page|] pages IH]; intros text Hin; simpl.
  - destruct Hin.
  - destruct Hin as [E | Hin]; [discriminate | now apply IH].
  - reflexivity.
Qed.

Lemma pages_cases (pages : list (option string)) :
  In None pages \/ exists texts, pages = map Some texts.
Proof.
  induction pages as [|[page|] pages IH].
  - right. now exists [].
  - destruct IH as [H | [texts ->]].
    + left. now right.
    + right. now exists (page :: texts).
  - left. now left.
Qed.

(** The three outcomes of [extract_text]. *)
Lemma extract_text_cases
    (pdf : string -> result (list (option string))) (self : CreditCardParser.t) :
  (forall texts,
      pdf (CreditCardParser.pdf_path self) = Ok (map Some texts) ->
      CreditCardParser.extract_text pdf self
      = Ok (CreditCardParser.mk (CreditCardParser.pdf_path self)
              (document texts) (CreditCardParser.issuer self),
            document texts))
  /\ (forall pages,
         pdf (CreditCardParser.pdf_path self) = Ok pages -> In None pages ->
         CreditCardParser.extract_text pdf self
         = Raise (Exception
                    ("Error extracting text from PDF: "
                     ++ "unsupported operand type(s) for +: 'NoneType' and 'str'")))
  /\ (forall e,
         pdf (CreditCardParser.pdf_path self) = Raise e ->
         CreditCardParser.extract_text pdf self
         = Raise (Exception
                    ("Error extracting text from PDF: "
                     ++ CreditCardParser.message e))).
Proof.
  unfold CreditCardParser.extract_text. repeat split.
  - intros texts H. rewrite H. cbn [bind]. now rewrite join_pages_document.
  - intros pages H Hin. rewrite H. cbn [bind].
    now rewrite (join_pages_none _ _ Hin).
  - intros e H. now rewrite H.
Qed.

(** X3. [extract_text] returns the pages, each followed by a newline, and
    stores that text in the object; when the PDF cannot be read, or a page
    has no text, it raises [Exception] with the message of the cause after
    "Error extracting text from PDF: ". *)
Theorem extract_text_pages
    (pdf : string -> result (list (option string))) (self : CreditCardParser.t) :
  (forall texts,
      pdf (CreditCardParser.pdf_path self) = Ok (map Some texts) ->
      CreditCardParser.extract_text pdf self
      = Ok (CreditCardParser.mk (CreditCardParser.pdf_path self)
              (document texts) (CreditCardParser.issuer self),
            document texts))
  /\ (forall pages,
         pdf (CreditCardParser.pdf_path self) = Ok pages -> In None pages ->
         CreditCardParser.extract_text pdf self
         = Raise (Exception
                    ("Error extracting text from PDF: "
                     ++ "unsupported operand type(s) for +: 'NoneType' and 'str'")))
  /\ (forall e,
         pdf (CreditCardParser.pdf_path self) = Raise e ->
         CreditCardParser.extract_text pdf self
         = Raise (Exception
                    ("Error extracting text from PDF: "
                     ++ CreditCardParser.message e))).
Proof. exact (extract_text_cases pdf self). Qed.

Lemma extract_text_pages_witness :
  CreditCardParser.extract_text
    (fun _ => Ok [Some "Page one"; Some "Page two"])
    (CreditCardParser.__init__ "statement.pdf")
  = Ok (CreditCardParser.mk "statement.pdf"
          (document ["Page one"; "Page two"]) None,
        document ["Page one"; "Page two"]).
Proof.
  apply (proj1 (extract_text_pages
                  (fun _ => Ok [Some "Page one"; Some "Page two"])
                  (CreditCardParser.__init__ "statement.pdf"))
           ["Page one"; "Page two"]).
  reflexivity.
Defined.

Lemma parse_statement_text
    (pdf : string -> result (list (option string))) (path : string)
    (texts : list string) :
  pdf path = Ok (map Some texts) ->
  parse_statement pdf path
  = (st <- CreditCardParser.parse_text
             (CreditCardParser.mk path (document texts) None) ;;
     Ok (snd st)).
Proof.
  intros H. unfold parse_statement, CreditCardParser.parse.
  destruct (extract_text_cases pdf (CreditCardParser.__init__ path))
    as [E _].
  cbn [CreditCardParser.__init__ CreditCardParser.pdf_path
         CreditCardParser.issuer] in E.
  rewrite (E texts H). reflexivity.
Qed.

(** X4. [parse_statement] returns a result whenever the PDF opens and every
    page has text, and the result is that of the pipeline on the text of
    the pages; whatever it raises is the [Exception] of [extract_text],
    whose message starts with "Error extracting text from PDF: ". *)
Theorem parse_statement_outcome
    (pdf : string -> result (list (option string))) (path : string) :
  (forall texts,
      pdf path = Ok (map Some texts) ->
      exists self' r,
        CreditCardParser.parse_text
          (CreditCardParser.mk path (document texts) None) = Ok (self', r)
        /\ parse_statement pdf path = Ok r)
  /\ (forall e,
         parse_statement pdf path = Raise e ->
         exists cause,
           e = Exception ("Error extracting text from PDF: " ++ cause)).
Proof.
  split.
  - intros texts H. rewrite (parse_statement_text _ _ _ H).
    destruct (parse_text_spec (CreditCardParser.mk path (document texts) None))
      as [card [cycle [due [total [ts [_ [_ [_ [_ [_ E]]]]]]]]]].
    rewrite E. eexists. eexists. split; reflexivity.
  - intros e H. unfold parse_statement in H.
    destruct (parse_spec pdf (CreditCardParser.__init__ path))
      as [[e' [E1 E2]] | [st [E1 E2]]]; rewrite E2 in H.
    + cbn [bind] in H. injection H as <-.
      unfold CreditCardParser.extract_text in E1.
      destruct (bind _ _) as [text|cause] in E1; [discriminate|].
      injection E1 as <-. now exists (CreditCardParser.message cause).
    + destruct (parse_text_spec (fst st))
        as [card [cycle [due [total [ts [_ [_ [_ [_ [_ E]]]]]]]]]].
      rewrite E in H. discriminate.
Qed.

Lemma parse_statement_outcome_witness :
  (exists self' r,
      CreditCardParser.parse_text
        (CreditCardParser.mk "statement.pdf" (document [example_text]) None)
      = Ok (self', r)
      /\ parse_statement (fun _ => Ok [Some example_text]) "statement.pdf"
         = Ok r)
  /\ exists cause,
       Exception "Error extracting text from PDF: No such file"
       = Exception ("Error extracting text from PDF: " ++ cause).
Proof.
  split.
  - apply (proj1 (parse_statement_outcome
                    (fun _ => Ok [Some example_text]) "statement.pdf")
             [example_text]).
    reflexivity.
  - apply (proj2 (parse_statement_outcome
                    (fun _ => Raise (Exception "No such file")) "missing.pdf")).
    reflexivity.
Defined.

Lemma parse_text_reads_path_and_text (path text : string)
    (issuer1 issuer2 : option string) :
  CreditCardParser.parse_text (CreditCardParser.mk path text issuer1)
  = CreditCardParser.parse_text (CreditCardParser.mk path text issuer2).
Proof. reflexivity. Qed.

(** X5. Parsing again with the object left by a first parse gives the same
    result and leaves the same object: what the first parse stored (the
    text, the issuer) does not influence the second. *)
Theorem parse_again_same
    (pdf : string -> result (list (option string)))
    (self self' : CreditCardParser.t) (r : Data.ParseResult) :
  CreditCardParser.parse pdf self = Ok (self', r) ->
  CreditCardParser.parse pdf self' = Ok (self', r).
Proof.
  intros H. unfold CreditCardParser.parse in *.
  unfold CreditCardParser.extract_text in *.
  destruct (bind (pdf (CreditCardParser.pdf_path self)) _) as [text|e] eqn:E;
    [|discriminate].
  cbn [bind fst] in H.
  assert (Hs : CreditCardParser.pdf_path self' = CreditCardParser.pdf_path self
               /\ CreditCardParser.text_content self' = text
               /\ CreditCardParser.issuer self' = Some (Data.issuer r)).
  { destruct (parse_text_spec
                (CreditCardParser.mk (CreditCardParser.pdf_path self) text
                   (CreditCardParser.issuer self)))
      as [card [cycle [due [total [ts [_ [_ [_ [_ [_ E']]]]]]]]]].
    rewrite E' in H. injection H as <- <-. repeat split. }
  destruct Hs as [Hp [Ht Hi]]. rewrite Hp, E. cbn [bind fst].
  rewrite (parse_text_reads_path_and_text _ _ _ (CreditCardParser.issuer self)).
  exact H.
Qed.

Lemma parse_again_same_witness :
  CreditCardParser.parse (fun _ => Ok [Some "HDFC Bank card XXXX1234"])
    (CreditCardParser.mk "statement.pdf"
       (document ["HDFC Bank card XXXX1234"]) (Some "HDFC Bank"))
  = Ok (CreditCardParser.mk "statement.pdf"
          (document ["HDFC Bank card XXXX1234"]) (Some "HDFC Bank"),
        Data.mkParseResult "HDFC Bank" (Some "1234") None None None []).
Proof.
  apply (parse_again_same (fun _ => Ok [Some "HDFC Bank card XXXX1234"])
           (CreditCardParser.__init__ "statement.pdf")).
  vm_compute. reflexivity.
Defined.

Lemma document_page (texts : list string) (page : string) :
  In page texts ->
  exists before after, document texts = before ++ page ++ after.
Proof.
  induction texts as [|t texts IH]; intros Hin; [destruct Hin|].
  destruct Hin as [-> | Hin].
  - exists "", (String "010" (document texts)). reflexivity.
  - destruct (IH Hin) as [before [after E]].
    exists (t ++ String "010" before), after. simpl. rewrite E.
    rewrite !append_assoc. reflexivity.
Qed.

(** X6. The issuer of a document and its pages: when one page alone is
    identified as American Express, so is the document; when one page alone
    is identified at all, the document is not "Unknown". *)
Theorem page_issuer_reaches_document
    (pdf : string -> result (list (option string))) (path : string)
    (texts : list string) (page : string) :
  pdf path = Ok (map Some texts) -> In page texts ->
  exists r,
    parse_statement pdf path = Ok r
    /\ (snd (CreditCardParser.identify_issuer (with_text page))
        = "American Express" ->
        Data.issuer r = "American Express")
    /\ (snd (CreditCardParser.identify_issuer (with_text page)) <> "Unknown" ->
        Data.issuer r <> "Unknown").
Proof.
  intros Hpdf Hin. rewrite (parse_statement_text _ _ _ Hpdf).
  destruct (parse_text_spec (CreditCardParser.mk path (document texts) None))
    as [card [cycle [due [total [ts [_ [_ [_ [_ [_ E]]]]]]]]]].
  rewrite E. cbn [bind snd]. eexists. split; [reflexivity|].
  cbn [Data.issuer].
  destruct (document_page _ _ Hin) as [before [after Hd]].
  destruct (issuer_survives_context (with_text page) before after)
    as [H1 H2].
  cbn [with_text CreditCardParser.text_content] in H1, H2.
  rewrite <- Hd in H1, H2.
  assert (Hsame : snd (CreditCardParser.identify_issuer
                         (CreditCardParser.mk path (document texts) None))
                  = snd (CreditCardParser.identify_issuer
                           (with_text (document texts)))) by reflexivity.
  rewrite Hsame. split; assumption.
Qed.

Lemma page_issuer_reaches_document_witness :
  exists r,
    parse_statement
      (fun _ => Ok (map Some ["Summary of account"; "American Express";
                              "Pay at any Citibank branch"]))
      "statement.pdf" = Ok r
    /\ (snd (CreditCardParser.identify_issuer (with_text "American Express"))
        = "American Express" ->
        Data.issuer r = "American Express")
    /\ (snd (CreditCardParser.identify_issuer (with_text "American Express"))
        <> "Unknown" ->
        Data.issuer r <> "Unknown").
Proof.
  apply (page_issuer_reaches_document
           (fun _ => Ok (map Some ["Summary of account"; "American Express";
                                   "Pay at any Citibank branch"]))
           "statement.pdf"
           ["Summary of account"; "American Express";
            "Pay at any Citibank branch"]
           "American Express").
  - reflexivity.
  - simpl. right. left. reflexivity.
Defined.

(* ================================================================== *)
(** * Where a capture comes from *)

Lemma Substring_refl (s : string) : Str.Substring s s.
Proof. exists "", "". simpl. now rewrite append_nil_r. Qed.

Lemma Substring_left (a w1 w2 : string) :
  Str.Substring a w1 -> Str.Substring a (w1 ++ w2).
Proof.
  intros H. apply (Substring_trans a w1); [exact H|].
  exists "", w2. reflexivity.
Qed.

Lemma Substring_right (a w1 w2 : string) :
  Str.Substring a w2 -> Str.Substring a (w1 ++ w2).
Proof.
  intros H. apply (Substring_trans a w2); [exact H|].
  exists w1, "". now rewrite append_nil_r.
Qed.

Lemma iter_within (P : string -> Re.marks -> Re.marks -> Prop) (n : nat)
    (x : string) :
  (forall w c c',
      P w c c' -> Re.lookup n c' = Some x ->
      Re.lookup n c = Some x \/ Str.Substring x w) ->
  forall k w c c',
    Re.iter P k w c c' -> Re.lookup n c' = Some x ->
    Re.lookup n c = Some x \/ Str.Substring x w.
Proof.
  intros HP. induction k as [|k IH]; intros w c c' H Hx; simpl in H.
  - destruct H as [_ ->]. auto.
  - destruct H as [w1 [w2 [cm [-> [H1 H2]]]]].
    destruct (IH _ _ _ H2 Hx) as [Hm | Hs].
    + destruct (HP _ _ _ H1 Hm) as [Hc | Hs]; [auto|].
      right. now apply Substring_left.
    + right. now apply Substring_right.
Qed.

(** The text under a mark was there before the match, or is a part of the
    matched text. *)
Lemma Matches_group_within (ic : bool) (r : Re.regex) (n : nat) (x : string) :
  forall w c c',
    Re.Matches ic r w c c' -> Re.lookup n c' = Some x ->
    Re.lookup n c = Some x \/ Str.Substring x w.
Proof.
  induction r as [|y|items|a IHa b IHb|a IHa b IHb|lo hi g a IHa|i a IHa];
    intros w c c' H Hx; simpl in H.
  - destruct H as [_ ->]. auto.
  - destruct H as [z [_ [_ ->]]]. auto.
  - destruct H as [z [_ [_ ->]]]. auto.
  - destruct H as [w1 [w2 [cm [-> [H1 H2]]]]].
    destruct (IHb _ _ _ H2 Hx) as [Hm | Hs].
    + destruct (IHa _ _ _ H1 Hm) as [Hc | Hs]; [auto|].
      right. now apply Substring_left.
    + right. now apply Substring_right.
  - destruct H as [H | H]; eauto.
  - destruct H as [k [_ [_ H]]].
    exact (iter_within _ n x IHa k w c c' H Hx).
  - destruct H as [cm [H ->]]. simpl in Hx.
    destruct (Nat.eqb i n).
    + injection Hx as <-. right. apply Substring_refl.
    + eauto.
Qed.

(** A group of a match returned by a search is a part of the text, and a
    match of the sub-pattern of a group with that number. *)
Lemma search_group_facts (p text : string) (flags : list Re.flag)
    (r : Re.regex) (m : Re.Match) (n : nat) (g : string) :
  Re.compile p = Ok r ->
  Re.search p text flags = Ok (Some m) ->
  Re.group m n = Some g ->
  Str.Substring g text
  /\ exists a c1 c2,
       In (n, a) (Re.groups_of r)
       /\ Re.Matches (Re.ignorecase flags) a g c1 c2.
Proof.
  intros Hc Hs Hg. rewrite (search_eq _ _ _ _ Hc) in Hs.
  injection Hs as Hs. apply search_from_sound in Hs.
  destruct Hs as [pre [w [post [-> [_ [_ [Hm _]]]]]]].
  unfold Re.group in Hg. split.
  - destruct (Matches_group_within _ _ n g _ _ _ Hm Hg) as [H | H];
      [discriminate H|].
    now apply Substring_extend.
  - destruct (Matches_group_content _ _ n _ _ _ g Hm Hg) as [H | [a [Hin [c1 [c2 Ha]]]]];
      [discriminate H|].
    now exists a, c1, c2.
Qed.

(** The same for the first match of a list of patterns whose group [n]
    has the sub-pattern [A] in each of them. *)
Lemma first_match_group_facts (patterns : list string) (A : Re.regex)
    (n : nat) (text p : string) (m : Re.Match) (g : string) :
  Forall (fun p => exists r,
              Re.compile p = Ok r
              /\ forall a, In (n, a) (Re.groups_of r) -> a = A) patterns ->
  first_match patterns text p m ->
  Re.group m n = Some g ->
  Str.Substring g text /\ exists c1 c2, Re.Matches true A g c1 c2.
Proof.
  intros Hok Hf Hg. apply first_match_in in Hf. destruct Hf as [Hin Hs].
  rewrite Forall_forall in Hok. destruct (Hok p Hin) as [r [Hc HA]].
  destruct (search_group_facts _ _ _ _ _ _ _ Hc Hs Hg)
    as [Hsub [a [c1 [c2 [Ha Hm]]]]].
  split; [exact Hsub|]. rewrite (HA a Ha) in Hm. now exists c1, c2.
Qed.

Ltac group_facts :=
  repeat (apply Forall_cons;
          [eexists; split;
           [vm_compute; reflexivity
           |let a := fresh "a" in
            let H := fresh "H" in
            intros a H; simpl in H;
            repeat (destruct H as [H | H]; [try discriminate H|]);
            try contradiction; try (now injection H as <-)]|]);
  apply Forall_nil.

Lemma card_last_four_group :
  Forall (fun p => exists r,
              Re.compile p = Ok r
              /\ forall a, In (1, a) (Re.groups_of r) -> a = four_digits_regex)
    CreditCardParser.card_last_four_patterns.
Proof. group_facts. Qed.

Lemma payment_due_date_group :
  Forall (fun p => exists r,
              Re.compile p = Ok r
              /\ forall a, In (1, a) (Re.groups_of r) -> a = date_regex)
    CreditCardParser.payment_due_date_patterns.
Proof. group_facts. Qed.

Lemma billing_cycle_group_1 :
  Forall (fun p => exists r,
              Re.compile p = Ok r
              /\ forall a, In (1, a) (Re.groups_of r) -> a = date_regex)
    CreditCardParser.billing_cycle_patterns.
Proof. group_facts. Qed.

Lemma billing_cycle_group_2 :
  Forall (fun p => exists r,
              Re.compile p = Ok r
              /\ forall a, In (2, a) (Re.groups_of r) -> a = date_regex)
    CreditCardParser.billing_cycle_patterns.
Proof. group_facts. Qed.

Lemma total_amount_due_group :
  Forall (fun p => exists r,
              Re.compile p = Ok r
              /\ forall a, In (1, a) (Re.groups_of r) -> a = total_regex)
    CreditCardParser.total_amount_due_patterns.
Proof. group_facts. Qed.

Lemma transaction_groups_1_2 :
  (forall a, In (1, a) (Re.groups_of transaction_regex) -> a = date_regex)
  /\ (forall a, In (2, a) (Re.groups_of transaction_regex)
                -> a = description_regex).
Proof.
  split; intros a H; simpl in H;
    repeat (destruct H as [H | H]; [try discriminate H|]);
    try contradiction; now injection H as <-.
Qed.

(* ================================================================== *)
(** * The shape of the captures *)

Ltac by_cases_on a :=
  destruct a as [[] [] [] [] [] [] [] []]; vm_compute;
  try reflexivity; try (intros; discriminate); auto.

Lemma separator_class (ic : bool) (a : ascii) :
  existsb (fun it => Re.item_test ic it a) [Re.Literal "/"; Re.Literal "-"]
  = true ->
  a = "/"%char \/ a = "-"%char.
Proof. destruct ic; by_cases_on a. Qed.

Lemma digit_comma_class (a : ascii) :
  existsb (fun it => Re.item_test true it a)
    [Re.Range "0" "9"; Re.Literal ","]
  = Str.isdecimal a || Ascii.eqb "," a.
Proof. by_cases_on a. Qed.

Lemma point_literal (a : ascii) :
  Re.item_test true (Re.Literal ".") a = true -> a = "."%char.
Proof. by_cases_on a. Qed.

Lemma digit_class (ic : bool) (a : ascii) :
  existsb (fun it => Re.item_test ic it a) [Re.Category Re.CategoryDigit]
  = Str.isdecimal a.
Proof. cbn. apply orb_false_r. Qed.

Lemma description_class (a : ascii) :
  existsb (fun it => Re.item_test false it a)
    [Re.Range "A" "Z"; Re.Range "a" "z"; Re.Category Re.CategorySpace;
     Re.Literal "*"; Re.Literal "&"; Re.Literal "-"; Re.Literal "."]
  = description_char a.
Proof.
  unfold description_char. cbn [existsb Re.item_test Re.category_test].
  rewrite orb_false_r, !orb_assoc. reflexivity.
Qed.

Lemma all_ext (f g : ascii -> bool) (s : string) :
  (forall a, f a = g a) -> Str.all f s = Str.all g s.
Proof.
  intros H. induction s as [|a s IH]; simpl; [reflexivity|].
  now rewrite H, IH.
Qed.

(** A repetition of the class [\d]. *)
Lemma digits_iter (ic : bool) (n : nat) (w : string) (c c' : Re.marks) :
  Re.iter (Re.Matches ic (Re.In [Re.Category Re.CategoryDigit])) n w c c' ->
  String.length w = n /\ Str.all Str.isdecimal w = true.
Proof.
  intros H.
  apply (iter_chars
           (fun a => existsb (fun it => Re.item_test ic it a)
                       [Re.Category Re.CategoryDigit])) in H.
  destruct H as [Hl Ha]. split; [exact Hl|].
  rewrite <- Ha. apply all_ext. intros a. symmetry. apply digit_class.
Qed.

(** A match of [\d{4}]: four digits. *)
Lemma four_digits_shape (ic : bool) (x : string) (c c' : Re.marks) :
  Re.Matches ic four_digits_regex x c c' ->
  String.length x = 4 /\ Str.all Str.isdecimal x = true.
Proof.
  intros H. cbn [four_digits_regex Re.Matches] in H.
  destruct H as [n [Hlo [Hhi H]]]. apply digits_iter in H.
  destruct H as [Hl Ha]. split; [lia | exact Ha].
Qed.

(** A match of [\d{1,2}[/-]\d{1,2}[/-]\d{2,4}]. *)
Lemma date_shape (ic : bool) (x : string) (c c' : Re.marks) :
  Re.Matches ic date_regex x c c' -> date_token x.
Proof.
  intros H. cbn [date_regex Re.Matches] in H.
  destruct H as [d [r1 [c1 [-> [[n1 [L1 [U1 H1]]] H]]]]].
  destruct H as [s1 [r2 [c2 [-> [[a1 [-> [A1 _]]] H]]]]].
  destruct H as [m [r3 [c3 [-> [[n2 [L2 [U2 H2]]] H]]]]].
  destruct H as [s2 [y [c4 [-> [[a2 [-> [A2 _]]] [n3 [L3 [U3 H3]]]]]]]].
  apply digits_iter in H1, H2, H3.
  destruct H1 as [E1 D1], H2 as [E2 D2], H3 as [E3 D3].
  apply separator_class in A1, A2.
  exists d, m, y, a1, a2. cbn [append].
  repeat split; try assumption; lia.
Qed.

(** A match of [[0-9,]+\.?\d*], case-insensitively. *)
Lemma total_shape (x : string) (c c' : Re.marks) :
  Re.Matches true total_regex x c c' ->
  exists w p fs,
    x = w ++ p ++ fs
    /\ Str.all (fun a => Str.isdecimal a || Ascii.eqb "," a) w = true
    /\ w <> ""
    /\ (p = "" \/ p = ".")
    /\ Str.all Str.isdecimal fs = true.
Proof.
  intros H. cbn [total_regex Re.Matches] in H.
  destruct H as [w [rest [c1 [-> [[n1 [Hn1 [_ H1]]] H]]]]].
  destruct H as [p [fs [c2 [-> [[n2 [_ [Hn2 H2]]] [n3 [_ [_ H3]]]]]]]].
  apply (iter_chars
           (fun a => existsb (fun it => Re.item_test true it a)
                       [Re.Range "0" "9"; Re.Literal ","])) in H1.
  apply (iter_chars (Re.item_test true (Re.Literal "."))) in H2.
  apply digits_iter in H3.
  destruct H1 as [L1 A1], H2 as [L2 A2], H3 as [L3 A3].
  exists w, p, fs. repeat split; try assumption.
  - erewrite all_ext; [exact A1|]. intros a. cbv beta. symmetry.
    apply digit_comma_class.
  - intros ->. simpl in L1. lia.
  - destruct p as [|y [|? ?]]; simpl in L2; try lia; [now left|].
    right. cbn [Str.all] in A2. rewrite andb_true_r in A2.
    apply point_literal in A2. now subst y.
Qed.

(** A match of [[A-Za-z\s\*&\-\.]+?]. *)
Lemma description_shape (x : string) (c c' : Re.marks) :
  Re.Matches false description_regex x c c' ->
  Str.all description_char x = true.
Proof.
  intros H. cbn [description_regex Re.Matches] in H.
  destruct H as [n [_ [_ H]]].
  apply (iter_chars
           (fun a => existsb (fun it => Re.item_test false it a)
                       [Re.Range "A" "Z"; Re.Range "a" "z";
                        Re.Category Re.CategorySpace; Re.Literal "*";
                        Re.Literal "&"; Re.Literal "-"; Re.Literal "."])) in H.
  destruct H as [_ H]. erewrite all_ext; [exact H|]. intros a. cbv beta.
  symmetry. apply description_class.
Qed.

(* ================================================================== *)
(** * Counting digits *)

Lemma count_digits_append (a b : string) :
  count_digits (a ++ b) = count_digits a + count_digits b.
Proof.
  induction a as [|x a IH]; simpl; [reflexivity|]. rewrite IH. lia.
Qed.

Lemma count_digits_all (s : string) :
  Str.all Str.isdecimal s = true -> count_digits s = String.length s.
Proof.
  induction s as [|a s IH]; simpl; [reflexivity|].
  rewrite andb_true_iff. intros [Ha Hs]. now rewrite Ha, IH.
Qed.

Lemma count_digits_substring (a b : string) :
  Str.Substring a b -> count_digits a <= count_digits b.
Proof. intros [p [q ->]]. rewrite !count_digits_append. lia. Qed.

Lemma date_token_digits (s : string) : date_token s -> 4 <= count_digits s.
Proof.
  intros [d [m [y [s1 [s2 [-> [D1 [L1 [_ [D2 [L2 [_ [D3 L3]]]]]]]]]]]]].
  rewrite count_digits_append. cbn [count_digits].
  rewrite count_digits_append. cbn [count_digits].
  rewrite (count_digits_all _ D1), (count_digits_all _ D2),
    (count_digits_all _ D3). lia.
Qed.

(* ================================================================== *)
(** * Stripping white space *)

Lemma lstrip_suffix (s : string) : exists p, s = p ++ Str.lstrip s.
Proof.
  induction s as [|a s [p IH]]; [now exists ""|]. simpl.
  destruct (Str.isspace a).
  - exists (String a p). simpl. now rewrite <- IH.
  - now exists "".
Qed.

Lemma rstrip_prefix (s : string) : exists q, s = Str.rstrip s ++ q.
Proof.
  induction s as [|a s [q IH]]; [now exists ""|]. simpl.
  destruct (Str.rstrip s) as [|b t] eqn:E.
  - destruct (Str.isspace a).
    + now exists (String a s).
    + exists s. reflexivity.
  - exists q. simpl. simpl in IH. now rewrite <- IH.
Qed.

Lemma strip_within (s : string) : Str.Substring (Str.strip s) s.
Proof.
  unfold Str.strip. destruct (rstrip_prefix s) as [q Hq].
  destruct (lstrip_suffix (Str.rstrip s)) as [p Hp].
  exists p, q. rewrite <- append_assoc, <- Hp. exact Hq.
Qed.

Lemma all_substring (f : ascii -> bool) (a b : string) :
  Str.Substring a b -> Str.all f b = true -> Str.all f a = true.
Proof.
  intros [p [q ->]]. rewrite !all_append, !andb_true_iff. tauto.
Qed.

Lemma rstrip_cons (a : ascii) (t : string) :
  Str.rstrip (String a t)
  = match Str.rstrip t with
    | EmptyString => if Str.isspace a then EmptyString else String a EmptyString
    | String b u => String a (String b u)
    end.
Proof. reflexivity. Qed.

Lemma rstrip_idempotent (s : string) : Str.rstrip (Str.rstrip s) = Str.rstrip s.
Proof.
  induction s as [|a s IH]; [reflexivity|]. rewrite rstrip_cons.
  destruct (Str.rstrip s) as [|b t] eqn:E.
  - destruct (Str.isspace a) eqn:Ha; [reflexivity|].
    rewrite rstrip_cons. cbn [Str.rstrip]. now rewrite Ha.
  - rewrite rstrip_cons, IH. reflexivity.
Qed.

Lemma lstrip_keeps_rstripped (x : string) :
  Str.rstrip x = x -> Str.rstrip (Str.lstrip x) = Str.lstrip x.
Proof.
  induction x as [|a t IH]; [reflexivity|]. intros H. cbn [Str.lstrip].
  destruct (Str.isspace a) eqn:Ha; [|exact H].
  apply IH. rewrite rstrip_cons, Ha in H.
  destruct (Str.rstrip t) as [|b u]; [discriminate H|].
  now injection H.
Qed.

Lemma lstrip_idempotent (s : string) : Str.lstrip (Str.lstrip s) = Str.lstrip s.
Proof.
  induction s as [|a s IH]; [reflexivity|]. cbn [Str.lstrip].
  destruct (Str.isspace a) eqn:Ha; [exact IH|].
  cbn [Str.lstrip]. now rewrite Ha.
Qed.

Lemma strip_idempotent (s : string) : Str.strip (Str.strip s) = Str.strip s.
Proof.
  unfold Str.strip.
  rewrite (lstrip_keeps_rstripped _ (rstrip_idempotent s)).
  apply lstrip_idempotent.
Qed.

(* ================================================================== *)
(** * What the extractors return *)

(** What a card number found is. *)
Lemma card_last_four_facts (self : CreditCardParser.t)
    (g : string) :
  CreditCardParser.extract_card_last_four self = Ok (Some g) ->
  String.length g = 4 /\ Str.all Str.isdecimal g = true
  /\ Str.Substring g (CreditCardParser.text_content self).
Proof.
  intros H. destruct (extract_card_last_four_spec self)
    as [[_ E] | [p [m [g' [Hf [Hg E]]]]]]; rewrite E in H;
    [discriminate|]. injection H as <-.
  destruct (first_match_group_facts _ _ _ _ _ _ _ card_last_four_group Hf Hg)
    as [Hs [c1 [c2 Hm]]].
  apply four_digits_shape in Hm. tauto.
Qed.

(** X7. The card number found is four decimal digits that stand in the
    text. *)
Theorem card_last_four_is_four_digits (self : CreditCardParser.t)
    (g : string) :
  CreditCardParser.extract_card_last_four self = Ok (Some g) ->
  String.length g = 4 /\ Str.all Str.isdecimal g = true
  /\ Str.Substring g (CreditCardParser.text_content self).
Proof. exact (card_last_four_facts self g). Qed.

Lemma card_last_four_is_four_digits_witness :
  String.length "1234" = 4 /\ Str.all Str.isdecimal "1234" = true
  /\ Str.Substring "1234" example_text.
Proof.
  apply (card_last_four_is_four_digits (with_text example_text) "1234").
  vm_compute. reflexivity.
Defined.

(** What a due date found is. *)
Lemma payment_due_date_facts (self : CreditCardParser.t)
    (g : string) :
  CreditCardParser.extract_payment_due_date self = Ok (Some g) ->
  date_token g /\ Str.Substring g (CreditCardParser.text_content self).
Proof.
  intros H. destruct (extract_payment_due_date_spec self)
    as [[_ E] | [p [m [g' [Hf [Hg E]]]]]]; rewrite E in H;
    [discriminate|]. injection H as <-.
  destruct (first_match_group_facts _ _ _ _ _ _ _ payment_due_date_group Hf Hg)
    as [Hs [c1 [c2 Hm]]].
  apply date_shape in Hm. tauto.
Qed.

(** X8. The payment due date found is a date token of the text: one or two
    digits, a slash or dash, one or two digits, a slash or dash, two to
    four digits.  Nothing checks that it is a date of the calendar. *)
Theorem payment_due_date_is_date_token (self : CreditCardParser.t)
    (g : string) :
  CreditCardParser.extract_payment_due_date self = Ok (Some g) ->
  date_token g /\ Str.Substring g (CreditCardParser.text_content self).
Proof. exact (payment_due_date_facts self g). Qed.

Lemma payment_due_date_is_date_token_witness :
  date_token "99/99/0000"
  /\ Str.Substring "99/99/0000" "Payment due date: 99/99/0000".
Proof.
  apply (payment_due_date_is_date_token
           (with_text "Payment due date: 99/99/0000") "99/99/0000").
  vm_compute. reflexivity.
Defined.

(** What a billing cycle found is. *)
Lemma billing_cycle_facts (self : CreditCardParser.t)
    (cycle : Data.BillingCycle) :
  CreditCardParser.extract_billing_cycle self = Ok (Some cycle) ->
  exists a b,
    cycle = Data.mkBillingCycle (Some a) (Some b)
    /\ date_token a /\ date_token b
    /\ Str.Substring a (CreditCardParser.text_content self)
    /\ Str.Substring b (CreditCardParser.text_content self).
Proof.
  intros H. destruct (extract_billing_cycle_spec self)
    as [[_ E] | [p [m [a [b [Hf [Ha [Hb E]]]]]]]]; rewrite E in H;
    [discriminate|]. injection H as <-.
  destruct (first_match_group_facts _ _ _ _ _ _ _ billing_cycle_group_1 Hf Ha)
    as [Hsa [c1 [c2 Hma]]].
  destruct (first_match_group_facts _ _ _ _ _ _ _ billing_cycle_group_2 Hf Hb)
    as [Hsb [c3 [c4 Hmb]]].
  apply date_shape in Hma, Hmb. exists a, b. tauto.
Qed.

(** X9. The two dates of the billing cycle found are date tokens of the
    text. *)
Theorem billing_cycle_dates_are_date_tokens (self : CreditCardParser.t)
    (cycle : Data.BillingCycle) :
  CreditCardParser.extract_billing_cycle self = Ok (Some cycle) ->
  exists a b,
    cycle = Data.mkBillingCycle (Some a) (Some b)
    /\ date_token a /\ date_token b
    /\ Str.Substring a (CreditCardParser.text_content self)
    /\ Str.Substring b (CreditCardParser.text_content self).
Proof. exact (billing_cycle_facts self cycle). Qed.

Lemma billing_cycle_dates_are_date_tokens_witness :
  exists a b,
    Data.mkBillingCycle (Some "01/01/2024") (Some "31/01/2024")
    = Data.mkBillingCycle (Some a) (Some b)
    /\ date_token a /\ date_token b
    /\ Str.Substring a example_text /\ Str.Substring b example_text.
Proof.
  apply (billing_cycle_dates_are_date_tokens (with_text example_text)).
  vm_compute. reflexivity.
Defined.

(** X10. The total amount found is digits, possibly a decimal point, digits:
    a part of the text made of digits and commas, an optional point and
    digits, with its commas removed.  It may be empty: a lone comma after
    the words is captured and stripped. *)
Theorem total_amount_due_shape :
  (forall self g,
      CreditCardParser.extract_total_amount_due self = Ok (Some g) ->
      digits_point_digits g
      /\ exists raw,
           Str.Substring raw (CreditCardParser.text_content self)
           /\ raw <> "" /\ g = Str.replace raw "," "")
  /\ CreditCardParser.extract_total_amount_due (with_text "Total due: , see below")
     = Ok (Some "").
Proof.
  split; [|vm_compute; reflexivity].
  intros self g H. destruct (extract_total_amount_due_spec self)
    as [[_ E] | [p [m [raw [Hf [Hg E]]]]]]; rewrite E in H;
    [discriminate|].
  assert (Hgr : g = Str.replace raw "," "") by congruence. subst g. clear H.
  destruct (first_match_group_facts _ _ _ _ _ _ _ total_amount_due_group Hf Hg)
    as [Hs [c1 [c2 Hm]]].
  apply total_shape in Hm.
  destruct Hm as [w [pt [fs [-> [Hw [Hne [Hp Hfs]]]]]]].
  split.
  - exists (Str.replace w "," ""), pt, fs.
    rewrite !replace_comma_append. repeat split; try assumption.
    + f_equal. f_equal.
      * destruct Hp as [-> | ->]; reflexivity.
      * apply replace_comma_id. revert Hfs. apply all_impl.
        apply isdecimal_not_comma.
    + now apply replace_comma_digits.
  - exists (w ++ pt ++ fs). repeat split; [exact Hs|].
    destruct w; [contradiction | discriminate].
Qed.

Lemma total_amount_due_shape_witness :
  digits_point_digits "12345.67"
  /\ exists raw,
       Str.Substring raw example_text
       /\ raw <> "" /\ "12345.67" = Str.replace raw "," "".
Proof.
  apply (proj1 total_amount_due_shape (with_text example_text) "12345.67").
  vm_compute. reflexivity.
Defined.

Lemma take_drop (n : nat) (s : string) : Str.take n s ++ Str.drop n s = s.
Proof.
  revert s. induction n as [|n IH]; intros [|a s]; simpl; try reflexivity.
  now rewrite IH.
Qed.

Lemma Substring_drop (a s : string) (n : nat) :
  Str.Substring a (Str.drop n s) -> Str.Substring a s.
Proof.
  intros H. rewrite <- (take_drop n s). now apply Substring_right.
Qed.

(** Every match of a scan matches a part of the scanned text. *)
Lemma scan_matches_within (ic : bool) (r : Re.regex) :
  forall fuel ma pos s,
    Forall (fun m => exists w, Re.Matches ic r w [] (Re.m_marks m)
                               /\ Str.Substring w s)
      (Re.scan ic r fuel ma pos s).
Proof.
  induction fuel as [|f IH]; intros ma pos s; simpl; [constructor|].
  destruct (Re.search_from ic r ma pos s) as [m|] eqn:E; [|constructor].
  constructor.
  - apply search_from_sound in E.
    destruct E as [pre [w [post [-> [_ [_ [Hm _]]]]]]].
    exists w. split; [exact Hm | now exists pre, post].
  - eapply Forall_impl; [|apply IH].
    intros m' [w [Hm Hs]]. exists w. split; [exact Hm|].
    eapply Substring_drop, Hs.
Qed.

(** The groups of a match of the transaction pattern: a date token, a run
    of description characters, and all of them parts of the matched
    text. *)
Lemma transaction_match_facts (m : Re.Match) (w : string) :
  Re.Matches false transaction_regex w [] (Re.m_marks m) ->
  exists d x a,
    Re.group m 1 = Some d /\ Re.group m 2 = Some x /\ Re.group m 3 = Some a
    /\ date_token d /\ Str.Substring d w
    /\ Str.all description_char x = true /\ Str.Substring x w.
Proof.
  intros Hm.
  destruct (transaction_groups m (ex_intro _ w Hm))
    as [d [x [a [Hd [Hx [Ha _]]]]]].
  exists d, x, a. repeat split; try assumption.
  - destruct (Matches_group_content _ _ 1 _ _ _ d Hm Hd)
      as [H | [t [Hin [c1 [c2 Ht]]]]]; [discriminate H|].
    rewrite (proj1 transaction_groups_1_2 t Hin) in Ht.
    exact (date_shape _ _ _ _ Ht).
  - destruct (Matches_group_within _ _ 1 d _ _ _ Hm Hd) as [H | H];
      [discriminate H | exact H].
  - destruct (Matches_group_content _ _ 2 _ _ _ x Hm Hx)
      as [H | [t [Hin [c1 [c2 Ht]]]]]; [discriminate H|].
    rewrite (proj2 transaction_groups_1_2 t Hin) in Ht.
    exact (description_shape _ _ _ Ht).
  - destruct (Matches_group_within _ _ 2 x _ _ _ Hm Hx) as [H | H];
      [discriminate H | exact H].
Qed.

(** What a transaction record is. *)
Lemma transaction_record_facts (self : CreditCardParser.t)
    (ts : list Data.Transaction) (t : Data.Transaction) :
  CreditCardParser.extract_transactions self = Ok ts -> In t ts ->
  (exists d, Data.date t = Some d /\ date_token d
             /\ Str.Substring d (CreditCardParser.text_content self))
  /\ Str.all description_char (Data.description t) = true
  /\ Str.strip (Data.description t) = Data.description t
  /\ Str.Substring (Data.description t) (CreditCardParser.text_content self).
Proof.
  intros He Hin. destruct (extract_transactions_spec self) as [ts' [He' HF]].
  rewrite He in He'. assert (ts' = ts) by congruence. subst ts'.
  destruct (Forall2_in_right _ _ _ _ HF Hin) as [m [Hm Hr]].
  apply in_firstn in Hm.
  assert (HM := scan_matches_within false transaction_regex
                  (2 * String.length (CreditCardParser.text_content self) + 2)
                  false 0 (CreditCardParser.text_content self)).
  rewrite Forall_forall in HM. destruct (HM m Hm) as [w [Hw Hs]].
  destruct (transaction_match_facts m w Hw)
    as [d [x [a [Hd [Hx [Ha [Td [Sd [Ax Sx]]]]]]]]].
  destruct Hr as [d' [x' [a' [Hd' [Hx' [Ha' ->]]]]]].
  assert (d' = d) by congruence. assert (x' = x) by congruence. subst d' x'.
  cbn [Data.date Data.description]. split; [|split; [|split]].
  - exists d. repeat split; try assumption.
    exact (Substring_trans _ _ _ Sd Hs).
  - exact (all_substring _ _ _ (strip_within x) Ax).
  - apply strip_idempotent.
  - exact (Substring_trans _ _ _ (strip_within x) (Substring_trans _ _ _ Sx Hs)).
Qed.

(** X11. Every transaction record has a date, which is a date token of the
    text; its description is a part of the text made of letters, white
    space and the characters * & - . only, without white space at its
    ends. *)
Theorem transaction_record_shape (self : CreditCardParser.t)
    (ts : list Data.Transaction) (t : Data.Transaction) :
  CreditCardParser.extract_transactions self = Ok ts -> In t ts ->
  (exists d, Data.date t = Some d /\ date_token d
             /\ Str.Substring d (CreditCardParser.text_content self))
  /\ Str.all description_char (Data.description t) = true
  /\ Str.strip (Data.description t) = Data.description t
  /\ Str.Substring (Data.description t) (CreditCardParser.text_content self).
Proof. exact (transaction_record_facts self ts t). Qed.

Lemma transaction_record_shape_witness :
  (exists d, Some "05/01/2024" = Some d /\ date_token d
             /\ Str.Substring d example_text)
  /\ Str.all description_char "COFFEE SHOP" = true
  /\ Str.strip "COFFEE SHOP" = "COFFEE SHOP"
  /\ Str.Substring "COFFEE SHOP" example_text.
Proof.
  apply (transaction_record_shape (with_text example_text)
           [Data.mkTransaction (Some "15/02/2024") "... Total amount due"
              "12345.67";
            Data.mkTransaction (Some "05/01/2024") "COFFEE SHOP" "450.00"]
           (Data.mkTransaction (Some "05/01/2024") "COFFEE SHOP" "450.00")).
  - vm_compute. reflexivity.
  - simpl. right. left. reflexivity.
Defined.

Lemma commas_only (w : string) :
  Str.all (fun a => Str.isdecimal a || Ascii.eqb "," a) w = true ->
  count_digits w = 0 -> Str.replace w "," "" = "".
Proof.
  induction w as [|a w IH]; [reflexivity|].
  cbn [Str.all count_digits]. rewrite andb_true_iff. intros [Ha Hw] Hc.
  rewrite replace_comma_cons.
  destruct (Str.isdecimal a); [discriminate Hc|].
  rewrite orb_false_l in Ha. rewrite Ha. apply IH; [exact Hw | exact Hc].
Qed.

(** X12. A text without any digit gives no card number, no billing cycle, no
    due date and no transaction; its total amount is absent, or blank, or
    a lone point. *)
Theorem no_digit_no_field (self : CreditCardParser.t) :
  count_digits (CreditCardParser.text_content self) = 0 ->
  CreditCardParser.extract_card_last_four self = Ok None
  /\ CreditCardParser.extract_billing_cycle self = Ok None
  /\ CreditCardParser.extract_payment_due_date self = Ok None
  /\ CreditCardParser.extract_transactions self = Ok []
  /\ (CreditCardParser.extract_total_amount_due self = Ok None
      \/ CreditCardParser.extract_total_amount_due self = Ok (Some "")
      \/ CreditCardParser.extract_total_amount_due self = Ok (Some ".")).
Proof.
  intros H0.
  assert (Hsub : forall g, Str.Substring g (CreditCardParser.text_content self)
                           -> count_digits g = 0).
  { intros g Hg. apply count_digits_substring in Hg. lia. }
  split; [|split; [|split; [|split]]].
  - destruct (CreditCardParser.extract_card_last_four self) as [[g|]|e] eqn:E.
    + destruct (card_last_four_facts self g E) as [Hl [Ha Hs]].
      apply Hsub in Hs. rewrite (count_digits_all _ Ha) in Hs. lia.
    + reflexivity.
    + destruct (extractors_total self) as [? [? [? [? [? [E' _]]]]]].
      congruence.
  - destruct (CreditCardParser.extract_billing_cycle self) as [[c|]|e] eqn:E.
    + destruct (billing_cycle_facts self c E)
        as [a [b [_ [Ta [_ [Sa _]]]]]].
      apply Hsub in Sa. apply date_token_digits in Ta. lia.
    + reflexivity.
    + destruct (extractors_total self) as [? [? [? [? [? [_ [E' _]]]]]]].
      congruence.
  - destruct (CreditCardParser.extract_payment_due_date self) as [[g|]|e] eqn:E.
    + destruct (payment_due_date_facts self g E) as [Tg Sg].
      apply Hsub in Sg. apply date_token_digits in Tg. lia.
    + reflexivity.
    + destruct (extractors_total self) as [? [? [? [? [? [_ [_ [E' _]]]]]]]].
      congruence.
  - destruct (extractors_total self) as [? [? [? [? [ts [_ [_ [_ [_ E]]]]]]]]].
    rewrite E. destruct ts as [|t ts]; [reflexivity|].
    destruct (transaction_record_facts self (t :: ts) t E (or_introl eq_refl))
      as [[d [_ [Td Sd]]] _].
    apply Hsub in Sd. apply date_token_digits in Td. lia.
  - destruct (extract_total_amount_due_spec self)
      as [[_ E] | [p [m [raw [Hf [Hg E]]]]]]; [now left|].
    right. rewrite E.
    destruct (first_match_group_facts _ _ _ _ _ _ _ total_amount_due_group Hf Hg)
      as [Hs [c1 [c2 Hm]]].
    apply total_shape in Hm.
    destruct Hm as [w [pt [fs [-> [Hw [Hne [Hp Hfs]]]]]]].
    apply Hsub in Hs. rewrite !count_digits_append in Hs.
    rewrite !replace_comma_append.
    rewrite (commas_only w Hw) by lia.
    assert (fs = "").
    { rewrite (count_digits_all _ Hfs) in Hs. destruct fs; [reflexivity|].
      simpl in Hs. lia. }
    subst fs. destruct Hp as [-> | ->]; [left | right]; reflexivity.
Qed.

Lemma no_digit_no_field_witness :
  CreditCardParser.extract_card_last_four
    (with_text "Card ending XXXX: see your HDFC Bank welcome letter") = Ok None.
Proof.
  apply (no_digit_no_field
           (with_text "Card ending XXXX: see your HDFC Bank welcome letter")).
  vm_compute. reflexivity.
Defined.

(* ================================================================== *)
(** * The matcher finds a match when there is one *)

Section RepComplete.

Variable body : string -> Re.marks -> Re.cont -> option (string * Re.marks).
Variable P : string -> Re.marks -> Re.marks -> Prop.

Hypothesis body_complete :
  forall w s' c c' k,
    P w c c' -> k s' c' <> None -> body (w ++ s') c k <> None.

Variables (lo : nat) (hi : option nat) (greedy : bool) (k : Re.cont).

Lemma rep_loop_complete :
  forall n fuel count w s' c c',
    Re.iter P n w c c' ->
    n <= fuel ->
    lo <= count + n ->
    match hi with Some h => count + n <= h | None => True end ->
    k s' c' <> None ->
    Re.rep_loop body lo hi greedy k fuel count (w ++ s') c <> None.
Proof.
  induction n as [|n IH]; intros fuel count w s' c c' Hit Hf Hlo Hhi Hk;
    rewrite rep_loop_eq; simpl in Hit.
  - destruct Hit as [-> ->]. cbn [append].
    assert (E : Nat.leb lo count = true) by (apply Nat.leb_le; lia).
    rewrite E. destruct (k s' c) as [res|]; [|contradiction].
    destruct greedy; [|discriminate].
    destruct fuel as [|f]; [discriminate|].
    destruct (Re.below count hi); [|discriminate].
    destruct (body s' c _); discriminate.
  - destruct Hit as [w1 [w2 [cm [-> [H1 H2]]]]].
    destruct fuel as [|f]; [lia|].
    assert (Hb : Re.below count hi = true).
    { destruct hi as [h|]; [|reflexivity]. apply Nat.ltb_lt. lia. }
    rewrite Hb, append_assoc.
    assert (Hmore :
      body (w1 ++ w2 ++ s') c
        (fun s0 c0 => Re.rep_loop body lo hi greedy k f (S count) s0 c0)
      <> None).
    { apply (body_complete w1 (w2 ++ s') c cm); [exact H1|].
      apply (IH f (S count) w2 s' cm c'); try assumption; try lia.
      destruct hi; [lia | exact I]. }
    destruct (body (w1 ++ w2 ++ s') c _) as [res|]; [|contradiction].
    destruct greedy; [discriminate|].
    destruct (if Nat.leb lo count then _ else None); discriminate.
Qed.

End RepComplete.

(** When [r] matches the start [w] of the text and the continuation
    accepts what follows, [run] returns a result (of this way of matching
    or of one tried before it). *)
Lemma run_complete (ic : bool) (r : Re.regex) :
  Re.productive r = true ->
  forall w s' c c' k,
    Re.Matches ic r w c c' -> k s' c' <> None ->
    Re.run ic r (w ++ s') c k <> None.
Proof.
  induction r as [|x|items|a IHa b IHb|a IHa b IHb|lo hi g a IHa|n a IHa];
    intros Hp w s' c c' k Hm Hk; cbn [Re.run]; cbn [Re.Matches] in Hm;
    cbn [Re.productive] in Hp.
  - destruct Hm as [-> ->]. exact Hk.
  - destruct Hm as [y [-> [Hy ->]]]. cbn [append]. now rewrite Hy.
  - destruct Hm as [y [-> [Hy ->]]]. cbn [append]. now rewrite Hy.
  - apply andb_true_iff in Hp. destruct Hp as [Hpa Hpb].
    destruct Hm as [w1 [w2 [cm [-> [H1 H2]]]]]. rewrite append_assoc.
    apply (IHa Hpa w1 (w2 ++ s') c cm); [exact H1|].
    now apply (IHb Hpb w2 s' cm c').
  - apply andb_true_iff in Hp. destruct Hp as [Hpa Hpb].
    destruct Hm as [H | H].
    + pose proof (IHa Hpa w s' c c' k H Hk) as Ha.
      destruct (Re.run ic a (w ++ s') c k); [discriminate | contradiction].
    + destruct (Re.run ic a (w ++ s') c k); [discriminate|].
      now apply (IHb Hpb w s' c c').
  - apply andb_true_iff in Hp. destruct Hp as [Hpos Hpa].
    apply Nat.ltb_lt in Hpos.
    destruct Hm as [n [Hlo [Hhi Hit]]].
    apply (rep_loop_complete _ _ (IHa Hpa) lo hi g k n _ 0 w s' c c');
      try assumption; try lia.
    destruct hi as [h|]; [exact Hhi|].
    apply (iter_length _ _ (Matches_min_len ic a)) in Hit.
    rewrite length_append.
    assert (n * 1 <= n * Re.min_len a) by (apply Nat.mul_le_mono_l; lia).
    lia.
  - destruct Hm as [cm [H ->]].
    apply (IHa Hp w s' c cm); [exact H|].
    now rewrite length_append, Nat.add_sub, take_append.
Qed.

(** A search finds a match whenever a part of the text matches, and one
    that starts no later. *)
Lemma search_from_complete (ic : bool) (r : Re.regex) (w : string)
    (c' : Re.marks) :
  Re.productive r = true ->
  Re.Matches ic r w [] c' ->
  forall before after pos,
    exists m,
      Re.search_from ic r false pos (before ++ w ++ after) = Some m
      /\ Re.m_start m <= pos + String.length before.
Proof.
  intros Hp Hm.
  assert (Hrun : forall s' : string,
             Re.run ic r (w ++ s') []
               (fun s0 c0 =>
                  if false && Nat.eqb (String.length s0)
                                (String.length (w ++ s'))
                  then None else Some (s0, c0)) <> None).
  { intros s'. apply (run_complete ic r Hp w s' [] c'); [exact Hm|].
    discriminate. }
  induction before as [|a b IH]; intros after pos;
    rewrite search_from_eq; cbn [append].
  - specialize (Hrun after).
    destruct (Re.run ic r (w ++ after) [] _) as [[s1 c1]|]; [|contradiction].
    eexists. split; [reflexivity|]. simpl. lia.
  - destruct (Re.run ic r (String a (b ++ w ++ after)) [] _) as [[s1 c1]|].
    + eexists. split; [reflexivity|]. simpl. lia.
    + destruct (IH after (S pos)) as [m [E Hle]].
      exists m. split; [exact E|]. simpl. lia.
Qed.

(* ================================================================== *)
(** * A field found stays found *)

Lemma search_survives (p text before after : string) (flags : list Re.flag)
    (r : Re.regex) (m : Re.Match) :
  Re.compile p = Ok r -> Re.productive r = true ->
  Re.search p text flags = Ok (Some m) ->
  exists m', Re.search p (before ++ text ++ after) flags = Ok (Some m').
Proof.
  intros Hc Hp Hs. rewrite (search_eq _ _ _ _ Hc) in Hs.
  rewrite (search_eq _ _ _ _ Hc). injection Hs as Hs. apply search_from_sound in Hs.
  destruct Hs as [pre [w [post [-> [_ [_ [Hm _]]]]]]].
  destruct (search_from_complete _ _ _ _ Hp Hm (before ++ pre) (post ++ after) 0)
    as [m' [E _]].
  exists m'. rewrite <- E. do 2 f_equal. now rewrite !append_assoc.
Qed.

Lemma cascade_survives (patterns : list string) (text before after : string) :
  Forall (fun p => exists r, Re.compile p = Ok r /\ Re.productive r = true)
    patterns ->
  (exists p m, first_match patterns text p m) ->
  exists p m, first_match patterns (before ++ text ++ after) p m.
Proof.
  intros Hok [p [m Hf]].
  destruct (cascade_cases patterns (before ++ text ++ after)
              (Forall_compiles _ _ Hok)) as [Hn | H]; [|exact H].
  apply first_match_in in Hf. destruct Hf as [Hin Hs].
  rewrite Forall_forall in Hok. destruct (Hok p Hin) as [r [Hc Hp]].
  destruct (search_survives p text before after _ r m Hc Hp Hs) as [m' E].
  rewrite (Hn p Hin) in E. discriminate.
Qed.

Lemma productive_lists :
  let ok := fun p => exists r, Re.compile p = Ok r /\ Re.productive r = true in
  Forall ok CreditCardParser.card_last_four_patterns
  /\ Forall ok CreditCardParser.billing_cycle_patterns
  /\ Forall ok CreditCardParser.payment_due_date_patterns
  /\ Forall ok CreditCardParser.total_amount_due_patterns.
Proof.
  intros ok. pose proof patterns_productive as H.
  apply Forall_app in H. destruct H as [H1 H].
  apply Forall_app in H. destruct H as [H2 H].
  apply Forall_app in H. destruct H as [H3 H].
  apply Forall_app in H. destruct H as [H4 _].
  auto.
Qed.

Lemma scan_nonempty (ic : bool) (r : Re.regex) (n : nat) (s : string) :
  Re.scan ic r (S n) false 0 s <> []
  <-> Re.search_from ic r false 0 s <> None.
Proof.
  cbn [Re.scan]. destruct (Re.search_from ic r false 0 s); split; intros H;
    try discriminate; contradiction.
Qed.

(** X13. Text added before or after never makes a field disappear: when the
    text alone gives a card number, a billing cycle, a due date, a total
    or some transaction, so does the larger text (the value found may be
    another one). *)
Theorem field_found_survives_context (self : CreditCardParser.t)
    (before after : string) :
  let whole :=
    with_text (before ++ CreditCardParser.text_content self ++ after) in
  (forall g, CreditCardParser.extract_card_last_four self = Ok (Some g) ->
             exists g', CreditCardParser.extract_card_last_four whole
                        = Ok (Some g'))
  /\ (forall g, CreditCardParser.extract_billing_cycle self = Ok (Some g) ->
                exists g', CreditCardParser.extract_billing_cycle whole
                           = Ok (Some g'))
  /\ (forall g, CreditCardParser.extract_payment_due_date self = Ok (Some g) ->
                exists g', CreditCardParser.extract_payment_due_date whole
                           = Ok (Some g'))
  /\ (forall g, CreditCardParser.extract_total_amount_due self = Ok (Some g) ->
                exists g', CreditCardParser.extract_total_amount_due whole
                           = Ok (Some g'))
  /\ (forall t ts, CreditCardParser.extract_transactions self = Ok (t :: ts) ->
                   exists t' ts', CreditCardParser.extract_transactions whole
                                  = Ok (t' :: ts')).
Proof.
  intros whole. destruct productive_lists as [P1 [P2 [P3 P4]]].
  split; [|split; [|split; [|split]]].
  - intros g H. destruct (extract_card_last_four_spec self)
      as [[_ E] | [p [m [g0 [Hf _]]]]]; [congruence|].
    destruct (cascade_survives _ _ before after P1 (ex_intro _ p (ex_intro _ m Hf)))
      as [p' [m' Hf']].
    destruct (extract_card_last_four_spec whole)
      as [[Hn _] | [? [? [g' [_ [_ E]]]]]];
      [destruct (first_match_not_no_match _ _ _ _ Hf' Hn) | now exists g'].
  - intros g H. destruct (extract_billing_cycle_spec self)
      as [[_ E] | [p [m [a0 [b0 [Hf _]]]]]]; [congruence|].
    destruct (cascade_survives _ _ before after P2 (ex_intro _ p (ex_intro _ m Hf)))
      as [p' [m' Hf']].
    destruct (extract_billing_cycle_spec whole)
      as [[Hn _] | [? [? [a' [b' [_ [_ [_ E]]]]]]]];
      [destruct (first_match_not_no_match _ _ _ _ Hf' Hn) | eauto].
  - intros g H. destruct (extract_payment_due_date_spec self)
      as [[_ E] | [p [m [g0 [Hf _]]]]]; [congruence|].
    destruct (cascade_survives _ _ before after P3 (ex_intro _ p (ex_intro _ m Hf)))
      as [p' [m' Hf']].
    destruct (extract_payment_due_date_spec whole)
      as [[Hn _] | [? [? [g' [_ [_ E]]]]]];
      [destruct (first_match_not_no_match _ _ _ _ Hf' Hn) | now exists g'].
  - intros g H. destruct (extract_total_amount_due_spec self)
      as [[_ E] | [p [m [g0 [Hf _]]]]]; [congruence|].
    destruct (cascade_survives _ _ before after P4 (ex_intro _ p (ex_intro _ m Hf)))
      as [p' [m' Hf']].
    destruct (extract_total_amount_due_spec whole)
      as [[Hn _] | [? [? [g' [_ [_ E]]]]]];
      [destruct (first_match_not_no_match _ _ _ _ Hf' Hn) | eauto].
  - intros t ts H.
    destruct transaction_pattern_ok as [_ [_ [_ [Hprod _]]]].
    destruct (extract_transactions_spec self) as [ts0 [E HF]].
    rewrite H in E. assert (ts0 = t :: ts) by congruence. subst ts0.
    set (text := CreditCardParser.text_content self) in *.
    replace (2 * String.length text + 2)
      with (S (2 * String.length text + 1)) in HF by lia.
    assert (Hs : Re.search_from false transaction_regex false 0 text <> None).
    { apply (scan_nonempty _ _ (2 * String.length text + 1)).
      intros E0. rewrite E0 in HF. inversion HF. }
    destruct (Re.search_from false transaction_regex false 0 text) as [m|] eqn:Em;
      [|contradiction].
    apply search_from_sound in Em.
    destruct Em as [pre [w [post [Et [_ [_ [Hm _]]]]]]].
    destruct (search_from_complete _ _ _ _ Hprod Hm (before ++ pre)
                (post ++ after) 0) as [m' [E' _]].
    destruct (extract_transactions_spec whole) as [ts' [Ew HFw]].
    cbn [whole with_text CreditCardParser.text_content] in HFw.
    replace (before ++ text ++ after)
      with ((before ++ pre) ++ w ++ post ++ after) in HFw
      by (rewrite Et, !append_assoc; reflexivity).
    replace (2 * String.length ((before ++ pre) ++ w ++ post ++ after) + 2)
      with (S (2 * String.length ((before ++ pre) ++ w ++ post ++ after) + 1))
      in HFw by lia.
    cbn [Re.scan] in HFw. rewrite E' in HFw. cbn [firstn] in HFw.
    inversion HFw as [|? t' ? ts'' ? ? Ets]; subst.
    exists t', ts''. exact Ew.
Qed.

Lemma field_found_survives_context_witness :
  exists g',
    CreditCardParser.extract_payment_due_date
      (with_text ("Due date 01/01/24. " ++ "Payment due date 15/02/2024"
                  ++ " Thank you"))
    = Ok (Some g').
Proof.
  apply (proj1 (proj2 (proj2
           (field_found_survives_context
              (with_text "Payment due date 15/02/2024")
              "Due date 01/01/24. " " Thank you"))) "15/02/2024").
  vm_compute. reflexivity.
Defined.

(* ================================================================== *)
(** * A labelled due date is found *)

(** The converse of [iter_chars]: accepted characters make as many
    iterations. *)
Lemma chars_iter (f : ascii -> bool) (w : string) (c : Re.marks) :
  Str.all f w = true ->
  Re.iter (fun w c c' => exists a, w = String a "" /\ f a = true /\ c' = c)
    (String.length w) w c c.
Proof.
  induction w as [|a w IH]; simpl; [auto|].
  rewrite andb_true_iff. intros [Ha Hw].
  exists (String a ""), w, c. repeat split; [|now apply IH].
  now exists a.
Qed.

Lemma digits_iter_conv (ic : bool) (w : string) (c : Re.marks) :
  Str.all Str.isdecimal w = true ->
  Re.iter (Re.Matches ic (Re.In [Re.Category Re.CategoryDigit]))
    (String.length w) w c c.
Proof.
  intros H.
  apply (chars_iter
           (fun a => existsb (fun it => Re.item_test ic it a)
                       [Re.Category Re.CategoryDigit])).
  erewrite all_ext; [exact H|]. intros a. apply digit_class.
Qed.

Lemma separator_class_conv (ic : bool) (a : ascii) :
  a = "/"%char \/ a = "-"%char ->
  existsb (fun it => Re.item_test ic it a) [Re.Literal "/"; Re.Literal "-"]
  = true.
Proof. intros [-> | ->]; destruct ic; reflexivity. Qed.

(** A date token is matched by the date pattern, which leaves the marks
    as they are. *)
Lemma date_token_matches (ic : bool) (d : string) (c : Re.marks) :
  date_token d -> Re.Matches ic date_regex d c c.
Proof.
  intros [d1 [m1 [y1 [s1 [s2 [-> [D1 [L1 [S1 [D2 [L2 [S2 [D3 L3]]]]]]]]]]]]].
  cbn [date_regex Re.Matches].
  exists d1, (String s1 (m1 ++ String s2 y1)), c. split; [reflexivity|]. split.
  { exists (String.length d1). repeat split; try lia.
    now apply digits_iter_conv. }
  exists (String s1 ""), (m1 ++ String s2 y1), c. split; [reflexivity|]. split.
  { exists s1. repeat split. now apply separator_class_conv. }
  exists m1, (String s2 y1), c. split; [reflexivity|]. split.
  { exists (String.length m1). repeat split; try lia.
    now apply digits_iter_conv. }
  exists (String s2 ""), y1, c. split; [reflexivity|]. split.
  { exists s2. repeat split. now apply separator_class_conv. }
  exists (String.length y1). repeat split; try lia.
  now apply digits_iter_conv.
Qed.

Lemma lower_char_letter (x a : ascii) :
  Str.lower_char a = x ->
  Re.item_test true (Re.Literal x) a = true.
Proof.
  intros <-. cbn [Re.item_test]. rewrite lower_char_idempotent.
  apply Ascii.eqb_refl.
Qed.

Lemma lower_char_space (a : ascii) :
  Str.lower_char a = " "%char -> a = " "%char.
Proof. by_cases_on a. Qed.

Lemma space_colon_class (a : ascii) :
  existsb (fun it => Re.item_test true it a)
    [Re.Category Re.CategorySpace; Re.Literal ":"]
  = Str.isspace a || Ascii.eqb ":" a.
Proof. by_cases_on a. Qed.

(** The words "due date" in any case, then white space and colons, then a
    date token: a match of the second due date pattern, whose group is the
    token. *)
Lemma due_date_label_matches (label sep d : string) :
  Str.lower label = "due date" ->
  Str.all (fun a => Str.isspace a || Ascii.eqb ":" a) sep = true ->
  date_token d ->
  exists r c',
    Re.compile "due[\s]+date[\s:]*(\d{1,2}[/-]\d{1,2}[/-]\d{2,4})" = Ok r
    /\ Re.productive r = true
    /\ Re.Matches true r (label ++ sep ++ d) [] c'.
Proof.
  intros Hl Hs Hd.
  destruct label as [|c1 [|c2 [|c3 [|c4 [|c5 [|c6 [|c7 [|c8 [|? ?]]]]]]]]];
    try discriminate Hl.
  cbn [Str.lower] in Hl.
  injection Hl as E1 E2 E3 E4 E5 E6 E7 E8.
  apply lower_char_space in E4. subst c4.
  eexists. eexists. split; [vm_compute; reflexivity|].
  split; [vm_compute; reflexivity|].
  cbn [Re.Matches append].
  exists (String c1 ""), (String c2 (String c3 (String " " (String c5 (String c6
            (String c7 (String c8 (sep ++ d)))))))), [].
  split; [reflexivity|]. split.
  { exists c1. repeat split. now apply lower_char_letter. }
  exists (String c2 ""), (String c3 (String " " (String c5 (String c6
            (String c7 (String c8 (sep ++ d))))))), [].
  split; [reflexivity|]. split.
  { exists c2. repeat split. now apply lower_char_letter. }
  exists (String c3 ""), (String " " (String c5 (String c6
            (String c7 (String c8 (sep ++ d)))))), [].
  split; [reflexivity|]. split.
  { exists c3. repeat split. now apply lower_char_letter. }
  exists (String " " ""), (String c5 (String c6
            (String c7 (String c8 (sep ++ d))))), [].
  split; [reflexivity|]. split.
  { exists 1. repeat split; try lia.
    exists (String " " ""), "", []. repeat split. now exists " "%char. }
  exists (String c5 ""), (String c6 (String c7 (String c8 (sep ++ d)))), [].
  split; [reflexivity|]. split.
  { exists c5. repeat split. now apply lower_char_letter. }
  exists (String c6 ""), (String c7 (String c8 (sep ++ d))), [].
  split; [reflexivity|]. split.
  { exists c6. repeat split. now apply lower_char_letter. }
  exists (String c7 ""), (String c8 (sep ++ d)), [].
  split; [reflexivity|]. split.
  { exists c7. repeat split. now apply lower_char_letter. }
  exists (String c8 ""), (sep ++ d), [].
  split; [reflexivity|]. split.
  { exists c8. repeat split. now apply lower_char_letter. }
  exists sep, d, [].
  split; [reflexivity|]. split.
  { exists (String.length sep). repeat split; try lia.
    apply (chars_iter
             (fun a => existsb (fun it => Re.item_test true it a)
                         [Re.Category Re.CategorySpace; Re.Literal ":"])).
    erewrite all_ext; [exact Hs|]. intros a. apply space_colon_class. }
  exists []. split; [|reflexivity].
  now apply date_token_matches.
Qed.

(** X14. A text in which the words "due date" (in any case, one space between
    them) are followed by white space or colons and a date token always
    gives a payment due date, whatever stands around: the token itself or
    one found before it, and in every case a date token of the text. *)
Theorem labelled_due_date_is_found (before label sep d after : string) :
  Str.lower label = "due date" ->
  Str.all (fun a => Str.isspace a || Ascii.eqb ":" a) sep = true ->
  date_token d ->
  exists g,
    CreditCardParser.extract_payment_due_date
      (with_text (before ++ (label ++ sep ++ d) ++ after)) = Ok (Some g)
    /\ date_token g
    /\ Str.Substring g (before ++ (label ++ sep ++ d) ++ after).
Proof.
  intros Hl Hs Hd.
  destruct (due_date_label_matches label sep d Hl Hs Hd)
    as [r [c' [Hc [Hp Hm]]]].
  destruct (search_from_complete _ _ _ _ Hp Hm before after 0) as [m [E _]].
  set (whole := with_text (before ++ (label ++ sep ++ d) ++ after)).
  destruct (extract_payment_due_date_spec whole)
    as [[Hn _] | [p [m' [g [Hf [Hg Eg]]]]]].
  - cbn [whole with_text CreditCardParser.text_content] in Hn.
    assert (Hin : In "due[\s]+date[\s:]*(\d{1,2}[/-]\d{1,2}[/-]\d{2,4})"
                    CreditCardParser.payment_due_date_patterns)
      by (simpl; auto).
    specialize (Hn _ Hin). rewrite (search_eq _ _ _ _ Hc) in Hn.
    cbn [Re.ignorecase existsb Re.flag_eqb orb] in Hn. rewrite E in Hn.
    discriminate.
  - exists g. split; [exact Eg|].
    destruct (first_match_group_facts _ _ _ _ _ _ _ payment_due_date_group Hf Hg)
      as [Hsub [c1 [c2 Hmg]]].
    split; [exact (date_shape _ _ _ _ Hmg) | exact Hsub].
Qed.

Lemma labelled_due_date_is_found_witness :
  exists g,
    CreditCardParser.extract_payment_due_date
      (with_text ("Minimum 500. " ++ ("DUE DATE" ++ " : " ++ "5-3-24")
                  ++ " Pay online.")) = Ok (Some g)
    /\ date_token g
    /\ Str.Substring g ("Minimum 500. " ++ ("DUE DATE" ++ " : " ++ "5-3-24")
                        ++ " Pay online.").
Proof.
  apply (labelled_due_date_is_found "Minimum 500. " "DUE DATE" " : " "5-3-24"
           " Pay online.").
  - reflexivity.
  - reflexivity.
  - exists "5", "3", "24", "-"%char, "-"%char.
    repeat split; simpl; auto.
Defined.

(* ================================================================== *)
(** * [mask_card_number] *)

Lemma last_suffix (n : nat) (s : string) :
  exists head, s = head ++ Utils.last n s.
Proof.
  exists (Str.take (String.length s - n) s). unfold Utils.last.
  now rewrite take_drop.
Qed.

Lemma length_last (n : nat) (s : string) :
  n <= String.length s -> String.length (Utils.last n s) = n.
Proof. intros H. unfold Utils.last. rewrite length_drop. lia. Qed.

(** X15. The mask is four stars followed by the last four characters of the
    number, and nothing else of it; a number that is missing, empty or
    shorter than four characters is masked whole. *)
Theorem mask_card_number_reveals_last_four :
  Utils.mask_card_number None = "****"
  /\ (forall s, String.length s < 4 ->
                Utils.mask_card_number (Some s) = "****")
  /\ (forall s, 4 <= String.length s ->
                exists head tail,
                  s = head ++ tail /\ String.length tail = 4
                  /\ Utils.mask_card_number (Some s) = "****" ++ tail).
Proof.
  split; [reflexivity|]. split.
  - intros s H. unfold Utils.mask_card_number.
    apply Nat.ltb_lt in H. rewrite H. now rewrite orb_true_r.
  - intros s H. destruct (last_suffix 4 s) as [head Hh].
    exists head, (Utils.last 4 s). split; [exact Hh|].
    split; [now apply length_last|].
    unfold Utils.mask_card_number.
    assert (E1 : Nat.eqb (String.length s) 0 = false)
      by (apply Nat.eqb_neq; lia).
    assert (E2 : Nat.ltb (String.length s) 4 = false)
      by (apply Nat.ltb_ge; lia).
    now rewrite E1, E2.
Qed.

Lemma mask_card_number_reveals_last_four_witness :
  Utils.mask_card_number (Some "12") = "****"
  /\ exists head tail,
       "4111111111111234" = head ++ tail /\ String.length tail = 4
       /\ Utils.mask_card_number (Some "4111111111111234") = "****" ++ tail.
Proof.
  split.
  - apply (proj1 (proj2 mask_card_number_reveals_last_four) "12").
    simpl. lia.
  - apply (proj2 (proj2 mask_card_number_reveals_last_four)
             "4111111111111234").
    simpl. lia.
Defined.

(* ================================================================== *)
(** * [sanitize_filename] *)

Lemma invalid_class (a : ascii) :
  existsb (fun it => Re.item_test false it a)
    [Re.Literal "<"; Re.Literal ">"; Re.Literal ":"; Re.Literal "034";
     Re.Literal "/"; Re.Literal "\"; Re.Literal "|"; Re.Literal "?";
     Re.Literal "*"]
  = invalid_character a.
Proof.
  unfold invalid_character. cbn [existsb Re.item_test].
  rewrite !(Ascii.eqb_sym a). reflexivity.
Qed.

Section SubClass.

Variable items : list Re.item.

Lemma search_class_hit (ma : bool) (pos : nat) (a : ascii) (t : string) :
  existsb (fun it => Re.item_test false it a) items = true ->
  Re.search_from false (Re.In items) ma pos (String a t)
  = Some (Re.mkMatch pos (pos + 1) []).
Proof.
  intros H. rewrite search_from_eq. cbn [Re.run]. rewrite H.
  assert (E : Nat.eqb (String.length t) (String.length (String a t)) = false)
    by (apply Nat.eqb_neq; simpl; lia).
  rewrite E, andb_false_r. do 2 f_equal. cbn [String.length].
  replace (S (String.length t) - String.length t) with 1 by lia. reflexivity.
Qed.

Lemma search_class_miss (ma : bool) (pos : nat) (a : ascii) (t : string) :
  existsb (fun it => Re.item_test false it a) items = false ->
  Re.search_from false (Re.In items) ma pos (String a t)
  = Re.search_from false (Re.In items) false (S pos) t.
Proof.
  intros H. rewrite search_from_eq. cbn [Re.run]. now rewrite H.
Qed.

(** Replacing the matches of a set removes, with an empty replacement,
    exactly the characters of the set. *)
Lemma stitch_class :
  forall s fuel ma pos,
    String.length s < fuel ->
    ReMore.stitch "" (Re.scan false (Re.In items) fuel ma pos s) pos s
    = (fix keep (s : string) : string :=
         match s with
         | EmptyString => EmptyString
         | String a t =>
             if existsb (fun it => Re.item_test false it a) items
             then keep t else String a (keep t)
         end) s.
Proof.
  induction s as [|a t IH]; intros fuel ma pos Hf.
  - destruct fuel as [|f]; [reflexivity|]. cbn [Re.scan].
    rewrite search_from_eq. cbn [Re.run]. reflexivity.
  - destruct fuel as [|f]; [simpl in Hf; lia|]. cbn [Re.scan].
    destruct (existsb (fun it => Re.item_test false it a) items) eqn:E.
    + rewrite (search_class_hit ma pos a t E).
      cbn [ReMore.stitch Re.m_start Re.m_end].
      rewrite Nat.sub_diag.
      replace (pos + 1 - pos) with 1 by lia.
      cbn [Str.take Str.drop append].
      apply IH. simpl in Hf. lia.
    + rewrite (search_class_miss ma pos a t E).
      specialize (IH (S f) false (S pos)). cbn [Re.scan] in IH.
      destruct (Re.search_from false (Re.In items) false (S pos) t)
        as [m|] eqn:Es.
      * apply search_from_bounds in Es. destruct Es as [Hs [He _]].
        cbn [ReMore.stitch] in *.
        replace (Re.m_start m - pos) with (S (Re.m_start m - S pos)) by lia.
        replace (Re.m_end m - pos) with (S (Re.m_end m - S pos)) by lia.
        cbn [Str.take Str.drop append]. f_equal.
        apply IH. simpl in Hf. lia.
      * cbn [ReMore.stitch] in *. f_equal. apply IH. simpl in Hf. lia.
Qed.

End SubClass.

Lemma replace_space_cons (a : ascii) (t : string) :
  Str.replace (String a t) " " "_"
  = String (if Ascii.eqb " " a then "_"%char else a) (Str.replace t " " "_").
Proof.
  unfold Str.replace. cbn [Str.replace_from Str.startswith].
  rewrite andb_true_r. destruct (Ascii.eqb " " a); reflexivity.
Qed.

(** What [sanitize_filename] returns, character by character. *)
Lemma sanitize_filename_sanitized (filename : string) :
  Utils.sanitize_filename filename = Ok (sanitized filename).
Proof.
  unfold Utils.sanitize_filename, ReMore.sub.
  assert (Hc : Re.compile Utils.invalid_characters
               = Ok (Re.In [Re.Literal "<"; Re.Literal ">"; Re.Literal ":";
                            Re.Literal "034"; Re.Literal "/"; Re.Literal "\";
                            Re.Literal "|"; Re.Literal "?"; Re.Literal "*"]))
    by (vm_compute; reflexivity).
  rewrite Hc. cbn [bind]. rewrite stitch_class by lia. f_equal.
  induction filename as [|a t IH]; [reflexivity|].
  cbn [sanitized]. rewrite invalid_class.
  destruct (invalid_character a); [exact IH|].
  rewrite replace_space_cons, IH, (Ascii.eqb_sym a). reflexivity.
Qed.

Lemma sanitized_clean (s : string) :
  Str.all (fun a => negb (invalid_character a) && negb (Ascii.eqb a " "))
    (sanitized s) = true.
Proof.
  induction s as [|a t IH]; [reflexivity|]. cbn [sanitized].
  destruct (invalid_character a) eqn:E; [exact IH|].
  cbn [Str.all]. rewrite IH, andb_true_r.
  destruct (Ascii.eqb a " ") eqn:Es; [reflexivity|].
  now rewrite E, Es.
Qed.

Lemma sanitized_fixed (s : string) :
  Str.all (fun a => negb (invalid_character a) && negb (Ascii.eqb a " ")) s
  = true ->
  sanitized s = s.
Proof.
  induction s as [|a t IH]; [reflexivity|]. cbn [Str.all sanitized].
  rewrite !andb_true_iff, !negb_true_iff. intros [[E Es] Ht].
  now rewrite E, Es, IH.
Qed.

Lemma sanitized_length (s : string) :
  String.length (sanitized s) <= String.length s.
Proof.
  induction s as [|a t IH]; [simpl; lia|]. cbn [sanitized].
  destruct (invalid_character a); simpl; lia.
Qed.

(** X16. [sanitize_filename] never raises; what it returns has none of the
    characters < > : double quote / \ | ? * and no space, is no longer than
    the name, and is left as it is by a second call; a name without those
    characters is returned unchanged. *)
Theorem sanitize_filename_clean (filename : string) :
  exists out,
    Utils.sanitize_filename filename = Ok out
    /\ out = sanitized filename
    /\ Str.all (fun a => negb (invalid_character a) && negb (Ascii.eqb a " "))
         out = true
    /\ String.length out <= String.length filename
    /\ Utils.sanitize_filename out = Ok out
    /\ (Str.all (fun a => negb (invalid_character a) && negb (Ascii.eqb a " "))
          filename = true -> out = filename).
Proof.
  exists (sanitized filename).
  split; [apply sanitize_filename_sanitized|]. split; [reflexivity|].
  split; [apply sanitized_clean|]. split; [apply sanitized_length|].
  split.
  - rewrite sanitize_filename_sanitized. f_equal.
    apply sanitized_fixed, sanitized_clean.
  - apply sanitized_fixed.
Qed.

Lemma sanitize_filename_clean_witness :
  exists out,
    Utils.sanitize_filename "statement_2024.pdf" = Ok out
    /\ out = "statement_2024.pdf".
Proof.
  destruct (sanitize_filename_clean "statement_2024.pdf")
    as [out [E [_ [_ [_ [_ H]]]]]].
  exists out. split; [exact E|]. apply H. vm_compute. reflexivity.
Defined.

(* ================================================================== *)
(** * [extract_phone] *)

Lemma iter_digits (P : string -> Re.marks -> Re.marks -> Prop) (k : nat) :
  (forall w c c', P w c c' -> k <= count_digits w) ->
  forall n w c c', Re.iter P n w c c' -> n * k <= count_digits w.
Proof.
  intros HP. induction n as [|n IH]; intros w c c' H; simpl in H.
  - simpl. lia.
  - destruct H as [w1 [w2 [cm [-> [H1 H2]]]]].
    apply HP in H1. apply IH in H2. rewrite count_digits_append. simpl. lia.
Qed.

(** A match of [r] has at least [min_digits r] digits. *)
Lemma Matches_min_digits (ic : bool) (r : Re.regex) :
  forall w c c', Re.Matches ic r w c c' -> min_digits r <= count_digits w.
Proof.
  induction r as [|x|items|a IHa b IHb|a IHa b IHb|lo hi g a IHa|n a IHa];
    intros w c c' H; cbn [Re.Matches] in H.
  - simpl. lia.
  - simpl. lia.
  - destruct H as [y [-> [Hy _]]].
    destruct items as [|[x|lo hi|[|]] [|? ?]]; try (simpl; lia).
    rewrite digit_class in Hy. simpl. rewrite Hy. lia.
  - destruct H as [w1 [w2 [cm [-> [H1 H2]]]]].
    apply IHa in H1. apply IHb in H2. rewrite count_digits_append.
    simpl. lia.
  - destruct H as [H | H]; [apply IHa in H | apply IHb in H]; simpl; lia.
  - destruct H as [n [Hlo [_ H]]].
    apply (iter_digits _ _ IHa) in H.
    assert (lo * min_digits a <= n * min_digits a)
      by (apply Nat.mul_le_mono_r; exact Hlo).
    simpl. lia.
  - destruct H as [cm [H _]]. apply IHa in H. simpl. exact H.
Qed.

(** The whole match of a search from the start of the text is the part
    of the text that the pattern matched. *)
Lemma group0_matched (ic : bool) (r : Re.regex) (text : string)
    (m : Re.Match) :
  Re.search_from ic r false 0 text = Some m ->
  Str.Substring (ReMore.group0 text m) text
  /\ Re.Matches ic r (ReMore.group0 text m) [] (Re.m_marks m).
Proof.
  intros H. apply search_from_sound in H.
  destruct H as [pre [w [post [-> [Hs [He [Hm _]]]]]]].
  assert (E : ReMore.group0 (pre ++ w ++ post) m = w).
  { unfold ReMore.group0. rewrite He, Hs. cbn [Nat.add].
    rewrite Nat.add_comm, Nat.add_sub, drop_append. apply take_append. }
  rewrite E. split; [now exists pre, post | exact Hm].
Qed.

Lemma phone_patterns_ok :
  Forall (fun p => exists r, Re.compile p = Ok r /\ 10 <= min_digits r)
    Utils.phone_patterns.
Proof.
  repeat (apply Forall_cons;
          [eexists; split; [vm_compute; reflexivity | vm_compute; lia]|]);
  apply Forall_nil.
Qed.

Lemma phone_cascade (text : string) (patterns : list string) :
  Forall (fun p => exists r, Re.compile p = Ok r /\ 10 <= min_digits r)
    patterns ->
  let result :=
    for_each patterns
      (fun pattern =>
         found <- Re.search pattern text [] ;;
         match found with
         | Some m => Ok (Return (Some (ReMore.group0 text m)))
         | None => Ok Next
         end)
      (Ok None) in
  result = Ok None
  \/ exists g, result = Ok (Some g)
               /\ Str.Substring g text /\ 10 <= count_digits g.
Proof.
  intros Hok. induction patterns as [|p patterns IH]; cbn [for_each].
  - now left.
  - inversion Hok as [|? ? [r [Hc Hd]] Hok']; subst.
    rewrite (search_eq _ _ _ _ Hc). cbn [bind Re.ignorecase existsb].
    destruct (Re.search_from false r false 0 text) as [m|] eqn:E.
    + right. exists (ReMore.group0 text m). split; [reflexivity|].
      destruct (group0_matched _ _ _ _ E) as [Hs Hm].
      split; [exact Hs|]. apply Matches_min_digits in Hm. lia.
    + apply IH, Hok'.
Qed.

(** X17. [extract_phone] never raises.  A number it returns is a part of the
    text with at least ten digits; a text with fewer than ten digits has
    no phone number. *)
Theorem extract_phone_has_ten_digits (text : string) :
  (Utils.extract_phone text = Ok None
   \/ exists g, Utils.extract_phone text = Ok (Some g)
                /\ Str.Substring g text /\ 10 <= count_digits g)
  /\ (count_digits text < 10 -> Utils.extract_phone text = Ok None).
Proof.
  pose proof (phone_cascade text _ phone_patterns_ok) as H.
  split; [exact H|]. intros Hd.
  destruct H as [H | [g [_ [Hs Hg]]]]; [exact H|].
  apply count_digits_substring in Hs. lia.
Qed.

Lemma extract_phone_has_ten_digits_witness :
  Utils.extract_phone "Call 1800-123 for help" = Ok None.
Proof.
  apply (proj2 (extract_phone_has_ten_digits "Call 1800-123 for help")).
  vm_compute. lia.
Defined.

(* ================================================================== *)
(** * What the application shows *)

(** The fields of a result of [parse_statement] are what the extractors
    return on one text. *)
Lemma parse_statement_fields
    (pdf : string -> result (list (option string))) (path : string)
    (r : Data.ParseResult) :
  parse_statement pdf path = Ok r ->
  exists self,
    CreditCardParser.extract_card_last_four self = Ok (Data.card_last_four r)
    /\ CreditCardParser.extract_billing_cycle self
       = Ok (Data.billing_cycle r)
    /\ CreditCardParser.extract_payment_due_date self
       = Ok (Data.payment_due_date r)
    /\ CreditCardParser.extract_total_amount_due self
       = Ok (Data.total_amount_due r)
    /\ CreditCardParser.extract_transactions self = Ok (Data.transactions r).
Proof.
  intros H. unfold parse_statement in H.
  destruct (parse_spec pdf (CreditCardParser.__init__ path))
    as [[e [_ E]] | [st [_ E]]]; rewrite E in H; [discriminate|].
  destruct (parse_text_spec (fst st))
    as [card [cycle [due [total [ts [E1 [E2 [E3 [E4 [E5 E']]]]]]]]]].
  rewrite E' in H. cbn [bind snd] in H.
  assert (Hr : r = Data.mkParseResult
                     (snd (CreditCardParser.identify_issuer (fst st)))
                     card cycle due total ts) by congruence.
  subst r. exists (fst st). cbn. auto.
Qed.

Lemma four_characters_not_the_default (g : string) :
  String.length g = 4 -> String.eqb g "Not Found" = false.
Proof.
  intros H. apply String.eqb_neq. intros ->. discriminate H.
Qed.

(** X18. The metric "Card Last 4 Digits" never shows "Not Found": the key is in
    every result, so that the default of [result.get] is not used.  With
    a card number it shows four stars and the four digits, which is also
    what [mask_card_number] makes of them; without one it shows
    "****None". *)
Theorem card_metric_never_not_found
    (pdf : string -> result (list (option string))) (path : string)
    (r : Data.ParseResult) :
  parse_statement pdf path = Ok r ->
  App.card_metric r <> "Not Found"
  /\ ((Data.card_last_four r = None /\ App.card_metric r = "****None")
      \/ exists g,
           Data.card_last_four r = Some g
           /\ String.length g = 4 /\ Str.all Str.isdecimal g = true
           /\ App.card_metric r = "****" ++ g
           /\ App.card_metric r = Utils.mask_card_number (Some g)).
Proof.
  intros H. destruct (parse_statement_fields _ _ _ H) as [self [E _]].
  unfold App.card_metric.
  destruct (Data.card_last_four r) as [g|].
  - destruct (card_last_four_facts self g E) as [Hl [Ha _]].
    cbn [App.differs App.shown].
    rewrite (four_characters_not_the_default g Hl). cbn [negb].
    split; [discriminate|]. right. exists g. repeat split; try assumption.
    unfold Utils.mask_card_number. rewrite Hl.
    destruct (last_suffix 4 g) as [head Hh].
    assert (Hlen := length_last 4 g). rewrite Hl in Hlen.
    specialize (Hlen (le_n 4)).
    assert (head = "").
    { apply (f_equal String.length) in Hh. rewrite length_append, Hl, Hlen in Hh.
      destruct head; [reflexivity | simpl in Hh; lia]. }
    subst head. cbn [append] in Hh. cbn. now rewrite <- Hh.
  - cbn. split; [discriminate|]. left. auto.
Qed.

Lemma date_token_not_the_default (a rest : string) :
  date_token a -> a ++ rest <> "Not Found".
Proof.
  intros [d1 [m1 [y1 [s1 [s2 [-> [D1 [L1 _]]]]]]]] E.
  destruct d1 as [|x d1]; [simpl in L1; lia|].
  cbn [append] in E. injection E as -> _. discriminate D1.
Qed.

(** X19. [cycle_text], the value of the metric "Billing Cycle", is "Not Found"
    exactly when the result has no billing cycle; otherwise it is the two
    date tokens with " to " between them, and the fallback "N/A" of the
    inner [get] is never shown. *)
Theorem cycle_text_values
    (pdf : string -> result (list (option string))) (path : string)
    (r : Data.ParseResult) :
  parse_statement pdf path = Ok r ->
  (Data.billing_cycle r = None /\ App.cycle_text r = "Not Found")
  \/ exists a b,
       Data.billing_cycle r = Some (Data.mkBillingCycle (Some a) (Some b))
       /\ date_token a /\ date_token b
       /\ App.cycle_text r = a ++ " to " ++ b
       /\ App.cycle_text r <> "Not Found".
Proof.
  intros H. destruct (parse_statement_fields _ _ _ H) as [self [_ [E _]]].
  unfold App.cycle_text.
  destruct (Data.billing_cycle r) as [cycle|]; [|now left].
  right. destruct (billing_cycle_facts self cycle E)
    as [a [b [-> [Ta [Tb _]]]]].
  exists a, b. cbn [Data.start_date Data.end_date App.shown].
  repeat split; try assumption.
  now apply date_token_not_the_default.
Qed.

Lemma cycle_text_values_witness :
  (Data.billing_cycle
     (Data.mkParseResult "Unknown" None None None None []) = None
   /\ App.cycle_text (Data.mkParseResult "Unknown" None None None None [])
      = "Not Found")
  \/ exists a b,
       Data.billing_cycle
         (Data.mkParseResult "Unknown" None None None None [])
       = Some (Data.mkBillingCycle (Some a) (Some b))
       /\ date_token a /\ date_token b
       /\ App.cycle_text (Data.mkParseResult "Unknown" None None None None [])
          = a ++ " to " ++ b
       /\ App.cycle_text (Data.mkParseResult "Unknown" None None None None [])
          <> "Not Found".
Proof.
  apply (cycle_text_values (fun _ => Ok []) "statement.pdf").
  vm_compute. reflexivity.
Defined.

Lemma card_metric_never_not_found_witness :
  App.card_metric
    (Data.mkParseResult "HDFC Bank" (Some "1234") None None None [])
  <> "Not Found".
Proof.
  apply (card_metric_never_not_found
           (fun _ => Ok [Some "HDFC Bank card XXXX1234"]) "statement.pdf").
  vm_compute. reflexivity.
Defined.
